(** * dask.diagnostics.profile_visualize: a shallow embedding

    The module renders profiling results as charts.  Its functions are
    embedded here as Rocq functions over a small model of the Python
    values they handle:

    - Python exceptions are the [Raise] results of an [outcome];
    - calls into the plotting backend (bokeh) are recorded, in program
      order, in the log carried by [run];
    - timestamps, CPU and memory readings are Python floats; they are
      modelled as exact rationals ([Q]) and compared with [Qeq];
    - dicts are association lists in insertion order, which is the
      iteration order of a Python dict. *)

From Stdlib Require Import List String ZArith QArith Lia Lqa Arith.
From Stdlib Require Import Permutation Sorted DecimalString OrdersEx.
Import ListNotations.

Set Implicit Arguments.
Set Warnings "-register-all".

(** ** Python runtime: exceptions and results *)

Module Py.

Inductive exn : Type :=
| ZeroDivisionError
| TypeError
| ValueError
| KeyError
| IndexError.

Inductive outcome (A : Type) : Type :=
| Ok (a : A)
| Raise (e : exn).

Arguments Ok {A} a.
Arguments Raise {A} e.

Definition bind {A B : Type} (m : outcome A) (f : A -> outcome B) : outcome B :=
  match m with
  | Ok a => f a
  | Raise e => Raise e
  end.

(** A comprehension or generator whose body may raise: elements are
    evaluated left to right and the first exception escapes. *)
Fixpoint mapM {A B : Type} (f : A -> outcome B) (l : list A) : outcome (list B) :=
  match l with
  | [] => Ok []
  | x :: l' =>
      bind (f x) (fun y => bind (mapM f l') (fun ys => Ok (y :: ys)))
  end.

(** [int(a / n)] under [from __future__ import division]: true division,
    then truncation toward zero; a zero divisor raises.  The quotient is
    taken exactly, as the float division gives it for label sizes. *)
Definition int_div (a : Z) (n : nat) : outcome Z :=
  match n with
  | O => Raise ZeroDivisionError
  | S _ => Ok (Z.quot a (Z.of_nat n))
  end.

(** [len(s)] of a string, as a Python int. *)
Definition len (s : string) : Z := Z.of_nat (String.length s).

(** [s * n] *)
Fixpoint str_repeat (s : string) (n : nat) : string :=
  match n with
  | O => EmptyString
  | S n' => String.append s (str_repeat s n')
  end.

(** [str(i)] of a non-negative int. *)
Definition str_of_nat (n : nat) : string :=
  NilEmpty.string_of_uint (Nat.to_uint n).

End Py.

Import Py.

Declare Scope outcome_scope.
Delimit Scope outcome_scope with outcome.
Notation "x <- m ;; k" := (Py.bind m (fun x => k))
  (at level 61, m at next level, right associativity) : outcome_scope.
Open Scope outcome_scope.

(** ** Task expressions *)

(** A function object, as far as the module looks at it. *)
Record pyfunc : Type := { display_name : string }.

(** Modelled from the spec: [funcname] lives in [dask/dot.py], which is
    not part of the sources at hand; it gives "the single function's
    display name". *)
Definition funcname (f : pyfunc) : string := display_name f.

(** The head of a task tuple: a plain callable, or one that carries a
    [funcs] attribute (a fused pipeline of callables). *)
Inductive callable : Type :=
| Fn (f : pyfunc)
| Fused (funcs : list pyfunc).

(** Values that are neither tasks nor lists.  [Unhashable] stands for a
    value whose hashing raises [TypeError] (a dict, a set, an array). *)
Inductive leaf : Type :=
| Str (s : string)
| Int (z : Z)
| Unhashable.

(** [istask(x)] holds of a tuple whose first element is callable: this
    is [Call]; [isinstance(x, list)] is [PyList]. *)
Inductive task : Type :=
| Call (func : callable) (args : list task)
| PyList (items : list task)
| Leaf (v : leaf).

Definition leaf_eqb (a b : leaf) : bool :=
  match a, b with
  | Str s, Str s' => String.eqb s s'
  | Int z, Int z' => Z.eqb z z'
  | _, _ => false
  end.

(** [x in keys], [keys] being a dict: hashing [x] may raise. *)
Definition contains (keys : list leaf) (x : leaf) : outcome bool :=
  match x with
  | Unhashable => Raise TypeError
  | _ => Ok (existsb (leaf_eqb x) keys)
  end.

Definition head_of (func : callable) : string :=
  match func with
  | Fused funcs => String.concat "(" (map funcname funcs)
  | Fn f => funcname f
  end.

Definition tail_of (func : callable) : string :=
  match func with
  | Fused funcs => str_repeat ")" (List.length funcs)
  | Fn _ => ")"
  end.

(** [pprint_task(task, keys, label_size)].  The local [each n ts size]
    is the generator [pprint_task(t, keys, size) for t in ts[:n]]. *)
Fixpoint pprint_task (t : task) (keys : list leaf) (label_size : Z)
  {struct t} : outcome string :=
  let fix each (n : nat) (ts : list task) (size : Z) {struct ts}
    : outcome (list string) :=
    match n, ts with
    | S n', t' :: ts' =>
        s <- pprint_task t' keys size ;;
        ss <- each n' ts' size ;;
        Ok (s :: ss)
    | _, _ => Ok []
    end in
  match t with
  | Call func args =>
      let head := head_of func in
      let tail := tail_of func in
      label_size2 <- int_div (label_size - len head - len tail) (List.length args) ;;
      args_text <- (if (5 <? label_size2)%Z
                    then ss <- each (List.length args) args label_size2 ;;
                         Ok (String.concat ", " ss)
                    else Ok "...") ;;
      Ok (head ++ "(" ++ args_text ++ tail)
  | PyList items =>
      let n2 := List.length (firstn 3 items) in
      label_size2 <- int_div (label_size - 2 - 2 * Z.of_nat n2) n2 ;;
      ss <- each 3%nat items label_size2 ;;
      let args_text := String.concat ", " ss in
      if (3 <? List.length items)%nat
      then Ok ("[" ++ args_text ++ ", ...]")
      else Ok ("[" ++ args_text ++ "]")
  | Leaf v =>
      match contains keys v with
      | Ok true => Ok "_"
      | Ok false => Ok "*"
      | Raise TypeError => Ok "*"
      | Raise e => Raise e
      end
  end%string.


(** ** Python sequences and dicts *)

Module Seq.

Section Generic.
Variable A : Type.

(** [toolz.unique(seq)]: the items in order, each the first time it
    is seen. *)
Fixpoint unique_from (eqb : A -> A -> bool) (seen : list A) (l : list A) : list A :=
  match l with
  | [] => []
  | x :: l' =>
      if existsb (eqb x) seen then unique_from eqb seen l'
      else x :: unique_from eqb (x :: seen) l'
  end.

Definition unique (eqb : A -> A -> bool) (l : list A) : list A :=
  unique_from eqb [] l.

(** [sorted(l)] is stable: [x], which precedes every item of [l] in
    the input, goes in front of the first item that is not below it. *)
Fixpoint insert (lt : A -> A -> bool) (x : A) (l : list A) : list A :=
  match l with
  | [] => [x]
  | y :: l' => if lt y x then y :: insert lt x l' else x :: y :: l'
  end.

Definition sorted (lt : A -> A -> bool) (l : list A) : list A :=
  fold_right (insert lt) [] l.

(** [sorted(l, reverse=True)]: descending, and still stable. *)
Definition sorted_reverse (lt : A -> A -> bool) (l : list A) : list A :=
  sorted (fun a b => lt b a) l.

(** [min(l)] and [max(l)]: the first least (greatest) item; an empty
    argument raises [ValueError]. *)
Definition min (lt : A -> A -> bool) (l : list A) : outcome A :=
  match l with
  | [] => Raise ValueError
  | x :: l' => Ok (fold_left (fun best item => if lt item best then item else best) l' x)
  end.

Definition max (lt : A -> A -> bool) (l : list A) : outcome A :=
  match l with
  | [] => Raise ValueError
  | x :: l' => Ok (fold_left (fun best item => if lt best item then item else best) l' x)
  end.

(** [enumerate(l)] *)
Definition enumerate (l : list A) : list (nat * A) :=
  combine (seq 0 (List.length l)) l.

(** The second argument of [zip]: a list, or [itertools.cycle] of one. *)
Inductive iterable : Type :=
| Finite (l : list A)
| Cycle (l : list A).

Definition take (n : nat) (it : iterable) : list A :=
  match it with
  | Finite l => firstn n l
  | Cycle [] => []
  | Cycle (a :: l) =>
      map (fun i => nth (i mod List.length (a :: l)) (a :: l) a) (seq 0 n)
  end.

(** [zip(l, it)] *)
Definition zip (B : Type) (l : list B) (it : iterable) : list (B * A) :=
  combine l (take (List.length l) it).
End Generic.

End Seq.

Module Dict.

Section Generic.
Variables K V : Type.
Variable eqb : K -> K -> bool.

(** [d[k]] *)
Fixpoint get (d : list (K * V)) (k : K) : outcome V :=
  match d with
  | [] => Raise KeyError
  | (k', v) :: d' => if eqb k k' then Ok v else get d' k
  end.

(** [d[k] = v]: a key already present keeps its place. *)
Fixpoint set (d : list (K * V)) (k : K) (v : V) : list (K * V) :=
  match d with
  | [] => [(k, v)]
  | (k', v') :: d' => if eqb k k' then (k', v) :: d' else (k', v') :: set d' k v
  end.

(** [dict(pairs)] *)
Definition of_pairs (pairs : list (K * V)) : list (K * V) :=
  fold_left (fun d kv => set d (fst kv) (snd kv)) pairs [].

(** [toolz.groupby(key, seq)]: [d[key(item)].append(item)] for each
    item in turn. *)
Fixpoint append (d : list (K * list V)) (k : K) (v : V) : list (K * list V) :=
  match d with
  | [] => [(k, [v])]
  | (k', vs) :: d' =>
      if eqb k k' then (k', vs ++ [v]) :: d' else (k', vs) :: append d' k v
  end.

Definition groupby (key : V -> K) (l : list V) : list (K * list V) :=
  fold_left (fun d item => append d (key item) item) l [].
End Generic.

End Dict.

(** ** Color assignment *)

(** [bokeh.palettes.brewer]: palette name, then swatch count, to the
    list of colors.  The table belongs to bokeh; the functions below
    take it as an argument. *)
Definition palette_table : Type := list (nat * list string).
Definition catalog : Type := list (string * palette_table).

(** [get_colors(palette, funcs)] *)
Definition get_colors (brewer : catalog) (palette : string) (funcs : list string)
  : outcome (list string) :=
  let unique_funcs := Seq.sorted String.ltb (Seq.unique String.eqb funcs) in
  let n_funcs := List.length unique_funcs in
  palette_lookup <- Dict.get String.eqb brewer palette ;;
  let keys := map fst palette_lookup in
  low <- Seq.min Nat.ltb keys ;;
  high <- Seq.max Nat.ltb keys ;;
  colors <- (if (high <? n_funcs)%nat then
               c <- Dict.get Nat.eqb palette_lookup high ;; Ok (Seq.Cycle c)
             else if (n_funcs <? low)%nat then
               c <- Dict.get Nat.eqb palette_lookup low ;; Ok (Seq.Finite c)
             else
               c <- Dict.get Nat.eqb palette_lookup n_funcs ;; Ok (Seq.Finite c)) ;;
  let color_lookup := Dict.of_pairs String.eqb (Seq.zip unique_funcs colors) in
  mapM (fun n => Dict.get String.eqb color_lookup n) funcs.


(** ** The plotting backend *)

(** Calls into bokeh, in the order the program makes them. *)
Inductive backend_call : Type :=
| bp_output_file (file_path : string)
| bp_figure
| bp_ColumnDataSource
| p_rect
| p_select
| p_line (legend : string)
| bp_Range1d
| bp_LinearAxis
| p_add_layout
| bp_gridplot
| bp_show
| bp_save.

(** A computation that calls the backend and may raise: the calls made
    so far, and how it ended. *)
Definition run (A : Type) : Type := (list backend_call * outcome A)%type.

Definition ret {A : Type} (a : A) : run A := ([], Ok a).

Definition lift {A : Type} (m : outcome A) : run A := ([], m).

Definition call {A : Type} (c : backend_call) (a : A) : run A := ([c], Ok a).

Definition rbind {A B : Type} (m : run A) (f : A -> run B) : run B :=
  match m with
  | (calls, Ok a) => let (calls', r) := f a in (calls ++ calls', r)
  | (calls, Raise e) => (calls, Raise e)
  end.

Notation "x <~ m ;; k" := (rbind m (fun x => k))
  (at level 61, m at next level, right associativity) : outcome_scope.

Fixpoint rmapM {A B : Type} (f : A -> run B) (l : list A) : run (list B) :=
  match l with
  | [] => ret []
  | a :: l' => b <~ f a ;; bs <~ rmapM f l' ;; ret (b :: bs)
  end.

Definition calls_of {A : Type} (m : run A) : list backend_call := fst m.
Definition result_of {A : Type} (m : run A) : outcome A := snd m.

(** A figure's vertical range: categories, or an interval. *)
Inductive axis_range : Type :=
| Categories (labels : list string)
| Interval (lo hi : Q).

(** The columns of the [ColumnDataSource] of [plot_tasks]. *)
Record ColumnData : Type := {
  data_width : list Q;
  data_x : list Q;
  data_y : list nat;
  data_function : list string;
  data_color : list string;
  data_key : list string
}.

Record Line : Type := {
  line_x : list Q;
  line_y : list Q;
  line_color : string;
  line_width : Z;
  line_legend : string;
  line_y_range_name : option string
}.

Inductive glyph : Type :=
| Rects (source : ColumnData) (height : Z) (outline : string)
| Lines (l : Line).

(** A bokeh figure, as far as this module sets it up.  [None] in a
    margin is bokeh's own default, [None] in a label or title is
    Python's [None]. *)
Record Figure : Type := {
  title : option string;
  tools : string;
  plot_width : Z;
  plot_height : Z;
  x_range : Q * Q;
  y_range : axis_range;
  extra_y_ranges : list (string * (Q * Q));
  glyphs : list glyph;
  xaxis_label : option string;
  yaxis_label : option string;
  right_axis_label : option (string * string);
  hover_tooltips : list (string * string);
  min_border_top : option Z;
  min_border_bottom : option Z;
  min_border_left : option Z;
  min_border_right : option Z
}.

(** What the caller gets back: a figure, or a grid of figures. *)
Inductive plot_object : Type :=
| Single (p : Figure)
| Grid (rows : list (list Figure)).

(** The keyword arguments that override a default of the figure. *)
Record kwargs : Type := {
  kw_title : option string;
  kw_tools : option string;
  kw_plot_width : option Z;
  kw_plot_height : option Z
}.

Definition no_kwargs : kwargs :=
  {| kw_title := None; kw_tools := None; kw_plot_width := None; kw_plot_height := None |}.

Definition override {A : Type} (default : A) (given : option A) : A :=
  match given with
  | Some a => a
  | None => default
  end.

(** [bp.figure(y_range=..., x_range=..., **defaults)] *)
Definition figure (yr : axis_range) (xr : Q * Q) (default_tools : string) (kw : kwargs)
  : Figure :=
  {| title := Some (override "Profile Results"%string (kw_title kw));
     tools := override default_tools (kw_tools kw);
     plot_width := override 800%Z (kw_plot_width kw);
     plot_height := override 300%Z (kw_plot_height kw);
     x_range := xr;
     y_range := yr;
     extra_y_ranges := [];
     glyphs := [];
     xaxis_label := None;
     yaxis_label := None;
     right_axis_label := None;
     hover_tooltips := [];
     min_border_top := None;
     min_border_bottom := None;
     min_border_left := None;
     min_border_right := None |}.

(** ** Numbers *)

(** [a < b] on floats *)
Definition Qltb (a b : Q) : bool :=
  match a ?= b with
  | Lt => true
  | _ => false
  end.

(** [a < b] on lists of floats: the first pair of unequal items
    decides, otherwise the shorter list is the smaller. *)
Fixpoint list_ltb (a b : list Q) : bool :=
  match a, b with
  | [], [] => false
  | [], _ :: _ => true
  | _ :: _, [] => false
  | u :: a', v :: b' => if Qeq_bool u v then list_ltb a' b' else Qltb u v
  end.

(** ** The task timeline *)

(** One entry of [Profiler.results]: the tuple
    [(key, task, start_time, end_time, worker_id)]. *)
Record TaskData : Type := {
  key : string;
  task_of : task;
  start_time : Q;
  end_time : Q;
  worker_id : Z
}.

(** [keys, tasks, starts, ends, ids = zip( *results )]: the columns of
    the results; with no results there is nothing to unpack. *)
Definition unzip5 (results : list TaskData)
  : outcome (list string * list task * list Q * list Q * list Z) :=
  match results with
  | [] => Raise ValueError
  | _ :: _ =>
      Ok (map key results, map task_of results, map start_time results,
          map end_time results, map worker_id results)
  end.

(** The order in which [d.items()] hands out the items of a dict, given
    the dict in its order of insertion.  From Python 3.7 on (and in
    CPython 3.6) this is the order of insertion; Python 2.6 and 2.7 and
    the first releases of Python 3, which the code supports as well,
    follow the hashes of the keys.  Whatever the order, each item is
    handed out once. *)
Definition dict_order : Type := forall V : Type, list (Z * V) -> list (Z * V).

Definition insertion_order : dict_order := fun _ d => d.

Arguments insertion_order V d : clear implicits.

(** An order other than that of insertion: by ascending key, as a
    CPython 2 dict of a few small integers has it (a small integer is
    its own hash). *)
Definition by_key : dict_order :=
  fun V d => Seq.sorted (fun a b : Z * V => (fst a <? fst b)%Z) d.

Arguments by_key V d : clear implicits.

(** The dict [timings]: for each worker the durations of its tasks. *)
Definition timings_in (items : dict_order) (results : list TaskData) : list (Z * list Q) :=
  let id_group := Dict.groupby Z.eqb worker_id results in
  Dict.of_pairs Z.eqb
    (map (fun kv => (fst kv, map (fun i => end_time i - start_time i) (snd kv)))
         (items _ id_group)).

(** The dict [id_lk]: each worker's place once the items of [timings]
    are sorted on the durations, largest first. *)
Definition id_lk_in (items : dict_order) (results : list TaskData) : list (Z * nat) :=
  Dict.of_pairs Z.eqb
    (map (fun nt => (fst (snd nt), fst nt))
         (Seq.enumerate
            (Seq.sorted_reverse (fun a b => list_ltb (snd a) (snd b))
                                (items _ (timings_in items results))))).

(** Both dicts on an interpreter whose dicts keep the order of insertion. *)
Definition timings_of (results : list TaskData) : list (Z * list Q) :=
  timings_in insertion_order results.

Definition id_lk_of (results : list TaskData) : list (Z * nat) :=
  id_lk_in insertion_order results.

Definition task_tooltips : list (string * string) :=
  [("Key:", "@key"); ("Task:", "@function")]%string.

(** [plot_tasks(results, dsk, palette, label_size, **kwargs)].  The times
    are Python floats and the model computes on exact rationals: what is
    stated of the columns is what rounding keeps, an equation between
    the expressions of the code or an order that each operation keeps.
    [id_lk] is only looked up; the order of dicts reaches the chart
    through the ranks of workers with equal durations alone, taken here
    as dicts in order of insertion give them. *)
Definition plot_tasks (brewer : catalog) (results : list TaskData)
  (dsk : list (leaf * task)) (palette : string) (label_size : Z) (kw : kwargs)
  : run Figure :=
  cols <~ lift (unzip5 results) ;;
  let '(keys, tasks, starts, ends, ids) := cols in
  let id_lk := id_lk_of results in
  left <~ lift (Seq.min Qltb starts) ;;
  right <~ lift (Seq.max Qltb ends) ;;
  p <~ call bp_figure
         (figure (Categories (map str_of_nat (seq 0 (List.length id_lk))))
                 (0, right - left)
                 "hover,save,reset,resize,xwheel_zoom,xpan" kw) ;;
  let width := map (fun se => snd se - fst se) (combine starts ends) in
  let x := map (fun ws => fst ws / 2 + snd ws - left) (combine width starts) in
  y <~ lift (mapM (fun i => n <- Dict.get Z.eqb id_lk i ;; Ok (n + 1)%nat) ids) ;;
  funcs <~ lift (mapM (fun i => pprint_task i (map fst dsk) label_size) tasks) ;;
  color <~ lift (get_colors brewer palette funcs) ;;
  source <~ call bp_ColumnDataSource
              {| data_width := width; data_x := x; data_y := y;
                 data_function := funcs; data_color := color;
                 data_key := keys |} ;;
  _ <~ call p_rect tt ;;
  _ <~ call p_select tt ;;
  ret {| title := title p;
         tools := tools p;
         plot_width := plot_width p;
         plot_height := plot_height p;
         x_range := x_range p;
         y_range := y_range p;
         extra_y_ranges := extra_y_ranges p;
         glyphs := [Rects source 1 "gray"];
         xaxis_label := Some "Time (s)"%string;
         yaxis_label := Some "Worker ID"%string;
         right_axis_label := right_axis_label p;
         hover_tooltips := task_tooltips;
         min_border_top := min_border_top p;
         min_border_bottom := min_border_bottom p;
         min_border_left := min_border_left p;
         min_border_right := min_border_right p |}.

(** ** The resource chart *)

(** [t, mem, cpu = zip( *results )]: the three columns, by position. *)
Definition unzip3 (results : list (Q * Q * Q)) : outcome (list Q * list Q * list Q) :=
  match results with
  | [] => Raise ValueError
  | _ :: _ =>
      Ok (map (fun r => fst (fst r)) results,
          map (fun r => snd (fst r)) results,
          map (fun r => snd r) results)
  end.

(** [l[i]] *)
Definition index {A : Type} (l : list A) (i : nat) : outcome A :=
  match nth_error l i with
  | Some a => Ok a
  | None => Raise IndexError
  end.

(** [plot_resources(results, palette, **kwargs)] *)
Definition plot_resources (brewer : catalog) (results : list (Q * Q * Q))
  (palette : string) (kw : kwargs) : run Figure :=
  cols <~ lift (unzip3 results) ;;
  let '(t, mem, cpu) := cols in
  left <~ lift (Seq.min Qltb t) ;;
  right <~ lift (Seq.max Qltb t) ;;
  let t := map (fun i => i - left) t in
  max_cpu <~ lift (Seq.max Qltb cpu) ;;
  p <~ call bp_figure
         (figure (Interval 0 max_cpu) (0, right - left)
                 "save,reset,resize,xwheel_zoom,xpan" kw) ;;
  colors <~ lift (table <- Dict.get String.eqb brewer palette ;;
                  Dict.get Nat.eqb table 6%nat) ;;
  c0 <~ lift (index colors 0) ;;
  cpu_line <~ call (p_line "% CPU")
                {| line_x := t; line_y := cpu; line_color := c0; line_width := 4;
                   line_legend := "% CPU"; line_y_range_name := None |} ;;
  max_mem <~ lift (Seq.max Qltb mem) ;;
  memory_range <~ call bp_Range1d (0, max_mem) ;;
  c2 <~ lift (index colors 2) ;;
  mem_line <~ call (p_line "Memory")
                {| line_x := t; line_y := mem; line_color := c2; line_width := 4;
                   line_legend := "Memory"; line_y_range_name := Some "memory"%string |} ;;
  _ <~ call bp_LinearAxis tt ;;
  _ <~ call p_add_layout tt ;;
  ret {| title := title p;
         tools := tools p;
         plot_width := plot_width p;
         plot_height := plot_height p;
         x_range := x_range p;
         y_range := y_range p;
         extra_y_ranges := [("memory"%string, memory_range)];
         glyphs := [Lines cpu_line; Lines mem_line];
         xaxis_label := Some "Time (s)"%string;
         yaxis_label := Some "% CPU"%string;
         right_axis_label := Some ("memory", "Memory (MB)")%string;
         hover_tooltips := hover_tooltips p;
         min_border_top := min_border_top p;
         min_border_bottom := min_border_bottom p;
         min_border_left := min_border_left p;
         min_border_right := min_border_right p |}.

(** ** Stacking the charts *)

Definition set_stacked_below (top f : Figure) : Figure :=
  {| title := None;
     tools := tools f;
     plot_width := plot_width f;
     plot_height := plot_height f;
     x_range := x_range top;
     y_range := y_range f;
     extra_y_ranges := extra_y_ranges f;
     glyphs := glyphs f;
     xaxis_label := xaxis_label f;
     yaxis_label := yaxis_label f;
     right_axis_label := right_axis_label f;
     hover_tooltips := hover_tooltips f;
     min_border_top := Some 20%Z;
     min_border_bottom := min_border_bottom f;
     min_border_left := min_border_left f;
     min_border_right := min_border_right f |}.

Definition set_stacked_above (f : Figure) : Figure :=
  {| title := title f;
     tools := tools f;
     plot_width := plot_width f;
     plot_height := plot_height f;
     x_range := x_range f;
     y_range := y_range f;
     extra_y_ranges := extra_y_ranges f;
     glyphs := glyphs f;
     xaxis_label := None;
     yaxis_label := yaxis_label f;
     right_axis_label := right_axis_label f;
     hover_tooltips := hover_tooltips f;
     min_border_top := min_border_top f;
     min_border_bottom := Some 20%Z;
     min_border_left := min_border_left f;
     min_border_right := min_border_right f |}.

Definition set_side_borders (f : Figure) : Figure :=
  {| title := title f;
     tools := tools f;
     plot_width := plot_width f;
     plot_height := plot_height f;
     x_range := x_range f;
     y_range := y_range f;
     extra_y_ranges := extra_y_ranges f;
     glyphs := glyphs f;
     xaxis_label := xaxis_label f;
     yaxis_label := yaxis_label f;
     right_axis_label := right_axis_label f;
     hover_tooltips := hover_tooltips f;
     min_border_top := min_border_top f;
     min_border_bottom := min_border_bottom f;
     min_border_left := Some 75%Z;
     min_border_right := Some 75%Z |}.

(** The three loops of [visualize] over [figs], [top] being [figs[0]]:
    over [figs[1:]], over [figs[:1]], and over all of [figs]. *)
Definition stack (top : Figure) (figs : list Figure) : list Figure :=
  let figs := firstn 1 figs ++ map (set_stacked_below top) (skipn 1 figs) in
  let figs := map set_stacked_above (firstn 1 figs) ++ skipn 1 figs in
  map set_side_borders figs.

(** Truth value of [file_path]. *)
Definition truthy (file_path : option string) : bool :=
  match file_path with
  | None => false
  | Some EmptyString => false
  | Some _ => true
  end.

(** [visualize(profilers, file_path, show, save, **kwargs)].  [plot] is
    the [_plot] method of the profilers, [notebook] the flag
    [_state._notebook], and [inl prof] a profiler given outside a list. *)
Definition visualize (P : Type) (plot : P -> kwargs -> run Figure) (notebook : bool)
  (profilers : P + list P) (file_path : option string) (show save : bool)
  (kw : kwargs) : run plot_object :=
  file_path <~ (if negb notebook
                then let file_path := if truthy file_path then file_path
                                      else Some "profile.html"%string in
                     _ <~ call (bp_output_file (override EmptyString file_path)) tt ;;
                     ret file_path
                else ret file_path) ;;
  let profilers := match profilers with
                   | inl prof => [prof]
                   | inr l => l
                   end in
  figs <~ rmapM (fun prof => plot prof kw) profilers ;;
  p <~ (if (List.length figs =? 1)%nat
        then f <~ lift (index figs 0) ;; ret (Single f)
        else top <~ lift (index figs 0) ;;
             call bp_gridplot (Grid (map (fun f => [f]) (stack top figs)))) ;;
  _ <~ (if show then call bp_show tt else ret tt) ;;
  _ <~ (if truthy file_path && save then call bp_save tt else ret tt) ;;
  ret p.

(** The local function of [pprint_task], by itself. *)
Definition pprint_each (keys : list leaf) : nat -> list task -> Z -> outcome (list string) :=
  fix each (n : nat) (ts : list task) (size : Z) {struct ts} : outcome (list string) :=
    match n, ts with
    | S n', t' :: ts' =>
        s <- pprint_task t' keys size ;;
        ss <- each n' ts' size ;;
        Ok (s :: ss)
    | _, _ => Ok []
    end.

(** ** Running the summarizer on fuel *)

(** [None] is "out of fuel"; an exception ends the computation. *)
Definition fbind {A B : Type} (m : option (outcome A)) (f : A -> option (outcome B))
  : option (outcome B) :=
  match m with
  | None => None
  | Some (Raise e) => Some (Raise e)
  | Some (Ok a) => f a
  end.

Fixpoint fmapM {A B : Type} (f : A -> option (outcome B)) (l : list A)
  : option (outcome (list B)) :=
  match l with
  | [] => Some (Ok [])
  | a :: l' => fbind (f a) (fun b => fbind (fmapM f l') (fun bs => Some (Ok (b :: bs))))
  end.

(** [pprint_task] again, statement for statement, with each call paid
    for by one unit of fuel instead of by the shape of the task. *)
Fixpoint pprint_task_fuel (fuel : nat) (t : task) (keys : list leaf) (label_size : Z)
  : option (outcome string) :=
  match fuel with
  | O => None
  | S fuel' =>
      match t with
      | Call func args =>
          let head := head_of func in
          let tail := tail_of func in
          fbind (Some (int_div (label_size - len head - len tail) (List.length args)))
            (fun label_size2 =>
               fbind (if (5 <? label_size2)%Z
                      then fbind (fmapM (fun t' => pprint_task_fuel fuel' t' keys label_size2)
                                        args)
                                 (fun ss => Some (Ok (String.concat ", " ss)))
                      else Some (Ok "..."))
                 (fun args_text => Some (Ok (head ++ "(" ++ args_text ++ tail))))
      | PyList items =>
          let task2 := firstn 3 items in
          fbind (Some (int_div (label_size - 2 - 2 * Z.of_nat (List.length task2))
                               (List.length task2)))
            (fun label_size2 =>
               fbind (fmapM (fun t' => pprint_task_fuel fuel' t' keys label_size2) task2)
                 (fun ss =>
                    let args_text := String.concat ", " ss in
                    if (3 <? List.length items)%nat
                    then Some (Ok ("[" ++ args_text ++ ", ...]"))
                    else Some (Ok ("[" ++ args_text ++ "]"))))
      | Leaf v =>
          match contains keys v with
          | Ok true => Some (Ok "_")
          | Ok false => Some (Ok "*")
          | Raise TypeError => Some (Ok "*")
          | Raise e => Some (Raise e)
          end
      end
  end%string.

(** The expressions [pprint_task] calls itself on. *)
Definition recursive_calls (t : task) : list task :=
  match t with
  | Call _ args => args
  | PyList items => firstn 3 items
  | Leaf _ => []
  end.

Fixpoint height (t : task) : nat :=
  match t with
  | Call _ args => S (fold_right (fun a m => Nat.max (height a) m) 0%nat args)
  | PyList items => S (fold_right (fun a m => Nat.max (height a) m) 0%nat items)
  | Leaf _ => 0%nat
  end.

(** ** Vocabulary of the statements *)

(** [a] stands somewhere in front of [b] in [l]. *)
Definition before {A : Type} (a b : A) (l : list A) : Prop :=
  exists l1 l2 l3, l = l1 ++ a :: l2 ++ b :: l3.

Definition is_min (m : Q) (l : list Q) : Prop :=
  In m l /\ forall v, In v l -> m <= v.

Definition is_max (m : Q) (l : list Q) : Prop :=
  In m l /\ forall v, In v l -> v <= m.

(** The items of [l] under each of the keys [ks]. *)
Definition groups_of {K V : Type} (eqb : K -> K -> bool) (key : V -> K)
  (l : list V) (ks : list K) : list (K * list V) :=
  map (fun k => (k, filter (fun v => eqb (key v) k) l)) ks.

(** The durations of the tasks a worker ran, in the order of the results. *)
Definition durations_of (results : list TaskData) (w : Z) : list Q :=
  map (fun r => end_time r - start_time r)
      (filter (fun r => Z.eqb (worker_id r) w) results).

(** The workers in order of first appearance. *)
Definition workers_of (results : list TaskData) : list Z :=
  Seq.unique Z.eqb (map worker_id results).

(** The workers in the order of their ranks, for dicts of any order. *)
Definition ranking_in (items : dict_order) (results : list TaskData) : list Z :=
  map fst (Seq.sorted_reverse (fun a b => list_ltb (snd a) (snd b))
                              (items _ (timings_in items results))).

(** The workers in the order of their ranks. *)
Definition ranking_of (results : list TaskData) : list Z :=
  map fst (Seq.sorted_reverse (fun a b => list_ltb (snd a) (snd b))
                              (timings_of results)).

(** The total time a worker was busy. *)
Definition total_busy (results : list TaskData) (w : Z) : Q :=
  fold_right Qplus 0 (durations_of results w).

(** Ranks that follow the total busy time, largest first. *)
Definition ranked_by_total_busy (results : list TaskData) : Prop :=
  forall a b ra rb,
    Dict.get Z.eqb (id_lk_of results) a = Ok ra ->
    Dict.get Z.eqb (id_lk_of results) b = Ok rb ->
    total_busy results b < total_busy results a ->
    (ra < rb)%nat.

(** Two lists of durations that compare equal. *)
Definition tied (a b : list Q) : Prop :=
  list_ltb a b = false /\ list_ltb b a = false.

(** A palette as the color assigner needs it: some swatch sets; the set
    of size [k] holds [k] different colors, [k] at least one; and the
    sizes leave no gap. *)
Definition palette_ok (table : palette_table) : Prop :=
  table <> [] /\
  (forall k cs, In (k, cs) table -> (1 <= k)%nat /\ List.length cs = k /\ NoDup cs) /\
  (forall low high n,
      Seq.min Nat.ltb (map fst table) = Ok low ->
      Seq.max Nat.ltb (map fst table) = Ok high ->
      (low <= n <= high)%nat -> In n (map fst table)).

(** The labels of a call to the color assigner, without repeats, sorted. *)
Definition sorted_labels (funcs : list string) : list string :=
  Seq.sorted String.ltb (Seq.unique String.eqb funcs).

(** The head function name of a task (of a call, that is). *)
Definition head_name (t : task) : option string :=
  match t with
  | Call func _ => Some (head_of func)
  | _ => None
  end.

Definition same_range (r r' : Q * Q) : Prop :=
  fst r == fst r' /\ snd r == snd r'.

Definition range_is (r : axis_range) (lo hi : Q) : Prop :=
  match r with
  | Interval a b => a == lo /\ b == hi
  | Categories _ => False
  end.

Definition same_axis (r r' : axis_range) : Prop :=
  match r, r' with
  | Interval a b, Interval a' b' => a == a' /\ b == b'
  | Categories l, Categories l' => l = l'
  | _, _ => False
  end.

(** The series a chart draws: the abscissas and ordinates of its lines. *)
Definition chart_series (p : Figure) : list (list Q * list Q) :=
  flat_map (fun g => match g with
                     | Lines l => [(line_x l, line_y l)]
                     | Rects _ _ _ => []
                     end) (glyphs p).

Definition same_series (s s' : list Q * list Q) : Prop :=
  Forall2 Qeq (fst s) (fst s') /\ Forall2 Qeq (snd s) (snd s').

(** The samples in the order of their timestamps. *)
Definition by_timestamp (results : list (Q * Q * Q)) : list (Q * Q * Q) :=
  Seq.sorted (fun a b => Qltb (fst (fst a)) (fst (fst b))) results.

(** ** Readings of the specification that the code does not follow *)

(** Colors that follow the head function name of the tasks. *)
Definition colored_by_head_name (brewer : catalog) (results : list TaskData)
  (dsk : list (leaf * task)) (palette : string) (label_size : Z) (kw : kwargs) : Prop :=
  forall p source i j ri rj h ci cj,
    result_of (plot_tasks brewer results dsk palette label_size kw) = Ok p ->
    glyphs p = [Rects source 1 "gray"] ->
    nth_error results i = Some ri -> nth_error results j = Some rj ->
    head_name (task_of ri) = Some h -> head_name (task_of rj) = Some h ->
    nth_error (data_color source) i = Some ci ->
    nth_error (data_color source) j = Some cj ->
    ci = cj.

(** Samples read as (timestamp, cpu_percent, memory_mb): the CPU axis
    up to [cpu_max], the memory axis up to [mem_max]. *)
Definition axes_cpu_then_memory (brewer : catalog) (results : list (Q * Q * Q))
  (palette : string) (kw : kwargs) (cpu_max mem_max : Q) : Prop :=
  exists p m,
    result_of (plot_resources brewer results palette kw) = Ok p /\
    range_is (y_range p) 0 cpu_max /\
    extra_y_ranges p = [("memory"%string, m)] /\
    same_range m (0, mem_max).

(** A chart that does not depend on the order of the samples. *)
Definition sample_order_irrelevant (brewer : catalog) (results : list (Q * Q * Q))
  (palette : string) (kw : kwargs) : Prop :=
  forall p p',
    result_of (plot_resources brewer results palette kw) = Ok p ->
    result_of (plot_resources brewer (by_timestamp results) palette kw) = Ok p' ->
    Forall2 same_series (chart_series p) (chart_series p').

(** A timeline for every single record. *)
Definition single_record_succeeds (brewer : catalog) (dsk : list (leaf * task))
  (palette : string) (label_size : Z) (kw : kwargs) : Prop :=
  forall r, exists p,
    result_of (plot_tasks brewer [r] dsk palette label_size kw) = Ok p.

(** ** Sample data *)

(** A catalog with one palette, in the sizes 3 to 9. *)
Definition GnBu : palette_table :=
  [(3, ["#43a2ca"; "#a8ddb5"; "#e0f3db"]);
   (4, ["#2b8cbe"; "#7bccc4"; "#bae4bc"; "#f0f9e8"]);
   (5, ["#0868ac"; "#43a2ca"; "#7bccc4"; "#bae4bc"; "#f0f9e8"]);
   (6, ["#0868ac"; "#43a2ca"; "#7bccc4"; "#a8ddb5"; "#ccebc5"; "#f0f9e8"]);
   (7, ["#08589e"; "#2b8cbe"; "#4eb3d3"; "#7bccc4"; "#a8ddb5"; "#ccebc5"; "#f0f9e8"]);
   (8, ["#08589e"; "#2b8cbe"; "#4eb3d3"; "#7bccc4"; "#a8ddb5"; "#ccebc5"; "#e0f3db";
        "#f7fcf0"]);
   (9, ["#084081"; "#0868ac"; "#2b8cbe"; "#4eb3d3"; "#7bccc4"; "#a8ddb5"; "#ccebc5";
        "#e0f3db"; "#f7fcf0"])]%string%nat.

Definition sample_brewer : catalog := [("GnBu"%string, GnBu)].

Definition add : pyfunc := {| display_name := "add" |}.
Definition mul : pyfunc := {| display_name := "mul" |}.
Definition sum : pyfunc := {| display_name := "sum" |}.
Definition inc : pyfunc := {| display_name := "inc" |}.

(** The graph of the docstring of [pprint_task]. *)
Definition sample_dsk : list (leaf * task) :=
  [(Str "a", Leaf (Int 1));
   (Str "b", Leaf (Int 2));
   (Str "c", Call (Fn add) [Leaf (Str "a"); Leaf (Str "b")]);
   (Str "d", Call (Fn add) [Call (Fn mul) [Leaf (Str "a"); Leaf (Str "b")]; Leaf (Str "c")]);
   (Str "e", Call (Fn sum) [PyList [Leaf (Str "a"); Leaf (Str "b"); Leaf (Int 5)]])]%string.

Definition sample_keys : list leaf := map fst sample_dsk.

Definition record (k : string) (t : task) (s e : Q) (w : Z) : TaskData :=
  {| key := k; task_of := t; start_time := s; end_time := e; worker_id := w |}.

(** Two records on two workers. *)
Definition two_records : list TaskData :=
  [record "c" (Call (Fn add) [Leaf (Str "a"); Leaf (Str "b")]) 0 10 1;
   record "d" (Call (Fn add) [Leaf (Int 7); Leaf (Str "b")]) 5 15 2]%string%Z.

(** Two records of equal duration; the worker seen first has the
    larger id. *)
Definition swapped_records : list TaskData :=
  [record "c" (Leaf (Int 1)) 0 10 2;
   record "d" (Leaf (Int 2)) 5 15 1]%string%Z.

(** Worker 1 runs three short tasks, worker 2 one longer task. *)
Definition busy_records : list TaskData :=
  [record "a" (Leaf (Int 1)) 0 1 1;
   record "b" (Leaf (Int 2)) 0 2 2;
   record "c" (Leaf (Int 3)) 1 2 1;
   record "d" (Leaf (Int 4)) 2 3 1]%string%Z.

(** The run of [plot_tasks] on [two_records]. *)
Definition two_records_run : run Figure :=
  plot_tasks sample_brewer two_records sample_dsk "GnBu" 60 no_kwargs.

(** A record whose task is a call without arguments. *)
Definition no_args_record : TaskData :=
  record "z" (Call (Fn inc) []) 0 1 1%Z.

Definition spec_samples : list (Q * Q * Q) :=
  [(0, 10, 100); (1, 20, 150); (2, 15, 120)].

Definition shuffled_samples : list (Q * Q * Q) :=
  [(0, 10, 100); (2, 15, 120); (1, 20, 150)].

(** Three resource profilers, stacked. *)
Definition three_charts : run plot_object :=
  visualize (fun results kw => plot_resources sample_brewer results "GnBu" kw)
            true (inr [spec_samples; spec_samples; spec_samples])
            None false false no_kwargs.

(** * dask.utils *)

Module Utils.

(** ** Nested sequences *)

(** Python values as [deepmap] and [concrete] tell them apart: a list, a
    tuple, an iterator (with the items it will yield), or anything else. *)
Inductive value (A : Type) : Type :=
| Atom (a : A)
| PList (items : list (value A))
| PTuple (items : list (value A))
| PIter (items : list (value A)).

Arguments Atom {A} a.
Arguments PList {A} items.
Arguments PTuple {A} items.
Arguments PIter {A} items.

(** [concrete(seq)] *)
Fixpoint concrete {A : Type} (seq : value A) : value A :=
  match seq with
  | PIter items => PList (map concrete items)
  | PTuple items => PList (map concrete items)
  | PList items => PList (map concrete items)
  | Atom a => Atom a
  end.

(** [iter(v)], as [zip] calls it on each of its arguments. *)
Definition iterate {A : Type} (v : value A) : outcome (list (value A)) :=
  match v with
  | Atom _ => Raise TypeError
  | PList items => Ok items
  | PTuple items => Ok items
  | PIter items => Ok items
  end.

(** One step of [zip] over the sequences after the first: the next item
    of each, unless one of them is exhausted. *)
Fixpoint next_all {A : Type} (rows : list (list (value A)))
  : option (list (value A) * list (list (value A))) :=
  match rows with
  | [] => Some ([], [])
  | [] :: _ => None
  | (x :: row) :: rows' =>
      match next_all rows' with
      | None => None
      | Some (heads, tails) => Some (x :: heads, row :: tails)
      end
  end.

(** [deepmap(func, first, *others)].  The local [each] runs the
    comprehension over [zip(first, *others)]. *)
Fixpoint deepmap_from {A : Type} (func : list (value A) -> value A)
  (first : value A) (others : list (value A)) {struct first} : outcome (value A) :=
  let each :=
    fix each (items : list (value A)) (rows : list (list (value A))) {struct items}
      : outcome (list (value A)) :=
      match items with
      | [] => Ok []
      | item :: items' =>
          match next_all rows with
          | None => Ok []
          | Some (heads, tails) =>
              r <- deepmap_from func item heads ;;
              rs <- each items' tails ;;
              Ok (r :: rs)
          end
      end in
  match first with
  | PList items =>
      rows <- mapM iterate others ;; rs <- each items rows ;; Ok (PList rs)
  | PIter items =>
      rows <- mapM iterate others ;; rs <- each items rows ;; Ok (PList rs)
  | _ => Ok (func (first :: others))
  end.

(** [deepmap(func, *seqs)]: [seqs[0]] has to be there. *)
Definition deepmap {A : Type} (func : list (value A) -> value A)
  (seqs : list (value A)) : outcome (value A) :=
  match seqs with
  | [] => Raise IndexError
  | first :: others => deepmap_from func first others
  end.

(** The local function of [deepmap_from], by itself. *)
Definition deepmap_each {A : Type} (func : list (value A) -> value A)
  : list (value A) -> list (list (value A)) -> outcome (list (value A)) :=
  fix each (items : list (value A)) (rows : list (list (value A))) {struct items}
    : outcome (list (value A)) :=
    match items with
    | [] => Ok []
    | item :: items' =>
        match next_all rows with
        | None => Ok []
        | Some (heads, tails) =>
            r <- deepmap_from func item heads ;;
            rs <- each items' tails ;;
            Ok (r :: rs)
        end
    end.

(** ** Long lists *)

(** [repr(seq)] of a list, given the [repr] of its items. *)
Definition repr_list {A : Type} (repr : A -> string) (seq : list A) : string :=
  ("[" ++ String.concat ", " (map repr seq) ++ "]")%string.

(** [s[:-1]] *)
Fixpoint drop_last (s : string) : string :=
  match s with
  | EmptyString => EmptyString
  | String c EmptyString => EmptyString
  | String c s' => String c (drop_last s')
  end.

(** [s[1:]] *)
Definition drop_first (s : string) : string :=
  match s with
  | EmptyString => EmptyString
  | String _ s' => s'
  end.

(** [repr_long_list(seq)] *)
Definition repr_long_list {A : Type} (repr : A -> string) (seq : list A) : string :=
  if (List.length seq <? 8)%nat
  then repr_list repr seq
  else (drop_last (repr_list repr (firstn 3 seq)) ++ ", ..., "
        ++ drop_first (repr_list repr (skipn (List.length seq - 2) seq)))%string.

(** ** Single dispatch *)

Section Dispatch.
Variables T V R : Type.
Variable eqb : T -> T -> bool.

(** [inspect.getmro] and [type] *)
Variable getmro : T -> list T.
Variable type_of : V -> T.

(** The first argument of [register]: a type, or a tuple of such
    arguments. *)
Inductive type_arg : Type :=
| Class (t : T)
| Classes (ts : list type_arg).

(** [Dispatch.register(type, func)], on the dict [_lookup]. *)
Fixpoint register (lookup : list (T * (V -> R))) (type : type_arg) (func : V -> R)
  {struct type} : list (T * (V -> R)) :=
  match type with
  | Classes ts =>
      (fix each (ts : list type_arg) (lookup : list (T * (V -> R))) {struct ts} :=
         match ts with
         | [] => lookup
         | t :: ts' => each ts' (register lookup t func)
         end) ts lookup
  | Class t => Dict.set eqb lookup t func
  end.

(** [cls in lk] *)
Definition has_key (lookup : list (T * (V -> R))) (cls : T) : bool :=
  existsb (fun kv => eqb cls (fst kv)) lookup.

(** [Dispatch.__call__(arg)] *)
Definition call (lookup : list (T * (V -> R))) (arg : V) : outcome R :=
  let typ := type_of arg in
  if has_key lookup typ then
    func <- Dict.get eqb lookup typ ;; Ok (func arg)
  else
    (fix scan (mro : list T) : outcome R :=
       match mro with
       | [] => Raise TypeError
       | cls :: mro' =>
           if has_key lookup cls then
             func <- Dict.get eqb lookup cls ;; Ok (func arg)
           else scan mro'
       end) (tl (getmro typ)).
End Dispatch.

(** ** Blocks of text *)

(** An open binary file: its bytes and the position of the next read. *)
Record file : Type := {
  content : list Byte.byte;
  position : nat
}.

(** A file operation ends with a value and the file moved on, or with
    [OSError] (a seek to a negative offset). *)
Inductive result (A : Type) : Type :=
| Done (a : A) (f : file)
| OSError.

Arguments Done {A} a f.
Arguments OSError {A}.

Definition io (A : Type) : Type := file -> result A.

Definition io_ret {A : Type} (a : A) : io A := fun f => Done a f.

Definition io_bind {A B : Type} (m : io A) (k : A -> io B) : io B :=
  fun f => match m f with
           | Done a f' => k a f'
           | OSError => OSError
           end.

(** [file.seek(offset)] *)
Definition seek (offset : Z) : io unit :=
  fun f => if (offset <? 0)%Z then OSError
           else Done tt {| content := content f; position := Z.to_nat offset |}.

(** The length of the first line of [l], its newline included. *)
Fixpoint line_length (l : list Byte.byte) : nat :=
  match l with
  | [] => 0%nat
  | b :: l' => if Byte.eqb b Byte.x0a then 1%nat else S (line_length l')
  end.

(** [file.readline()] *)
Definition readline : io (list Byte.byte) :=
  fun f => let rest := skipn (position f) (content f) in
           let line := firstn (line_length rest) rest in
           Done line {| content := content f;
                        position := (position f + List.length line)%nat |}.

(** [file.tell()] *)
Definition tell : io Z := fun f => Done (Z.of_nat (position f)) f.

(** [file.read(size)]: all the rest without a size, or with a negative one. *)
Definition read (size : option Z) : io (list Byte.byte) :=
  fun f => let rest := skipn (position f) (content f) in
           let data := match size with
                       | None => rest
                       | Some n => if (n <? 0)%Z then rest else firstn (Z.to_nat n) rest
                       end in
           Done data {| content := content f;
                        position := (position f + List.length data)%nat |}.

Declare Scope io_scope.
Delimit Scope io_scope with io.
Notation "x <- m ;; k" := (io_bind m (fun x => k))
  (at level 61, m at next level, right associativity) : io_scope.

(** [textblock(file, start, stop)] on an open file.  (Given a file name,
    the function opens the file and calls itself on the file object.) *)
Definition textblock (start : Z) (stop : option Z) : io (list Byte.byte) :=
  (start <- (if (start =? 0)%Z then io_ret start
             else _ <- seek (start - 1) ;;
                  line <- readline ;;
                  tell) ;;
   match stop with
   | None => _ <- seek start ;; read None
   | Some stop =>
       let stop := (stop - 1)%Z in
       _ <- seek stop ;;
       line <- readline ;;
       stop <- tell ;;
       _ <- seek start ;;
       read (Some (stop - start)%Z)
   end)%io.

(** The block read from a file of the given bytes, [None] for [OSError]. *)
Definition block_of (bytes : list Byte.byte) (start : Z) (stop : option Z)
  : option (list Byte.byte) :=
  match textblock start stop {| content := bytes; position := 0 |} with
  | Done data _ => Some data
  | OSError => None
  end.

End Utils.

(** ** More vocabulary *)


(** The file [visualize] writes to once it has looked at [_state._notebook]:
    outside a notebook a missing name becomes "profile.html". *)
Definition output_path (notebook : bool) (file_path : option string) : option string :=
  if notebook then file_path
  else if truthy file_path then file_path else Some "profile.html"%string.

(** The call that opens the output file, outside a notebook. *)
Definition opening_calls (notebook : bool) (file_path : option string)
  : list backend_call :=
  if notebook then []
  else [bp_output_file (override EmptyString (output_path notebook file_path))].

(** A value whose containers, at every depth, are lists. *)
Fixpoint only_lists {A : Type} (v : Utils.value A) : bool :=
  match v with
  | Utils.Atom _ => true
  | Utils.PList items => forallb only_lists items
  | Utils.PTuple _ => false
  | Utils.PIter _ => false
  end.

(** The atoms of a value, from left to right. *)
Fixpoint atoms_of {A : Type} (v : Utils.value A) : list A :=
  match v with
  | Utils.Atom a => [a]
  | Utils.PList items => flat_map atoms_of items
  | Utils.PTuple items => flat_map atoms_of items
  | Utils.PIter items => flat_map atoms_of items
  end.

(** The values [deepmap] goes into: lists and iterators. *)
Definition is_sequence {A : Type} (v : Utils.value A) : bool :=
  match v with
  | Utils.PList _ => true
  | Utils.PIter _ => true
  | _ => false
  end.

(** [f] applied to what is not a list or an iterator, inside lists and
    iterators at any depth, which all come out as lists. *)
Fixpoint map_inside {A : Type} (f : Utils.value A -> Utils.value A) (v : Utils.value A)
  : Utils.value A :=
  match v with
  | Utils.PList items => Utils.PList (map (map_inside f) items)
  | Utils.PIter items => Utils.PList (map (map_inside f) items)
  | _ => f v
  end.

(** The types named by the first argument of [register]. *)
Fixpoint classes_of {T : Type} (type : Utils.type_arg T) : list T :=
  match type with
  | Utils.Class t => [t]
  | Utils.Classes ts => flat_map classes_of ts
  end.

(** A few types and their method resolution orders. *)
Definition sample_mro (t : string) : list string :=
  (if String.eqb t "bool" then ["bool"; "int"; "object"]
   else if String.eqb t "int" then ["int"; "object"]
   else if String.eqb t "object" then ["object"]
   else [t; "object"])%string.

(** A value tagged with the name of its type. *)
Definition sample_type_of (v : string * Z) : string := fst v.

(** Where the line that holds the byte at offset [p] ends: just after its
    newline, or at the end of the bytes; [p] itself beyond the end. *)
Definition line_end (bytes : list Byte.byte) (p : nat) : nat :=
  (p + Utils.line_length (skipn p bytes))%nat.

(** The bytes of the file of the docstring of [textblock]: the lines
    "123", "456", "789", each with its newline, and "abc" without one. *)
Definition sample_bytes : list Byte.byte :=
  [Byte.x31; Byte.x32; Byte.x33; Byte.x0a;
   Byte.x34; Byte.x35; Byte.x36; Byte.x0a;
   Byte.x37; Byte.x38; Byte.x39; Byte.x0a;
   Byte.x61; Byte.x62; Byte.x63].

(** Where a block that is asked to start at [start] starts. *)
Definition block_start (bytes : list Byte.byte) (start : Z) : nat :=
  if (start =? 0)%Z then 0%nat else line_end bytes (Z.to_nat (start - 1)).

(** * Properties *)

(** ** The summarizer *)

Lemma pprint_each_firstn keys size : forall ts n,
  pprint_each keys n ts size = mapM (fun t => pprint_task t keys size) (firstn n ts).
Proof.
  induction ts as [|t ts IH]; intros [|n]; try reflexivity.
  cbn [firstn mapM]. rewrite <- IH. reflexivity.
Qed.

Lemma pprint_task_call func args keys label_size :
  pprint_task (Call func args) keys label_size =
  (label_size2 <- int_div (label_size - len (head_of func) - len (tail_of func))
                          (List.length args) ;;
   args_text <- (if (5 <? label_size2)%Z
                 then ss <- mapM (fun t => pprint_task t keys label_size2) args ;;
                      Ok (String.concat ", " ss)
                 else Ok "..."%string) ;;
   Ok (head_of func ++ "(" ++ args_text ++ tail_of func)%string).
Proof.
  change (pprint_task (Call func args) keys label_size) with
    (label_size2 <- int_div (label_size - len (head_of func) - len (tail_of func))
                            (List.length args) ;;
     args_text <- (if (5 <? label_size2)%Z
                   then ss <- pprint_each keys (List.length args) args label_size2 ;;
                        Ok (String.concat ", " ss)
                   else Ok "..."%string) ;;
     Ok (head_of func ++ "(" ++ args_text ++ tail_of func)%string).
  destruct (int_div _ _) as [z|e]; [|reflexivity].
  cbn [bind]. rewrite pprint_each_firstn, firstn_all. reflexivity.
Qed.

Lemma pprint_task_list items keys label_size :
  pprint_task (PyList items) keys label_size =
  (let task2 := firstn 3 items in
   label_size2 <- int_div (label_size - 2 - 2 * Z.of_nat (List.length task2))
                          (List.length task2) ;;
   ss <- mapM (fun t => pprint_task t keys label_size2) task2 ;;
   if (3 <? List.length items)%nat
   then Ok ("[" ++ String.concat ", " ss ++ ", ...]")%string
   else Ok ("[" ++ String.concat ", " ss ++ "]")%string).
Proof.
  cbv zeta.
  change (pprint_task (PyList items) keys label_size) with
    (label_size2 <- int_div (label_size - 2 - 2 * Z.of_nat (List.length (firstn 3 items)))
                            (List.length (firstn 3 items)) ;;
     ss <- pprint_each keys 3 items label_size2 ;;
     if (3 <? List.length items)%nat
     then Ok ("[" ++ String.concat ", " ss ++ ", ...]")%string
     else Ok ("[" ++ String.concat ", " ss ++ "]")%string).
  destruct (int_div _ _) as [z|e]; [|reflexivity].
  cbn [bind]. rewrite pprint_each_firstn. reflexivity.
Qed.


Lemma fmapM_enough (f : task -> option (outcome string)) (g : task -> outcome string) :
  forall ts, Forall (fun t => f t = Some (g t)) ts -> fmapM f ts = Some (mapM g ts).
Proof.
  induction 1 as [|t ts Ht _ IH]; [reflexivity|].
  cbn [fmapM mapM]. rewrite Ht, IH.
  destruct (g t) as [s|e]; [|reflexivity].
  cbn [fbind bind]. destruct (mapM g ts); reflexivity.
Qed.

Lemma height_arg t ts :
  In t ts -> (height t <= fold_right (fun a m => Nat.max (height a) m) 0 ts)%nat.
Proof.
  induction ts as [|a ts IH]; cbn [In fold_right]; [tauto|].
  intros [->|H]; [|specialize (IH H)]; lia.
Qed.

Lemma In_firstn (A : Type) (a : A) n l : In a (firstn n l) -> In a l.
Proof.
  intros H. rewrite <- (firstn_skipn n l). apply in_or_app. now left.
Qed.

Lemma recursive_calls_smaller t t' :
  In t' (recursive_calls t) -> (height t' < height t)%nat.
Proof.
  destruct t as [func args|items|v]; cbn [recursive_calls height]; intros H.
  - apply height_arg in H. lia.
  - apply In_firstn in H. apply height_arg in H. lia.
  - destruct H.
Qed.

Lemma pprint_task_fuel_enough keys : forall fuel t label_size,
  (height t < fuel)%nat ->
  pprint_task_fuel fuel t keys label_size = Some (pprint_task t keys label_size).
Proof.
  induction fuel as [|fuel IH]; intros t label_size Hh; [lia|].
  assert (Hsub : forall ts size,
             (forall t', In t' ts -> In t' (recursive_calls t)) ->
             fmapM (fun t' => pprint_task_fuel fuel t' keys size) ts
             = Some (mapM (fun t' => pprint_task t' keys size) ts)).
  { intros ts size Hin. apply fmapM_enough, Forall_forall. intros t' Ht'.
    apply IH. apply Hin, recursive_calls_smaller in Ht'. lia. }
  destruct t as [func args|items|v].
  - rewrite pprint_task_call. cbn [pprint_task_fuel].
    destruct (int_div _ _) as [z|e]; [|reflexivity]. cbn [fbind bind].
    destruct (5 <? z)%Z; [|reflexivity].
    rewrite Hsub by (cbn [recursive_calls]; auto).
    destruct (mapM _ args); reflexivity.
  - rewrite pprint_task_list. cbn [pprint_task_fuel]. cbv zeta.
    destruct (int_div _ _) as [z|e]; [|reflexivity]. cbn [fbind bind].
    rewrite Hsub by (cbn [recursive_calls]; auto).
    destruct (mapM _ (firstn 3 items)); cbn [fbind bind]; [|reflexivity].
    destruct (3 <? List.length items)%nat; reflexivity.
  - cbn. destruct (contains keys v) as [[|]|[]]; reflexivity.
Qed.

(** ** Numbers *)

Lemma Qltb_lt a b : Qltb a b = true <-> a < b.
Proof.
  unfold Qltb. rewrite Qlt_alt. destruct (a ?= b); intuition congruence.
Qed.

Lemma Qltb_ge a b : Qltb a b = false <-> b <= a.
Proof.
  unfold Qltb. rewrite Qle_alt, <- (Qcompare_antisym a b).
  destruct (a ?= b); cbn; intuition congruence.
Qed.

Lemma min_fold_spec : forall l best,
  let m := fold_left (fun best item => if Qltb item best then item else best) l best in
  (m = best \/ In m l) /\ m <= best /\ forall v, In v l -> m <= v.
Proof.
  induction l as [|y l IH]; intros best; cbn [fold_left In].
  - repeat split; auto using Qle_refl. intros v [].
  - destruct (IH (if Qltb y best then y else best)) as (Hin & Hle & Hall).
    destruct (Qltb y best) eqn:E.
    + apply Qltb_lt in E. repeat split.
      * destruct Hin; auto.
      * eapply Qle_trans; [exact Hle|]. now apply Qlt_le_weak.
      * intros v [<-|Hv]; auto.
    + apply Qltb_ge in E. repeat split.
      * destruct Hin; auto.
      * exact Hle.
      * intros v [<-|Hv]; auto. eapply Qle_trans; eauto.
Qed.

Lemma max_fold_spec : forall l best,
  let m := fold_left (fun best item => if Qltb best item then item else best) l best in
  (m = best \/ In m l) /\ best <= m /\ forall v, In v l -> v <= m.
Proof.
  induction l as [|y l IH]; intros best; cbn [fold_left In].
  - repeat split; auto using Qle_refl. intros v [].
  - destruct (IH (if Qltb best y then y else best)) as (Hin & Hle & Hall).
    destruct (Qltb best y) eqn:E.
    + apply Qltb_lt in E. repeat split.
      * destruct Hin; auto.
      * eapply Qle_trans; [|exact Hle]. now apply Qlt_le_weak.
      * intros v [<-|Hv]; auto.
    + apply Qltb_ge in E. repeat split.
      * destruct Hin; auto.
      * exact Hle.
      * intros v [<-|Hv]; auto. eapply Qle_trans; eauto.
Qed.

Lemma min_spec x l : exists m, Seq.min Qltb (x :: l) = Ok m /\ is_min m (x :: l).
Proof.
  eexists. split; [reflexivity|].
  destruct (min_fold_spec l x) as (Hin & Hle & Hall).
  split; cbn [In].
  - destruct Hin as [->|Hin]; auto.
  - intros v [<-|Hv]; auto.
Qed.

Lemma max_spec x l : exists m, Seq.max Qltb (x :: l) = Ok m /\ is_max m (x :: l).
Proof.
  eexists. split; [reflexivity|].
  destruct (max_fold_spec l x) as (Hin & Hle & Hall).
  split; cbn [In].
  - destruct Hin as [->|Hin]; auto.
  - intros v [<-|Hv]; auto.
Qed.

Lemma min_inv l m : Seq.min Qltb l = Ok m -> is_min m l.
Proof.
  destruct l as [|x l]; [discriminate|].
  destruct (min_spec x l) as (m' & E & H). rewrite E. now intros [= <-].
Qed.

Lemma max_inv l m : Seq.max Qltb l = Ok m -> is_max m l.
Proof.
  destruct l as [|x l]; [discriminate|].
  destruct (max_spec x l) as (m' & E & H). rewrite E. now intros [= <-].
Qed.

Lemma is_min_unique m m' l l' :
  Permutation l l' -> is_min m l -> is_min m' l' -> m == m'.
Proof.
  intros P [Hin Hle] [Hin' Hle'].
  apply Qle_antisym.
  - apply Hle. eapply Permutation_in; [symmetry; exact P|exact Hin'].
  - apply Hle'. eapply Permutation_in; [exact P|exact Hin].
Qed.

Lemma is_max_unique m m' l l' :
  Permutation l l' -> is_max m l -> is_max m' l' -> m == m'.
Proof.
  intros P [Hin Hle] [Hin' Hle'].
  apply Qle_antisym.
  - apply Hle'. eapply Permutation_in; [exact P|exact Hin].
  - apply Hle. eapply Permutation_in; [symmetry; exact P|exact Hin'].
Qed.

(** The order of Python on lists of floats. *)

Lemma list_ltb_asym : forall a b, list_ltb a b = true -> list_ltb b a = false.
Proof.
  induction a as [|u a IH]; intros [|v b]; cbn [list_ltb]; try congruence.
  rewrite (Qeq_bool_comm v u).
  destruct (Qeq_bool u v) eqn:E; [apply IH|].
  rewrite Qltb_lt, Qltb_ge. apply Qlt_le_weak.
Qed.

Lemma list_ltb_ge_trans : forall a b c,
  list_ltb b a = false -> list_ltb c b = false -> list_ltb c a = false.
Proof.
  induction a as [|u a IH]; intros [|v b] [|w c]; cbn [list_ltb]; try congruence.
  destruct (Qeq_bool v u) eqn:Evu, (Qeq_bool w v) eqn:Ewv.
  - apply Qeq_bool_eq in Evu, Ewv.
    rewrite (Qeq_eq_bool w u) by (now rewrite Ewv). apply IH.
  - apply Qeq_bool_eq in Evu. intros _ H.
    rewrite <- (Qeqb_comp w w (Qeq_refl w) v u Evu), Ewv.
    rewrite Qltb_ge in *. now rewrite <- Evu.
  - apply Qeq_bool_eq in Ewv. intros H _.
    rewrite (Qeqb_comp w v Ewv u u (Qeq_refl u)), Evu.
    rewrite Qltb_ge in *. now rewrite Ewv.
  - rewrite !Qltb_ge. intros H1 H2.
    apply Qeq_bool_neq in Evu, Ewv.
    assert (u < w).
    { apply Qle_lt_trans with v; [exact H1|].
      apply Qle_lteq in H2. destruct H2 as [H2|H2]; [exact H2|]. now symmetry in H2. }
    destruct (Qeq_bool w u) eqn:Ewu.
    + apply Qeq_bool_eq in Ewu. rewrite Ewu in H. now apply Qlt_irrefl in H.
    + apply Qltb_ge. now apply Qlt_le_weak.
Qed.

(** ** Lists: one item in front of another *)

Section Before.
Variable A : Type.
Implicit Types (a b x : A) (l : list A).

Lemma before_head a b l : In b l -> before a b (a :: l).
Proof.
  intros H. apply in_split in H as (l2 & l3 & ->). now exists [], l2, l3.
Qed.

Lemma before_tail a b x l : before a b l -> before a b (x :: l).
Proof.
  intros (l1 & l2 & l3 & ->). now exists (x :: l1), l2, l3.
Qed.

Lemma before_cons_inv a b x l :
  before a b (x :: l) -> (a = x /\ In b l) \/ before a b l.
Proof.
  intros ([|y l1] & l2 & l3 & E); cbn in E; injection E as -> ->.
  - left. split; [reflexivity|]. apply in_or_app. right. now left.
  - right. now exists l1, l2, l3.
Qed.

Lemma before_In a b l : before a b l -> In a l /\ In b l.
Proof.
  intros (l1 & l2 & l3 & ->). split; apply in_or_app; right.
  - now left.
  - right. apply in_or_app. right. now left.
Qed.

Lemma before_sorted (R : A -> A -> Prop) a b l :
  StronglySorted R l -> before a b l -> R a b.
Proof.
  induction 1 as [|x l Hs IH Hx]; intros H.
  - destruct H as ([|] & ? & ? & ?); discriminate.
  - apply before_cons_inv in H as [[-> Hb]|H]; [|now apply IH].
    rewrite Forall_forall in Hx. now apply Hx.
Qed.

Lemma before_nth a b l :
  before a b l <->
  exists i j, (i < j)%nat /\ nth_error l i = Some a /\ nth_error l j = Some b.
Proof.
  split.
  - intros (l1 & l2 & l3 & ->).
    exists (List.length l1), (List.length l1 + S (List.length l2))%nat.
    split; [lia|]. split.
    + rewrite nth_error_app2, Nat.sub_diag by lia. reflexivity.
    + rewrite nth_error_app2 by lia.
      replace (_ + _ - _)%nat with (S (List.length l2)) by lia. cbn [nth_error].
      rewrite nth_error_app2, Nat.sub_diag by lia. reflexivity.
  - intros (i & j & Hij & Hi & Hj).
    apply nth_error_split in Hi as (l1 & l2 & -> & <-).
    rewrite nth_error_app2 in Hj by lia.
    destruct (j - List.length l1)%nat as [|k] eqn:E; [lia|]. cbn [nth_error] in Hj.
    apply nth_error_split in Hj as (l2' & l3 & -> & _).
    now exists l1, l2', l3.
Qed.

Lemma before_map (B : Type) (f : A -> B) a b l :
  before a b l -> before (f a) (f b) (map f l).
Proof.
  intros (l1 & l2 & l3 & ->). exists (map f l1), (map f l2), (map f l3).
  now rewrite map_app, (map_cons f a), map_app.
Qed.

Lemma NoDup_nth_eq l i j a :
  NoDup l -> nth_error l i = Some a -> nth_error l j = Some a -> i = j.
Proof.
  intros Hl Hi Hj. rewrite NoDup_nth_error in Hl. apply Hl.
  - apply nth_error_Some. congruence.
  - congruence.
Qed.
End Before.

(** ** Sorting *)

Section Sorting.
Variable A : Type.
Variable lt : A -> A -> bool.
Implicit Types (a b x : A) (l : list A).

Lemma insert_perm x l : Permutation (Seq.insert lt x l) (x :: l).
Proof.
  induction l as [|y l IH]; cbn [Seq.insert]; [reflexivity|].
  destruct (lt y x); [|reflexivity].
  rewrite IH. apply perm_swap.
Qed.

Lemma sorted_perm l : Permutation (Seq.sorted lt l) l.
Proof.
  induction l as [|x l IH]; cbn [Seq.sorted fold_right]; [reflexivity|].
  fold (Seq.sorted lt l). rewrite insert_perm. now constructor.
Qed.

Lemma insert_keeps_before a b x l :
  before a b l -> before a b (Seq.insert lt x l).
Proof.
  induction l as [|y l IH]; cbn [Seq.insert]; intros H.
  - destruct H as ([|] & ? & ? & ?); discriminate.
  - destruct (lt y x); [|now apply before_tail].
    apply before_cons_inv in H as [[-> Hb]|H].
    + apply before_head. eapply Permutation_in; [symmetry; apply insert_perm|].
      now right.
    + apply before_tail. now apply IH.
Qed.

Lemma insert_before x b l :
  In b l -> lt b x = false -> before x b (Seq.insert lt x l).
Proof.
  induction l as [|y l IH]; cbn [Seq.insert In]; intros H Hb; [destruct H|].
  destruct (lt y x) eqn:E.
  - destruct H as [->|H]; [congruence|]. apply before_tail. now apply IH.
  - now apply before_head.
Qed.

(** An item stays in front of a later one unless the later one is
    strictly below it: the sort is stable. *)
Lemma sorted_keeps_before a b l :
  before a b l -> lt b a = false -> before a b (Seq.sorted lt l).
Proof.
  induction l as [|x l IH]; intros H Hb.
  - destruct H as ([|] & ? & ? & ?); discriminate.
  - cbn [Seq.sorted fold_right]. fold (Seq.sorted lt l).
    apply before_cons_inv in H as [[-> Hin]|H].
    + apply insert_before; [|exact Hb].
      eapply Permutation_in; [symmetry; apply sorted_perm|exact Hin].
    + apply insert_keeps_before. now apply IH.
Qed.

Hypothesis lt_asym : forall a b, lt a b = true -> lt b a = false.
Hypothesis ge_trans : forall a b c, lt b a = false -> lt c b = false -> lt c a = false.

Lemma insert_sorted x l :
  StronglySorted (fun a b => lt b a = false) l ->
  StronglySorted (fun a b => lt b a = false) (Seq.insert lt x l).
Proof.
  induction 1 as [|y l Hs IH Hy]; cbn [Seq.insert].
  - repeat constructor.
  - destruct (lt y x) eqn:E.
    + constructor; [exact IH|].
      rewrite Forall_forall in *. intros z Hz.
      eapply Permutation_in in Hz; [|apply insert_perm].
      destruct Hz as [<-|Hz]; [now apply lt_asym|now apply Hy].
    + constructor; [now constructor|].
      constructor; [exact E|].
      rewrite Forall_forall in *. intros z Hz.
      apply ge_trans with y; [exact E|now apply Hy].
Qed.

Lemma sorted_sorted l :
  StronglySorted (fun a b => lt b a = false) (Seq.sorted lt l).
Proof.
  induction l as [|x l IH]; cbn [Seq.sorted fold_right]; [constructor|].
  now apply insert_sorted.
Qed.
End Sorting.

(** ** [unique], dicts and [groupby] *)

Section Keys.
Variable K : Type.
Variable eqb : K -> K -> bool.
Hypothesis eqb_eq : forall a b, eqb a b = true <-> a = b.
Implicit Types (k : K) (l seen : list K).

Lemma existsb_eqb_In k l : existsb (eqb k) l = true <-> In k l.
Proof.
  rewrite existsb_exists. split.
  - intros (y & Hy & E). apply eqb_eq in E. now subst.
  - intros H. exists k. split; [exact H|now apply eqb_eq].
Qed.

Lemma existsb_eqb_not_In k l : existsb (eqb k) l = false <-> ~ In k l.
Proof.
  rewrite <- existsb_eqb_In. destruct (existsb (eqb k) l); intuition congruence.
Qed.

Lemma eqb_refl k : eqb k k = true.
Proof. now apply eqb_eq. Qed.

Lemma eqb_neq a b : eqb a b = false <-> a <> b.
Proof.
  rewrite <- eqb_eq. destruct (eqb a b); intuition congruence.
Qed.

Lemma unique_from_In : forall l seen k,
  In k (Seq.unique_from eqb seen l) <-> In k l /\ ~ In k seen.
Proof.
  induction l as [|x l IH]; intros seen k; cbn [Seq.unique_from In]; [tauto|].
  destruct (existsb (eqb x) seen) eqn:E.
  - apply existsb_eqb_In in E. rewrite IH. intuition congruence.
  - apply existsb_eqb_not_In in E. cbn [In]. rewrite IH. cbn [In].
    split.
    + intros [<-|[H1 H2]]; auto.
    + intros [[<-|H1] H2]; auto.
      destruct (eqb x k) eqn:Exk.
      * apply eqb_eq in Exk. auto.
      * apply eqb_neq in Exk. right. split; [exact H1|]. intros [?|?]; auto.
Qed.

Lemma unique_from_NoDup : forall l seen, NoDup (Seq.unique_from eqb seen l).
Proof.
  induction l as [|x l IH]; intros seen; cbn [Seq.unique_from]; [constructor|].
  destruct (existsb (eqb x) seen); [apply IH|].
  constructor; [|apply IH].
  rewrite unique_from_In. cbn [In]. tauto.
Qed.

Lemma unique_In l k : In k (Seq.unique eqb l) <-> In k l.
Proof.
  unfold Seq.unique. rewrite unique_from_In. cbn [In]. tauto.
Qed.

Lemma unique_NoDup l : NoDup (Seq.unique eqb l).
Proof. apply unique_from_NoDup. Qed.

Lemma unique_from_snoc_old : forall l seen k,
  In k seen \/ In k l ->
  Seq.unique_from eqb seen (l ++ [k]) = Seq.unique_from eqb seen l.
Proof.
  induction l as [|x l IH]; intros seen k H; cbn [app Seq.unique_from].
  - destruct H as [H|[]]. apply existsb_eqb_In in H. now rewrite H.
  - destruct (existsb (eqb x) seen) eqn:E.
    + apply IH. destruct H as [H|[<-|H]]; auto.
      left. now apply existsb_eqb_In.
    + f_equal. apply IH. cbn [In]. destruct H as [H|[<-|H]]; auto.
Qed.

Lemma unique_from_snoc_new : forall l seen k,
  ~ In k seen -> ~ In k l ->
  Seq.unique_from eqb seen (l ++ [k]) = Seq.unique_from eqb seen l ++ [k].
Proof.
  induction l as [|x l IH]; intros seen k Hs Hl; cbn [app Seq.unique_from].
  - apply existsb_eqb_not_In in Hs. now rewrite Hs.
  - destruct (existsb (eqb x) seen) eqn:E.
    + apply IH; [exact Hs|]. intros H. apply Hl. now right.
    + cbn [app]. f_equal. apply IH.
      * intros [<-|H]; [apply Hl; now left|auto].
      * intros H. apply Hl. now right.
Qed.

Section Values.
Variable V : Type.
Implicit Types (d : list (K * V)) (v : V).

Lemma get_In d k v : Dict.get eqb d k = Ok v -> In (k, v) d.
Proof.
  induction d as [|[k' v'] d IH]; cbn [Dict.get]; [discriminate|].
  destruct (eqb k k') eqn:E.
  - apply eqb_eq in E. intros [= ->]. subst. now left.
  - intros H. right. now apply IH.
Qed.

Lemma In_get d k v : NoDup (map fst d) -> In (k, v) d -> Dict.get eqb d k = Ok v.
Proof.
  induction d as [|[k' v'] d IH]; cbn [Dict.get map In fst]; [tauto|].
  intros Hd H. inversion Hd as [|? ? Hk Hd']; subst.
  destruct H as [[= -> ->]|H].
  - now rewrite eqb_refl.
  - destruct (eqb k k') eqn:E.
    + apply eqb_eq in E. subst. exfalso. apply Hk.
      change k' with (fst (k', v)). now apply in_map.
    + now apply IH.
Qed.

Lemma get_key d k : In k (map fst d) -> exists v, Dict.get eqb d k = Ok v.
Proof.
  induction d as [|[k' v'] d IH]; cbn [Dict.get map In fst]; [tauto|].
  intros H. destruct (eqb k k') eqn:E; [now eexists|].
  apply eqb_neq in E. destruct H as [H|H]; [congruence|now apply IH].
Qed.

Lemma set_new d k v : ~ In k (map fst d) -> Dict.set eqb d k v = d ++ [(k, v)].
Proof.
  induction d as [|[k' v'] d IH]; cbn [Dict.set map In fst app]; [reflexivity|].
  intros H. destruct (eqb k k') eqn:E.
  - apply eqb_eq in E. subst. tauto.
  - f_equal. apply IH. tauto.
Qed.

Lemma of_pairs_from : forall (pairs : list (K * V)) d,
  NoDup (map fst (d ++ pairs)) ->
  fold_left (fun d kv => Dict.set eqb d (fst kv) (snd kv)) pairs d = d ++ pairs.
Proof.
  induction pairs as [|[k v] pairs IH]; intros d H; cbn [fold_left fst snd].
  - now rewrite app_nil_r.
  - rewrite set_new.
    + rewrite IH; rewrite <- app_assoc; [reflexivity|exact H].
    + rewrite map_app in H. apply NoDup_remove_2 in H.
      intros Hin. apply H. apply in_or_app. now left.
Qed.

(** A dict built from pairs with different keys is the list of pairs. *)
Lemma of_pairs_NoDup (pairs : list (K * V)) :
  NoDup (map fst pairs) -> Dict.of_pairs eqb pairs = pairs.
Proof.
  intros H. unfold Dict.of_pairs. now rewrite of_pairs_from.
Qed.
End Values.
End Keys.

Section Groupby.
Variables K V : Type.
Variable eqb : K -> K -> bool.
Hypothesis eqb_eq : forall a b, eqb a b = true <-> a = b.
Variable key : V -> K.
Implicit Types (l : list V) (ks : list K) (x : V).

Lemma groups_of_keys l ks : map fst (groups_of eqb key l ks) = ks.
Proof.
  unfold groups_of. rewrite map_map. cbn [fst]. apply map_id.
Qed.

Lemma append_old l x : forall ks,
  NoDup ks -> In (key x) ks ->
  Dict.append eqb (groups_of eqb key l ks) (key x) x = groups_of eqb key (l ++ [x]) ks.
Proof.
  induction ks as [|k ks IH]; intros Hks Hin; [destruct Hin|].
  inversion Hks as [|? ? Hk Hks']; subst.
  cbn [groups_of map Dict.append]. rewrite filter_app. cbn [filter].
  destruct (eqb (key x) k) eqn:E.
  - f_equal. apply eqb_eq in E. subst k.
    apply map_ext_in. intros k Hk'. rewrite filter_app. cbn [filter].
    destruct (eqb (key x) k) eqn:E'; [|now rewrite app_nil_r].
    apply eqb_eq in E'. subst. contradiction.
  - rewrite app_nil_r. f_equal. apply IH; [exact Hks'|].
    destruct Hin as [Hin|Hin]; [|exact Hin].
    symmetry in Hin. apply eqb_eq in Hin. congruence.
Qed.

Lemma append_new l x : forall ks,
  ~ In (key x) ks ->
  Dict.append eqb (groups_of eqb key l ks) (key x) x
  = groups_of eqb key (l ++ [x]) ks ++ [(key x, [x])].
Proof.
  induction ks as [|k ks IH]; intros Hin; [reflexivity|].
  cbn [groups_of map Dict.append app]. rewrite filter_app. cbn [filter].
  destruct (eqb (key x) k) eqn:E.
  - apply eqb_eq in E. exfalso. apply Hin. now left.
  - rewrite app_nil_r. f_equal. apply IH. intros H. apply Hin. now right.
Qed.

Lemma filter_none l k : ~ In k (map key l) -> filter (fun v => eqb (key v) k) l = [].
Proof.
  induction l as [|x l IH]; cbn [filter map In]; [reflexivity|]. intros H.
  destruct (eqb (key x) k) eqn:E.
  - apply eqb_eq in E. tauto.
  - apply IH. tauto.
Qed.

(** [groupby] lists the keys in order of first appearance, each with
    its items in the order of the input. *)
Lemma groupby_spec l :
  Dict.groupby eqb key l = groups_of eqb key l (Seq.unique eqb (map key l)).
Proof.
  induction l as [|x l IH] using rev_ind; [reflexivity|].
  unfold Dict.groupby in *. rewrite fold_left_app. cbn [fold_left]. rewrite IH.
  rewrite map_app. cbn [map]. unfold Seq.unique.
  destruct (existsb (eqb (key x)) (map key l)) eqn:E.
  - apply (existsb_eqb_In eqb eqb_eq) in E.
    rewrite (unique_from_snoc_old eqb eqb_eq) by auto.
    apply append_old; [apply (unique_from_NoDup eqb eqb_eq)|].
    apply (unique_from_In eqb eqb_eq). cbn [In]. tauto.
  - apply (existsb_eqb_not_In eqb eqb_eq) in E.
    rewrite (unique_from_snoc_new eqb eqb_eq) by (cbn [In]; tauto).
    rewrite append_new by (rewrite (unique_from_In eqb eqb_eq); tauto).
    unfold groups_of. rewrite map_app. cbn [map]. rewrite filter_app. cbn [filter].
    rewrite (eqb_refl eqb eqb_eq), filter_none by exact E. reflexivity.
Qed.
End Groupby.

Section Combine.
Variables K V : Type.
Variable eqb : K -> K -> bool.
Hypothesis eqb_eq : forall a b, eqb a b = true <-> a = b.

Lemma map_fst_combine : forall (ks : list K) (vs : list V),
  List.length ks = List.length vs -> map fst (combine ks vs) = ks.
Proof.
  induction ks as [|k ks IH]; intros [|v vs] H; try discriminate; [reflexivity|].
  cbn [combine map fst]. f_equal. apply IH. now injection H.
Qed.

Lemma map_snd_combine : forall (ks : list K) (vs : list V),
  List.length ks = List.length vs -> map snd (combine ks vs) = vs.
Proof.
  induction ks as [|k ks IH]; intros [|v vs] H; try discriminate; [reflexivity|].
  cbn [combine map snd]. f_equal. apply IH. now injection H.
Qed.

(** In a dict zipped from different keys, a key has the value at its
    own position. *)
Lemma get_combine : forall (ks : list K) (vs : list V) k v,
  NoDup ks -> List.length ks = List.length vs ->
  (Dict.get eqb (combine ks vs) k = Ok v <->
   exists i, nth_error ks i = Some k /\ nth_error vs i = Some v).
Proof.
  induction ks as [|k' ks IH]; intros [|v' vs] k v Hnd Hlen; try discriminate.
  - cbn. split; [discriminate|]. intros ([|i] & H & _); discriminate.
  - inversion Hnd as [|? ? Hk' Hnd']; subst. injection Hlen as Hlen.
    cbn [combine Dict.get]. destruct (eqb k k') eqn:E.
    + apply eqb_eq in E. subst k'. split.
      * intros [= ->]. now exists 0%nat.
      * intros ([|i] & Hi & Hv); cbn [nth_error] in *; [congruence|].
        apply nth_error_In in Hi. contradiction.
    + rewrite IH by assumption. split.
      * intros (i & Hi & Hv). now exists (S i).
      * intros ([|i] & Hi & Hv); cbn [nth_error] in *; [|now exists i].
        injection Hi as ->. rewrite (eqb_refl eqb eqb_eq) in E. discriminate.
Qed.

Lemma swap_enumerate : forall (l : list (K * V)) (ns : list nat),
  map (fun nt => (fst (snd nt), fst nt)) (combine ns l) = combine (map fst l) ns.
Proof.
  induction l as [|x l IH]; intros [|n ns]; try reflexivity.
  cbn [combine map]. now rewrite IH.
Qed.
End Combine.

(** ** Ranking the workers *)

Lemma workers_NoDup results : NoDup (workers_of results).
Proof. apply (unique_NoDup Z.eqb Z.eqb_eq). Qed.

Lemma workers_In results w :
  In w (workers_of results) <-> exists r, In r results /\ worker_id r = w.
Proof.
  unfold workers_of. rewrite (unique_In Z.eqb Z.eqb_eq), in_map_iff.
  split; intros (r & H1 & H2); exists r; tauto.
Qed.

Lemma groupby_workers results :
  Dict.groupby Z.eqb worker_id results
  = map (fun w => (w, filter (fun r => Z.eqb (worker_id r) w) results))
        (workers_of results).
Proof. apply (groupby_spec Z.eqb Z.eqb_eq). Qed.

(** A list of pairs whose values are read off the keys. *)
Lemma rebuild_from_keys (K V : Type) (g : K -> V) (l : list (K * V)) :
  (forall kv, In kv l -> snd kv = g (fst kv)) ->
  l = map (fun k => (k, g k)) (map fst l).
Proof.
  induction l as [|[k v] l IH]; intros H; [reflexivity|].
  cbn [map fst]. f_equal.
  - f_equal. apply (H (k, v)). now left.
  - apply IH. intros kv Hkv. apply H. now right.
Qed.

Lemma insertion_order_perm (V : Type) (d : list (Z * V)) :
  Permutation (insertion_order V d) d.
Proof. reflexivity. Qed.

Lemma by_key_perm (V : Type) (d : list (Z * V)) : Permutation (by_key V d) d.
Proof. apply sorted_perm. Qed.

(** The ranking under any order of the dicts. *)
Section DictOrder.
Variable items : dict_order.
Arguments items : clear implicits.
Hypothesis items_perm : forall (V : Type) (d : list (Z * V)), Permutation (items V d) d.

Lemma timings_in_perm results :
  Permutation (timings_in items results)
              (map (fun w => (w, durations_of results w)) (workers_of results)).
Proof.
  unfold timings_in.
  assert (Hp : Permutation
                 (map (fun kv : Z * list TaskData =>
                         (fst kv, map (fun i => end_time i - start_time i) (snd kv)))
                      (items _ (Dict.groupby Z.eqb worker_id results)))
                 (map (fun w => (w, durations_of results w)) (workers_of results))).
  { eapply perm_trans; [apply Permutation_map, items_perm|].
    rewrite groupby_workers, map_map. reflexivity. }
  rewrite (of_pairs_NoDup Z.eqb Z.eqb_eq); [exact Hp|].
  eapply Permutation_NoDup; [symmetry; apply (Permutation_map fst), Hp|].
  rewrite map_map. cbn [fst]. rewrite map_id. apply workers_NoDup.
Qed.

Lemma timings_items_perm results :
  Permutation (items _ (timings_in items results))
              (map (fun w => (w, durations_of results w)) (workers_of results)).
Proof.
  eapply perm_trans; [apply items_perm|apply timings_in_perm].
Qed.

Lemma timings_items_keys results :
  Permutation (map fst (items _ (timings_in items results))) (workers_of results).
Proof.
  eapply perm_trans; [apply (Permutation_map fst), timings_items_perm|].
  rewrite map_map. cbn [fst]. now rewrite map_id.
Qed.

Lemma timings_items_entry results kv :
  In kv (items _ (timings_in items results)) -> snd kv = durations_of results (fst kv).
Proof.
  intros H. eapply Permutation_in in H; [|apply timings_items_perm].
  apply in_map_iff in H as (w & <- & _). reflexivity.
Qed.

Lemma timings_in_get results w :
  In w (workers_of results) ->
  Dict.get Z.eqb (timings_in items results) w = Ok (durations_of results w).
Proof.
  intros H. apply (In_get Z.eqb Z.eqb_eq).
  - eapply Permutation_NoDup;
      [symmetry; apply (Permutation_map fst), timings_in_perm|].
    rewrite map_map. cbn [fst]. rewrite map_id. apply workers_NoDup.
  - eapply Permutation_in; [symmetry; apply timings_in_perm|].
    apply in_map_iff. now exists w.
Qed.

Lemma ranking_in_perm results :
  Permutation (ranking_in items results) (workers_of results).
Proof.
  unfold ranking_in, Seq.sorted_reverse.
  eapply perm_trans; [apply Permutation_map, sorted_perm|apply timings_items_keys].
Qed.

Lemma ranking_in_NoDup results : NoDup (ranking_in items results).
Proof.
  eapply Permutation_NoDup; [symmetry; apply ranking_in_perm|apply workers_NoDup].
Qed.

Lemma id_lk_in_spec results :
  id_lk_in items results
  = combine (ranking_in items results) (seq 0 (List.length (ranking_in items results))).
Proof.
  unfold id_lk_in, Seq.enumerate. rewrite swap_enumerate. fold (ranking_in items results).
  unfold ranking_in at 3. rewrite length_map.
  apply (of_pairs_NoDup Z.eqb Z.eqb_eq).
  rewrite map_fst_combine; [apply ranking_in_NoDup|].
  unfold ranking_in. now rewrite length_map, length_seq.
Qed.

(** A worker's rank is its place in the sorted order. *)
Lemma rank_in_nth results w r :
  Dict.get Z.eqb (id_lk_in items results) w = Ok r
  <-> nth_error (ranking_in items results) r = Some w.
Proof.
  rewrite id_lk_in_spec.
  rewrite (get_combine Z.eqb Z.eqb_eq)
    by (auto using ranking_in_NoDup; now rewrite length_seq).
  split.
  - intros (i & Hi & Hr). rewrite nth_error_seq in Hr.
    destruct (i <? _)%nat; [|discriminate]. injection Hr as <-. exact Hi.
  - intros H. exists r. split; [exact H|]. rewrite nth_error_seq.
    assert (r < List.length (ranking_in items results))%nat
      by (apply nth_error_Some; congruence).
    apply Nat.ltb_lt in H0. now rewrite H0.
Qed.

Lemma ranking_in_entry results i w :
  nth_error (ranking_in items results) i = Some w ->
  nth_error (Seq.sorted_reverse (fun a b => list_ltb (snd a) (snd b))
               (items _ (timings_in items results))) i
  = Some (w, durations_of results w).
Proof.
  unfold ranking_in. rewrite nth_error_map.
  destruct (nth_error _ i) as [[w' d]|] eqn:E; [|discriminate].
  cbn. intros [= ->]. f_equal.
  apply nth_error_In in E. unfold Seq.sorted_reverse in E.
  eapply Permutation_in in E; [|apply sorted_perm].
  apply timings_items_entry in E. cbn [fst snd] in E. now subst.
Qed.

Lemma ranking_in_sorted results :
  StronglySorted (fun a b : Z * list Q => list_ltb (snd a) (snd b) = false)
    (Seq.sorted_reverse (fun a b => list_ltb (snd a) (snd b))
       (items _ (timings_in items results))).
Proof.
  unfold Seq.sorted_reverse.
  apply (sorted_sorted (fun a b : Z * list Q => list_ltb (snd b) (snd a))).
  - intros a b. apply list_ltb_asym.
  - intros a b c H1 H2. now apply list_ltb_ge_trans with (snd b).
Qed.

Lemma rank_in_order results a b ra rb :
  Dict.get Z.eqb (id_lk_in items results) a = Ok ra ->
  Dict.get Z.eqb (id_lk_in items results) b = Ok rb ->
  (ra < rb)%nat ->
  list_ltb (durations_of results a) (durations_of results b) = false.
Proof.
  intros Ha Hb Hlt.
  apply rank_in_nth, ranking_in_entry in Ha. apply rank_in_nth, ranking_in_entry in Hb.
  apply (before_sorted (ranking_in_sorted results)
           (a := (a, durations_of results a)) (b := (b, durations_of results b))).
  apply before_nth. now exists ra, rb.
Qed.

(** The sort is stable: workers whose durations compare equal keep the
    order in which the dict [timings] hands them out. *)
Lemma rank_in_stable results a b ra rb :
  Dict.get Z.eqb (id_lk_in items results) a = Ok ra ->
  Dict.get Z.eqb (id_lk_in items results) b = Ok rb ->
  before a b (map fst (items _ (timings_in items results))) ->
  list_ltb (durations_of results a) (durations_of results b) = false ->
  (ra < rb)%nat.
Proof.
  intros Ha Hb Hbefore Hge.
  apply rank_in_nth in Ha, Hb.
  apply (before_map (fun w => (w, durations_of results w))) in Hbefore.
  rewrite <- (rebuild_from_keys (durations_of results)) in Hbefore
    by apply timings_items_entry.
  apply (sorted_keeps_before (fun x y : Z * list Q => list_ltb (snd y) (snd x)))
    in Hbefore; [|exact Hge].
  apply (before_map fst) in Hbefore. cbn [fst] in Hbefore.
  fold (Seq.sorted_reverse (fun a b : Z * list Q => list_ltb (snd a) (snd b))
          (items _ (timings_in items results))) in Hbefore.
  fold (ranking_in items results) in Hbefore.
  apply before_nth in Hbefore as (i & j & Hij & Hi & Hj).
  assert (ra = i) by (eapply NoDup_nth_eq; eauto using ranking_in_NoDup).
  assert (rb = j) by (eapply NoDup_nth_eq; eauto using ranking_in_NoDup).
  now subst.
Qed.
End DictOrder.

(** With dicts in order of insertion, [timings] lists the workers in
    order of first appearance. *)
Lemma timings_of_spec results :
  timings_of results = map (fun w => (w, durations_of results w)) (workers_of results).
Proof.
  unfold timings_of, timings_in, insertion_order.
  rewrite groupby_workers, map_map. cbn [fst snd].
  rewrite (of_pairs_NoDup Z.eqb Z.eqb_eq).
  - reflexivity.
  - rewrite map_map. cbn [fst]. rewrite map_id. apply workers_NoDup.
Qed.

Lemma timings_keys results : map fst (timings_of results) = workers_of results.
Proof.
  rewrite timings_of_spec, map_map. cbn [fst]. apply map_id.
Qed.

Lemma ranking_perm results : Permutation (ranking_of results) (workers_of results).
Proof. exact (@ranking_in_perm insertion_order insertion_order_perm results). Qed.

Lemma ranking_NoDup results : NoDup (ranking_of results).
Proof. exact (@ranking_in_NoDup insertion_order insertion_order_perm results). Qed.

Lemma id_lk_of_spec results :
  id_lk_of results
  = combine (ranking_of results) (seq 0 (List.length (ranking_of results))).
Proof. exact (@id_lk_in_spec insertion_order insertion_order_perm results). Qed.

Lemma rank_nth results w r :
  Dict.get Z.eqb (id_lk_of results) w = Ok r <-> nth_error (ranking_of results) r = Some w.
Proof. exact (@rank_in_nth insertion_order insertion_order_perm results w r). Qed.

Lemma rank_exists results w :
  In w (workers_of results) -> exists r, Dict.get Z.eqb (id_lk_of results) w = Ok r.
Proof.
  intros H. eapply Permutation_in in H; [|symmetry; apply ranking_perm].
  apply In_nth_error in H as (r & H). exists r. now apply rank_nth.
Qed.

Lemma rank_order results a b ra rb :
  Dict.get Z.eqb (id_lk_of results) a = Ok ra ->
  Dict.get Z.eqb (id_lk_of results) b = Ok rb ->
  (ra < rb)%nat ->
  list_ltb (durations_of results a) (durations_of results b) = false.
Proof. exact (@rank_in_order insertion_order insertion_order_perm results a b ra rb). Qed.

Lemma rank_stable results a b ra rb :
  Dict.get Z.eqb (id_lk_of results) a = Ok ra ->
  Dict.get Z.eqb (id_lk_of results) b = Ok rb ->
  before a b (workers_of results) ->
  list_ltb (durations_of results a) (durations_of results b) = false ->
  (ra < rb)%nat.
Proof.
  intros Ha Hb Hbefore Hge. rewrite <- timings_keys in Hbefore.
  exact (@rank_in_stable insertion_order insertion_order_perm results a b ra rb
           Ha Hb Hbefore Hge).
Qed.

(** C2, as the code has it, whatever the order in which dicts hand out
    their items: every worker of the results gets one rank and the ranks
    are 0 .. N-1; the sort key of a worker is the list of the durations
    of its tasks, in the order of the results; a worker ranked in front
    of another has a list that is not below the other's in the order of
    Python lists (first unequal durations decide, then the length), so
    the order is descending on these lists, not on their sums; of two
    workers with lists that compare equal, the one that the dict
    [timings] hands out first ranks first; and where dicts keep the
    order of insertion, that one is the worker seen first in the
    results. *)
Theorem slot_ranking (items : dict_order) (results : list TaskData) :
  (forall (V : Type) (d : list (Z * V)), Permutation (items V d) d) ->
  Permutation (map fst (id_lk_in items results)) (workers_of results) /\
  map snd (id_lk_in items results) = seq 0 (List.length (workers_of results)) /\
  (forall w, In w (workers_of results) ->
             Dict.get Z.eqb (timings_in items results) w = Ok (durations_of results w)) /\
  (forall a b ra rb,
      Dict.get Z.eqb (id_lk_in items results) a = Ok ra ->
      Dict.get Z.eqb (id_lk_in items results) b = Ok rb ->
      (ra < rb)%nat ->
      list_ltb (durations_of results a) (durations_of results b) = false) /\
  (forall a b ra rb,
      Dict.get Z.eqb (id_lk_in items results) a = Ok ra ->
      Dict.get Z.eqb (id_lk_in items results) b = Ok rb ->
      before a b (map fst (items _ (timings_in items results))) ->
      tied (durations_of results a) (durations_of results b) ->
      (ra < rb)%nat) /\
  (forall a b ra rb,
      Dict.get Z.eqb (id_lk_in insertion_order results) a = Ok ra ->
      Dict.get Z.eqb (id_lk_in insertion_order results) b = Ok rb ->
      before a b (workers_of results) ->
      tied (durations_of results a) (durations_of results b) ->
      (ra < rb)%nat).
Proof.
  intros items_perm.
  assert (Hlen : List.length (ranking_in items results)
                 = List.length (seq 0 (List.length (ranking_in items results))))
    by now rewrite length_seq.
  split; [|split; [|split; [|split; [|split]]]].
  - rewrite (@id_lk_in_spec items items_perm), map_fst_combine by exact Hlen.
    now apply ranking_in_perm.
  - rewrite (@id_lk_in_spec items items_perm), map_snd_combine by exact Hlen.
    now rewrite (Permutation_length (@ranking_in_perm items items_perm results)).
  - now apply timings_in_get.
  - now apply rank_in_order.
  - intros a b ra rb Ha Hb Hbefore [Hge _]. eapply rank_in_stable; eauto.
  - intros a b ra rb Ha Hb Hbefore [Hge _]. eapply rank_stable; eauto.
Qed.

Lemma slot_ranking_witness :
  (forall (V : Type) (d : list (Z * V)), Permutation (by_key V d) d) /\
  Dict.get Z.eqb (id_lk_in by_key swapped_records) 1%Z = Ok 0%nat /\
  Dict.get Z.eqb (id_lk_in by_key swapped_records) 2%Z = Ok 1%nat /\
  before 1%Z 2%Z (map fst (by_key _ (timings_in by_key swapped_records))) /\
  tied (durations_of swapped_records 1) (durations_of swapped_records 2) /\
  (0 < 1)%nat.
Proof.
  assert (Hb : before 1%Z 2%Z (map fst (by_key _ (timings_in by_key swapped_records))))
    by (now exists [], [], []).
  assert (Ht : tied (durations_of swapped_records 1) (durations_of swapped_records 2))
    by (split; reflexivity).
  split; [exact by_key_perm|].
  split; [reflexivity|]. split; [reflexivity|]. split; [exact Hb|]. split; [exact Ht|].
  exact (proj1 (proj2 (proj2 (proj2 (proj2 (@slot_ranking by_key swapped_records by_key_perm)))))
           1%Z 2%Z 0%nat 1%nat eq_refl eq_refl Hb Ht).
Defined.

(** The order of the dicts decides a tie: worker 2 is seen first and
    ranks first where dicts keep the order of insertion, while a dict
    that hands out its items by ascending key ranks worker 1 first. *)
Example tie_follows_dict_order :
  Dict.get Z.eqb (id_lk_in insertion_order swapped_records) 2%Z = Ok 0%nat /\
  Dict.get Z.eqb (id_lk_in insertion_order swapped_records) 1%Z = Ok 1%nat /\
  Dict.get Z.eqb (id_lk_in by_key swapped_records) 1%Z = Ok 0%nat /\
  Dict.get Z.eqb (id_lk_in by_key swapped_records) 2%Z = Ok 1%nat.
Proof. repeat split. Qed.

(** C2, as the claim has it, fails: worker 1 is busy for 3 in all and
    worker 2 for 2, yet worker 2, whose one task is the longest, gets
    rank 0. *)
Lemma slot_ranking_not_by_total_busy : ~ ranked_by_total_busy busy_records.
Proof.
  intros H.
  specialize (H 1%Z 2%Z 1%nat 0%nat eq_refl eq_refl).
  assert (Hbusy : total_busy busy_records 2 < total_busy busy_records 1) by reflexivity.
  specialize (H Hbusy). lia.
Qed.

(** ** Runs *)

Lemma result_rbind (A B : Type) (m : run A) (f : A -> run B) :
  result_of (rbind m f) = (a <- result_of m ;; result_of (f a)).
Proof.
  destruct m as [calls [a|e]]; cbn; [|reflexivity]. now destruct (f a).
Qed.

Ltac run_step :=
  rewrite result_rbind; cbn [result_of lift call ret snd bind].

Lemma map_combine (A B C D : Type) (g : A -> B) (h : A -> C) (f : B * C -> D) :
  forall l, map f (combine (map g l) (map h l)) = map (fun a => f (g a, h a)) l.
Proof.
  induction l as [|a l IH]; cbn [map combine]; [reflexivity|]. now rewrite IH.
Qed.

Lemma mapM_Ok_length (A B : Type) (f : A -> outcome B) :
  forall l l', mapM f l = Ok l' -> List.length l' = List.length l.
Proof.
  induction l as [|a l IH]; cbn [mapM]; intros l'.
  - now intros [= <-].
  - destruct (f a); [|discriminate]. cbn [bind].
    destruct (mapM f l); [|discriminate]. cbn [bind]. intros [= <-].
    cbn [List.length]. f_equal. now apply IH.
Qed.

Lemma mapM_Ok_nth (A B : Type) (f : A -> outcome B) :
  forall l l' i a, mapM f l = Ok l' -> nth_error l i = Some a ->
                   exists b, nth_error l' i = Some b /\ f a = Ok b.
Proof.
  induction l as [|x l IH]; cbn [mapM]; intros l' i a.
  - intros _ H. destruct i; discriminate.
  - destruct (f x) as [y|] eqn:E; [|discriminate]. cbn [bind].
    destruct (mapM f l) as [ys|]; [|discriminate]. cbn [bind]. intros [= <-].
    destruct i as [|i]; cbn [nth_error].
    + intros [= <-]. now exists y.
    + now apply IH.
Qed.

Lemma mapM_all_Ok (A B : Type) (f : A -> outcome B) :
  forall l, (forall a, In a l -> exists b, f a = Ok b) -> exists l', mapM f l = Ok l'.
Proof.
  induction l as [|x l IH]; intros H; cbn [mapM]; [now eexists|].
  destruct (H x) as (y & ->); [now left|]. cbn [bind].
  destruct IH as (ys & ->); [intros a Ha; apply H; now right|].
  cbn [bind]. now eexists.
Qed.

(** ** The task timeline *)

(** What a successful [plot_tasks] has computed. *)
Lemma plot_tasks_inv brewer results dsk palette label_size kw p :
  result_of (plot_tasks brewer results dsk palette label_size kw) = Ok p ->
  exists left right y funcs color,
    Seq.min Qltb (map start_time results) = Ok left /\
    Seq.max Qltb (map end_time results) = Ok right /\
    mapM (fun i => n <- Dict.get Z.eqb (id_lk_of results) i ;; Ok (n + 1)%nat)
         (map worker_id results) = Ok y /\
    mapM (fun t => pprint_task t (map fst dsk) label_size) (map task_of results)
    = Ok funcs /\
    get_colors brewer palette funcs = Ok color /\
    x_range p = (0, right - left) /\
    y_range p = Categories (map str_of_nat (seq 0 (List.length (id_lk_of results)))) /\
    glyphs p =
      [Rects {| data_width := map (fun r => end_time r - start_time r) results;
                data_x := map (fun r => (end_time r - start_time r) / 2
                                        + start_time r - left) results;
                data_y := y;
                data_function := funcs;
                data_color := color;
                data_key := map key results |} 1 "gray"].
Proof.
  unfold plot_tasks. run_step.
  destruct results as [|r0 rs]; [discriminate|].
  cbn [unzip5 bind]. set (results := r0 :: rs).
  run_step. destruct (Seq.min Qltb (map start_time results)) as [left|] eqn:Emin;
    [|discriminate]. cbn [bind].
  run_step. destruct (Seq.max Qltb (map end_time results)) as [right|] eqn:Emax;
    [|discriminate]. cbn [bind].
  run_step. run_step.
  destruct (mapM _ (map worker_id results)) as [y|] eqn:Ey; [|discriminate]. cbn [bind].
  run_step.
  destruct (mapM _ (map task_of results)) as [funcs|] eqn:Ef; [|discriminate]. cbn [bind].
  run_step.
  destruct (get_colors brewer palette funcs) as [color|] eqn:Ec; [|discriminate].
  cbn [bind]. run_step. run_step. run_step.
  intros [= <-]. exists left, right, y, funcs, color.
  repeat split; try assumption; try reflexivity.
  cbn [glyphs]. rewrite map_combine. cbn [fst snd].
  rewrite (map_combine (fun r => end_time r - start_time r) start_time
             (fun ws => fst ws / 2 + snd ws - left)).
  reflexivity.
Qed.



(** ** The order of strings *)

Lemma compare_OT : forall a b, String.compare a b = String_as_OT.compare a b.
Proof.
  reflexivity.
Qed.

Lemma string_ltb_lt a b : String.ltb a b = true <-> String_as_OT.lt a b.
Proof.
  unfold String.ltb, String_as_OT.lt. rewrite compare_OT.
  destruct (String_as_OT.compare a b); intuition congruence.
Qed.

Lemma string_ltb_irrefl a : String.ltb a a = false.
Proof.
  destruct (String.ltb a a) eqn:E; [|reflexivity].
  apply string_ltb_lt in E. now apply String_as_OT.lt_strorder in E.
Qed.

Lemma string_ltb_asym a b : String.ltb a b = true -> String.ltb b a = false.
Proof.
  intros H. destruct (String.ltb b a) eqn:E; [|reflexivity].
  apply string_ltb_lt in H, E.
  exfalso. apply (StrictOrder_Irreflexive a). now transitivity b.
Qed.

Lemma string_ltb_total a b : String.ltb a b = false -> a <> b -> String.ltb b a = true.
Proof.
  intros H Hne. apply string_ltb_lt.
  destruct (String_as_OT.compare_spec a b) as [E|E|E].
  - contradiction.
  - apply string_ltb_lt in E. congruence.
  - exact E.
Qed.

Lemma string_ge_trans a b c :
  String.ltb b a = false -> String.ltb c b = false -> String.ltb c a = false.
Proof.
  intros H1 H2. destruct (String.ltb c a) eqn:E; [|reflexivity].
  destruct (String_as_OT.compare_spec c b) as [Ecb|Ecb|Ecb].
  - subst. congruence.
  - apply string_ltb_lt in Ecb. congruence.
  - apply string_ltb_lt in E.
    assert (String_as_OT.lt b a) by (now transitivity c).
    apply string_ltb_lt in H. congruence.
Qed.

Lemma sorted_labels_In funcs a : In a (sorted_labels funcs) <-> In a funcs.
Proof.
  unfold sorted_labels. split; intros H.
  - eapply Permutation_in in H; [|apply sorted_perm].
    exact (proj1 (unique_In String.eqb String.eqb_eq funcs a) H).
  - eapply Permutation_in; [symmetry; apply sorted_perm|].
    exact (proj2 (unique_In String.eqb String.eqb_eq funcs a) H).
Qed.

Lemma sorted_labels_NoDup funcs : NoDup (sorted_labels funcs).
Proof.
  eapply Permutation_NoDup; [symmetry; apply sorted_perm|].
  apply (unique_NoDup String.eqb String.eqb_eq).
Qed.

(** The labels go up strictly along [sorted_labels]. *)
Lemma sorted_labels_sorted funcs :
  StronglySorted (fun a b => String.ltb a b = true) (sorted_labels funcs).
Proof.
  assert (H : StronglySorted (fun a b => String.ltb b a = false) (sorted_labels funcs))
    by (apply sorted_sorted; [apply string_ltb_asym|apply string_ge_trans]).
  pose proof (sorted_labels_NoDup funcs) as Hnd.
  induction H as [|a l Hs IH Ha]; [constructor|].
  inversion Hnd as [|? ? Hnotin Hnd']; subst.
  constructor; [now apply IH|].
  rewrite Forall_forall in *. intros b Hb.
  apply string_ltb_total; [now apply Ha|]. intros <-. contradiction.
Qed.

(** ** [min] and [max] of sizes *)

Lemma nat_min_fold : forall l best,
  let m := fold_left (fun best item => if Nat.ltb item best then item else best) l best in
  (m = best \/ In m l) /\ (m <= best)%nat /\ forall v, In v l -> (m <= v)%nat.
Proof.
  induction l as [|y l IH]; intros best; cbn [fold_left In].
  - repeat split; auto. intros v [].
  - destruct (IH (if Nat.ltb y best then y else best)) as (Hin & Hle & Hall).
    destruct (Nat.ltb_spec y best); repeat split.
    all: try (destruct Hin; now auto).
    all: try lia.
    all: intros v [<-|Hv]; auto; lia.
Qed.

Lemma nat_max_fold : forall l best,
  let m := fold_left (fun best item => if Nat.ltb best item then item else best) l best in
  (m = best \/ In m l) /\ (best <= m)%nat /\ forall v, In v l -> (v <= m)%nat.
Proof.
  induction l as [|y l IH]; intros best; cbn [fold_left In].
  - repeat split; auto. intros v [].
  - destruct (IH (if Nat.ltb best y then y else best)) as (Hin & Hle & Hall).
    destruct (Nat.ltb_spec best y); repeat split.
    all: try (destruct Hin; now auto).
    all: try lia.
    all: intros v [<-|Hv]; auto; lia.
Qed.

Lemma nat_min_spec l :
  l <> [] ->
  exists m, Seq.min Nat.ltb l = Ok m /\ In m l /\ forall v, In v l -> (m <= v)%nat.
Proof.
  destruct l as [|x l]; [congruence|]. intros _. eexists. split; [reflexivity|].
  destruct (nat_min_fold l x) as (Hin & Hle & Hall). split; cbn [In].
  - destruct Hin as [->|Hin]; auto.
  - intros v [<-|Hv]; auto.
Qed.

Lemma nat_max_spec l :
  l <> [] ->
  exists m, Seq.max Nat.ltb l = Ok m /\ In m l /\ forall v, In v l -> (v <= m)%nat.
Proof.
  destruct l as [|x l]; [congruence|]. intros _. eexists. split; [reflexivity|].
  destruct (nat_max_fold l x) as (Hin & Hle & Hall). split; cbn [In].
  - destruct Hin as [->|Hin]; auto.
  - intros v [<-|Hv]; auto.
Qed.

(** ** Color assignment *)

Lemma table_entry (table : palette_table) k :
  In k (map fst table) ->
  exists c, Dict.get Nat.eqb table k = Ok c /\ In (k, c) table.
Proof.
  intros H. destruct (get_key Nat.eqb Nat.eqb_eq table k H) as (c & Hc).
  exists c. split; [exact Hc|]. now apply (get_In Nat.eqb Nat.eqb_eq).
Qed.

Lemma take_finite_length (n : nat) (c : list string) :
  (n <= List.length c)%nat -> List.length (Seq.take n (Seq.Finite c)) = n.
Proof.
  intros H. cbn [Seq.take]. rewrite length_firstn. lia.
Qed.

Lemma take_cycle_nth (n k : nat) (c : list string) :
  c <> [] -> (k < n)%nat ->
  nth_error (Seq.take n (Seq.Cycle c)) k = nth_error c (k mod List.length c).
Proof.
  destruct c as [|a l]; [congruence|]. intros _ Hk. cbn [Seq.take].
  rewrite nth_error_map, nth_error_seq.
  apply Nat.ltb_lt in Hk. rewrite Hk. cbn [option_map Nat.add].
  symmetry. apply nth_error_nth'. apply Nat.mod_upper_bound. discriminate.
Qed.

Lemma take_cycle_length (n : nat) (c : list string) :
  c <> [] -> List.length (Seq.take n (Seq.Cycle c)) = n.
Proof.
  destruct c as [|a l]; [congruence|]. intros _. cbn [Seq.take].
  now rewrite length_map, length_seq.
Qed.

(** The colors are looked up, label by label, in a dict. *)
Lemma get_colors_lookup brewer palette funcs colors :
  get_colors brewer palette funcs = Ok colors ->
  exists color_lookup, mapM (fun n => Dict.get String.eqb color_lookup n) funcs = Ok colors.
Proof.
  unfold get_colors.
  destruct (Dict.get String.eqb brewer palette) as [table|]; [|discriminate].
  cbn [bind].
  destruct (Seq.min Nat.ltb (map fst table)) as [low|]; [|discriminate]. cbn [bind].
  destruct (Seq.max Nat.ltb (map fst table)) as [high|]; [|discriminate]. cbn [bind].
  match goal with |- (colors <- ?m ;; _) = _ -> _ => destruct m as [cs|] end;
    [|discriminate].
  cbn [bind]. intros H. eexists. exact H.
Qed.

(** With a palette in order, the dict pairs the sorted labels with
    swatches: different ones while the palette is large enough, the
    largest set over and over beyond that. *)
Lemma get_colors_ok brewer palette funcs table :
  Dict.get String.eqb brewer palette = Ok table ->
  palette_ok table ->
  exists low high swatches,
    Seq.min Nat.ltb (map fst table) = Ok low /\
    Seq.max Nat.ltb (map fst table) = Ok high /\
    List.length swatches = List.length (sorted_labels funcs) /\
    get_colors brewer palette funcs
    = mapM (fun n => Dict.get String.eqb (combine (sorted_labels funcs) swatches) n)
           funcs /\
    ((List.length (sorted_labels funcs) <= high)%nat -> NoDup swatches) /\
    ((high < List.length (sorted_labels funcs))%nat ->
     exists c, Dict.get Nat.eqb table high = Ok c /\ List.length c = high /\
               (1 <= high)%nat /\
               forall k, (k < List.length (sorted_labels funcs))%nat ->
                         nth_error swatches k = nth_error c (k mod high)).
Proof.
  intros Hget (Hne & Hsw & Hgap).
  assert (Hkeys : map fst table <> []) by (destruct table; [congruence|discriminate]).
  destruct (nat_min_spec Hkeys) as (low & Hlow & Hlow_in & Hlow_le).
  destruct (nat_max_spec Hkeys) as (high & Hhigh & Hhigh_in & Hhigh_le).
  specialize (Hgap low high).
  set (n := List.length (sorted_labels funcs)).
  assert (Hdict : forall swatches : list string,
             List.length swatches = n ->
             Dict.of_pairs String.eqb (combine (sorted_labels funcs) swatches)
             = combine (sorted_labels funcs) swatches).
  { intros sw Hlen. apply (of_pairs_NoDup String.eqb String.eqb_eq).
    rewrite map_fst_combine by (now rewrite Hlen). apply sorted_labels_NoDup. }
  assert (Hstart : forall colors,
             (if (high <? n)%nat
              then c <- Dict.get Nat.eqb table high ;; Ok (Seq.Cycle c)
              else if (n <? low)%nat
                   then c <- Dict.get Nat.eqb table low ;; Ok (Seq.Finite c)
                   else c <- Dict.get Nat.eqb table n ;; Ok (Seq.Finite c)) = Ok colors ->
             List.length (Seq.take n colors) = n ->
             get_colors brewer palette funcs
             = mapM (fun f => Dict.get String.eqb
                                (combine (sorted_labels funcs) (Seq.take n colors)) f)
                    funcs).
  { intros colors Hc Hlen. unfold get_colors. rewrite Hget. cbn [bind].
    rewrite Hlow, Hhigh. cbn [bind]. fold (sorted_labels funcs). fold n.
    rewrite Hc. cbn [bind]. unfold Seq.zip. fold n. now rewrite Hdict. }
  exists low, high.
  destruct (Nat.ltb_spec high n) as [Hbig|Hsmall].
  - destruct (table_entry table high Hhigh_in) as (c & Hc & Hc_in).
    destruct (Hsw _ _ Hc_in) as (Hpos & Hlen & Hnd).
    assert (Hc_ne : c <> []) by (destruct c; [cbn in Hlen; lia|discriminate]).
    exists (Seq.take n (Seq.Cycle c)).
    repeat split; try assumption.
    + now apply take_cycle_length.
    + apply Hstart; [|now apply take_cycle_length].
      rewrite Hc. reflexivity.
    + lia.
    + intros _. exists c. repeat split; try assumption.
      intros k Hk. rewrite take_cycle_nth by assumption. now rewrite Hlen.
  - assert (Hfin : exists c, (if (n <? low)%nat
                              then c <- Dict.get Nat.eqb table low ;; Ok (Seq.Finite c)
                              else c <- Dict.get Nat.eqb table n ;; Ok (Seq.Finite c))
                             = Ok (Seq.Finite c)
                             /\ (n <= List.length c)%nat /\ NoDup c).
    { destruct (Nat.ltb_spec n low) as [Hlt|Hge].
      - destruct (table_entry table low Hlow_in) as (c & Hc & Hc_in).
        destruct (Hsw _ _ Hc_in) as (Hpos & Hlen & Hnd).
        exists c. rewrite Hc. repeat split; [lia|assumption].
      - destruct (table_entry table n) as (c & Hc & Hc_in); [apply Hgap; auto|].
        destruct (Hsw _ _ Hc_in) as (Hpos & Hlen & Hnd).
        exists c. rewrite Hc. repeat split; [lia|assumption]. }
    destruct Hfin as (c & Hc & Hlen & Hnd).
    exists (Seq.take n (Seq.Finite c)).
    repeat split; try assumption.
    + now apply take_finite_length.
    + apply Hstart; [|now apply take_finite_length].
      exact Hc.
    + intros _. cbn [Seq.take]. rewrite <- (firstn_skipn n c) in Hnd.
      now apply NoDup_app_remove_r in Hnd.
    + lia.
Qed.

Lemma GnBu_ok : palette_ok GnBu.
Proof.
  split; [discriminate|]. split.
  - intros k cs H. cbn [GnBu In] in H.
    repeat (destruct H as [H|H]; [injection H as <- <-; repeat split; [lia|];
                                  repeat constructor; cbn [In]; intuition discriminate|]).
    destruct H.
  - intros low high n [= <-] [= <-] Hn. cbn.
    assert (n = 3 \/ n = 4 \/ n = 5 \/ n = 6 \/ n = 7 \/ n = 8 \/ n = 9)%nat by lia.
    intuition.
Qed.

(** C4: for a palette of the catalog that is in order, [get_colors]
    returns one color per label; equal labels get equal colors; while the
    number of different labels is at most the largest size, different
    labels get different colors; beyond it, the k-th label in sorted order
    gets swatch [k mod high] of the largest set, so the colors repeat along
    the sorted labels with a period of at most that size. *)
Theorem get_colors_assigns brewer palette funcs table :
  Dict.get String.eqb brewer palette = Ok table ->
  palette_ok table ->
  exists colors high,
    get_colors brewer palette funcs = Ok colors /\
    Seq.max Nat.ltb (map fst table) = Ok high /\
    List.length colors = List.length funcs /\
    StronglySorted (fun a b => String.ltb a b = true) (sorted_labels funcs) /\
    (forall a, In a (sorted_labels funcs) <-> In a funcs) /\
    (forall i j a ci cj,
        nth_error funcs i = Some a -> nth_error funcs j = Some a ->
        nth_error colors i = Some ci -> nth_error colors j = Some cj ->
        ci = cj) /\
    ((List.length (sorted_labels funcs) <= high)%nat ->
     forall i j a b ci cj,
       nth_error funcs i = Some a -> nth_error funcs j = Some b ->
       nth_error colors i = Some ci -> nth_error colors j = Some cj ->
       a <> b -> ci <> cj) /\
    ((high < List.length (sorted_labels funcs))%nat ->
     exists largest,
       Dict.get Nat.eqb table high = Ok largest /\
       List.length largest = high /\
       forall i a ci k,
         nth_error funcs i = Some a -> nth_error colors i = Some ci ->
         nth_error (sorted_labels funcs) k = Some a ->
         nth_error largest (k mod high) = Some ci).
Proof.
  intros Hget Hok.
  destruct (@get_colors_ok brewer palette funcs table Hget Hok)
    as (low & high & sw & _ & Hhigh & Hlen & Hrun & Hdistinct & Hcycle).
  set (U := sorted_labels funcs) in *.
  assert (Hnd : NoDup U) by apply sorted_labels_NoDup.
  destruct (mapM_all_Ok (fun n => Dict.get String.eqb (combine U sw) n) funcs)
    as (colors & Hcolors).
  { intros a Ha. apply (get_key String.eqb String.eqb_eq).
    rewrite map_fst_combine by (now rewrite Hlen). now apply sorted_labels_In. }
  assert (Hat : forall i a ci,
             nth_error funcs i = Some a -> nth_error colors i = Some ci ->
             exists k, nth_error U k = Some a /\ nth_error sw k = Some ci).
  { intros i a ci Ha Hci.
    destruct (mapM_Ok_nth _ _ i Hcolors Ha) as (c & Hc & Hlook).
    assert (c = ci) by congruence. subst c.
    apply (get_combine String.eqb String.eqb_eq) in Hlook; auto. }
  exists colors, high. rewrite Hrun.
  split; [exact Hcolors|]. split; [exact Hhigh|].
  split; [now apply mapM_Ok_length in Hcolors|].
  split; [apply sorted_labels_sorted|].
  split; [apply sorted_labels_In|].
  split; [|split].
  - intros i j a ci cj Hi Hj Hci Hcj.
    destruct (Hat _ _ _ Hi Hci) as (k & Hk & Hsk).
    destruct (Hat _ _ _ Hj Hcj) as (k' & Hk' & Hsk').
    assert (k = k') by (eapply NoDup_nth_eq; eauto). subst. congruence.
  - intros Hsmall i j a b ci cj Hi Hj Hci Hcj Hab Heq. subst cj.
    destruct (Hat _ _ _ Hi Hci) as (k & Hk & Hsk).
    destruct (Hat _ _ _ Hj Hcj) as (k' & Hk' & Hsk').
    assert (k = k') by (eapply (@NoDup_nth_eq _ sw); eauto). subst. congruence.
  - intros Hbig. destruct (Hcycle Hbig) as (c & Hc & Hclen & _ & Hnth).
    exists c. split; [exact Hc|]. split; [exact Hclen|].
    intros i a ci k Hi Hci Hk.
    destruct (Hat _ _ _ Hi Hci) as (k' & Hk' & Hsk').
    assert (k = k') by (eapply NoDup_nth_eq; eauto). subst k'.
    rewrite <- Hnth; [exact Hsk'|]. apply nth_error_Some. congruence.
Qed.

Lemma get_colors_assigns_witness :
  Dict.get String.eqb sample_brewer "GnBu"%string = Ok GnBu /\
  palette_ok GnBu /\
  exists colors high,
    get_colors sample_brewer "GnBu" ["mul"; "add"; "mul"]%string = Ok colors /\
    Seq.max Nat.ltb (map fst GnBu) = Ok high /\
    List.length colors = 3%nat.
Proof.
  split; [reflexivity|]. split; [exact GnBu_ok|].
  destruct (@get_colors_assigns sample_brewer "GnBu" ["mul"; "add"; "mul"]%string GnBu
              eq_refl GnBu_ok) as (colors & high & Hc & Hh & Hlen & _).
  exists colors, high. repeat split; assumption.
Defined.

(** C9, as the code has it: the color column of the chart is
    [get_colors] of the column of summarized texts, text by text; two
    records with the same summarized text have the same color. *)
Theorem color_keyed_on_text brewer results dsk palette label_size kw p :
  result_of (plot_tasks brewer results dsk palette label_size kw) = Ok p ->
  exists source,
    glyphs p = [Rects source 1 "gray"] /\
    mapM (fun t => pprint_task t (map fst dsk) label_size) (map task_of results)
    = Ok (data_function source) /\
    get_colors brewer palette (data_function source) = Ok (data_color source) /\
    forall i j text ci cj,
      nth_error (data_function source) i = Some text ->
      nth_error (data_function source) j = Some text ->
      nth_error (data_color source) i = Some ci ->
      nth_error (data_color source) j = Some cj ->
      ci = cj.
Proof.
  intros H.
  apply plot_tasks_inv in H
    as (left & right & y & funcs & color & _ & _ & _ & Hf & Hc & _ & _ & Hg).
  eexists. split; [exact Hg|]. cbn [data_function data_color].
  split; [exact Hf|]. split; [exact Hc|].
  intros i j text ci cj Hi Hj Hci Hcj.
  apply get_colors_lookup in Hc as (lookup & Hl).
  destruct (mapM_Ok_nth _ _ i Hl Hi) as (c & Hc & Hget).
  destruct (mapM_Ok_nth _ _ j Hl Hj) as (c' & Hc' & Hget').
  congruence.
Qed.

Lemma color_keyed_on_text_witness :
  exists p, result_of two_records_run = Ok p /\
  exists source,
    glyphs p = [Rects source 1 "gray"] /\
    mapM (fun t => pprint_task t (map fst sample_dsk) 60) (map task_of two_records)
    = Ok (data_function source) /\
    get_colors sample_brewer "GnBu" (data_function source) = Ok (data_color source) /\
    forall i j text ci cj,
      nth_error (data_function source) i = Some text ->
      nth_error (data_function source) j = Some text ->
      nth_error (data_color source) i = Some ci ->
      nth_error (data_color source) j = Some cj ->
      ci = cj.
Proof.
  eexists. split.
  - vm_compute. reflexivity.
  - apply (@color_keyed_on_text sample_brewer two_records sample_dsk "GnBu" 60 no_kwargs).
    vm_compute. reflexivity.
Defined.

(** C9, as the claim has it, fails: the two records are both calls of
    [add], rendered [add(_, _)] and [add( *, _)], and they get two colors. *)
Lemma color_not_keyed_on_head_name :
  ~ colored_by_head_name sample_brewer two_records sample_dsk "GnBu" 60 no_kwargs.
Proof.
  intros H.
  assert (E : "#a8ddb5"%string = "#43a2ca"%string).
  { eapply (H _ _ 0%nat 1%nat _ _ "add"%string).
    - vm_compute. reflexivity.
    - reflexivity.
    - reflexivity.
    - reflexivity.
    - reflexivity.
    - reflexivity.
    - reflexivity.
    - reflexivity. }
  discriminate.
Qed.

(** C3: the code departs from the claim.  A call without arguments, or an
    empty list, makes [pprint_task] divide by zero, whatever the keys and
    the budget. *)
Theorem pprint_task_divides_by_zero func keys label_size :
  pprint_task (Call func []) keys label_size = Raise ZeroDivisionError /\
  pprint_task (PyList []) keys label_size = Raise ZeroDivisionError.
Proof.
  split; reflexivity.
Qed.

(** C10: [pprint_task] calls itself on the arguments of a call or on the
    first three items of a list only, each of them a strictly smaller
    expression; run on fuel, it returns as soon as the fuel exceeds the
    height of the expression, whatever the budget. *)
Theorem pprint_task_terminates t keys label_size extra :
  Forall (fun t' => (height t' < height t)%nat) (recursive_calls t) /\
  pprint_task_fuel (S (height t) + extra) t keys label_size
  = Some (pprint_task t keys label_size).
Proof.
  split.
  - apply Forall_forall. intros t'. apply recursive_calls_smaller.
  - apply pprint_task_fuel_enough. lia.
Qed.

(** ** Stacking the charts *)

(** C6: the code departs from the claim.  The axis label is removed from
    the first chart only; of three charts the one in the middle keeps
    its label, as the last one does. *)
Theorem stack_keeps_middle_label :
  (forall top mid last,
      map xaxis_label (stack top [top; mid; last])
      = [None; xaxis_label mid; xaxis_label last]) /\
  exists f1 f2 f3,
    result_of three_charts = Ok (Grid [[f1]; [f2]; [f3]]) /\
    xaxis_label f1 = None /\
    xaxis_label f2 = Some "Time (s)"%string /\
    xaxis_label f3 = Some "Time (s)"%string.
Proof.
  split; [reflexivity|].
  do 3 eexists. split; [vm_compute; reflexivity|].
  repeat split.
Qed.

(** ** The resource chart *)

(** What a successful [plot_resources] has computed. *)
Lemma plot_resources_inv brewer results palette kw p :
  result_of (plot_resources brewer results palette kw) = Ok p ->
  exists left right max_cpu max_mem c0 c2,
    Seq.min Qltb (map (fun r => fst (fst r)) results) = Ok left /\
    Seq.max Qltb (map (fun r => fst (fst r)) results) = Ok right /\
    Seq.max Qltb (map (fun r => snd r) results) = Ok max_cpu /\
    Seq.max Qltb (map (fun r => snd (fst r)) results) = Ok max_mem /\
    x_range p = (0, right - left) /\
    y_range p = Interval 0 max_cpu /\
    extra_y_ranges p = [("memory"%string, (0, max_mem))] /\
    glyphs p =
      [Lines {| line_x := map (fun r => fst (fst r) - left) results;
                line_y := map (fun r => snd r) results;
                line_color := c0; line_width := 4;
                line_legend := "% CPU"; line_y_range_name := None |};
       Lines {| line_x := map (fun r => fst (fst r) - left) results;
                line_y := map (fun r => snd (fst r)) results;
                line_color := c2; line_width := 4;
                line_legend := "Memory";
                line_y_range_name := Some "memory"%string |}].
Proof.
  unfold plot_resources. run_step.
  destruct results as [|r0 rs]; [discriminate|].
  cbn [unzip3 bind]. set (results := r0 :: rs).
  run_step. destruct (Seq.min Qltb _) as [left|] eqn:Emin; [|discriminate]. cbn [bind].
  run_step. destruct (Seq.max Qltb _) as [right|] eqn:Emax; [|discriminate]. cbn [bind].
  run_step.
  destruct (Seq.max Qltb (map (fun r => snd r) results)) as [max_cpu|] eqn:Ecpu;
    [|discriminate]. cbn [bind].
  run_step. run_step.
  destruct (Dict.get String.eqb brewer palette) as [table|]; [|discriminate]. cbn [bind].
  destruct (Dict.get Nat.eqb table 6%nat) as [colors|]; [|discriminate]. cbn [bind].
  run_step. destruct (index colors 0) as [c0|]; [|discriminate]. cbn [bind].
  run_step. run_step.
  destruct (Seq.max Qltb (map (fun r => snd (fst r)) results)) as [max_mem|] eqn:Emem;
    [|discriminate]. cbn [bind].
  run_step. run_step. destruct (index colors 2) as [c2|]; [|discriminate]. cbn [bind].
  run_step. run_step. run_step.
  intros [= <-]. exists left, right, max_cpu, max_mem, c0, c2.
  rewrite map_map. repeat split; assumption.
Qed.

(** With a usable palette, [plot_resources] returns for any samples,
    one at least. *)
Lemma plot_resources_ok (brewer : catalog) results palette kw
  (table : palette_table) colors :
  results <> [] ->
  Dict.get String.eqb brewer palette = Ok table ->
  Dict.get Nat.eqb table 6%nat = Ok colors ->
  (3 <= List.length colors)%nat ->
  exists p, result_of (plot_resources brewer results palette kw) = Ok p.
Proof.
  intros Hne Htable Hcolors Hlen.
  destruct results as [|r0 rs]; [congruence|].
  destruct colors as [|c0 [|c1 [|c2 colors]]]; cbn [List.length] in Hlen; try lia.
  unfold plot_resources.
  repeat first [ rewrite result_rbind; cbn [result_of lift call ret snd bind]
               | rewrite Htable
               | rewrite Hcolors
               | progress cbn [unzip3 map Seq.min Seq.max bind index nth_error] ].
  eexists. reflexivity.
Qed.

Lemma get_colors_returns (brewer : catalog) palette funcs (table : palette_table) :
  Dict.get String.eqb brewer palette = Ok table ->
  palette_ok table ->
  exists colors, get_colors brewer palette funcs = Ok colors.
Proof.
  intros Hget Hok.
  destruct (@get_colors_ok brewer palette funcs table Hget Hok)
    as (low & high & sw & _ & _ & Hlen & -> & _).
  apply mapM_all_Ok. intros a Ha. apply (get_key String.eqb String.eqb_eq).
  rewrite map_fst_combine by (now rewrite Hlen). now apply sorted_labels_In.
Qed.

Lemma ranks_returned results :
  exists y, mapM (fun i => n <- Dict.get Z.eqb (id_lk_of results) i ;; Ok (n + 1)%nat)
                 (map worker_id results) = Ok y.
Proof.
  apply mapM_all_Ok. intros w Hw.
  destruct (@rank_exists results w) as (r & ->); [|now eexists].
  apply workers_In. apply in_map_iff in Hw as (r & Hr & Hin). now exists r.
Qed.

(** With a palette in order, [plot_tasks] returns for any records, one
    at least, whose tasks [pprint_task] renders. *)
Lemma plot_tasks_ok (brewer : catalog) results dsk palette label_size kw
  (table : palette_table) funcs :
  results <> [] ->
  Dict.get String.eqb brewer palette = Ok table ->
  palette_ok table ->
  mapM (fun t => pprint_task t (map fst dsk) label_size) (map task_of results) = Ok funcs ->
  exists p, result_of (plot_tasks brewer results dsk palette label_size kw) = Ok p.
Proof.
  intros Hne Htable Hok Hfuncs.
  destruct (ranks_returned results) as (y & Hy).
  destruct (@get_colors_returns brewer palette funcs table Htable Hok) as (colors & Hc).
  destruct results as [|r0 rs]; [congruence|].
  unfold plot_tasks. run_step. cbn [unzip5 bind].
  remember (r0 :: rs) as results eqn:Eres.
  assert (Hmin : exists left, Seq.min Qltb (map start_time results) = Ok left)
    by (subst; eexists; reflexivity).
  assert (Hmax : exists right, Seq.max Qltb (map end_time results) = Ok right)
    by (subst; eexists; reflexivity).
  destruct Hmin as (left & Hmin). destruct Hmax as (right & Hmax).
  run_step. rewrite Hmin. cbn [bind].
  run_step. rewrite Hmax. cbn [bind].
  run_step. run_step. rewrite Hy. cbn [bind].
  run_step. rewrite Hfuncs. cbn [bind].
  run_step. rewrite Hc. cbn [bind].
  run_step. run_step. run_step.
  eexists. reflexivity.
Qed.

(** C5, as the code has it: the samples are read by position as
    (timestamp, memory, cpu).  The time axis runs from 0 to the largest
    minus the least timestamp; the primary (CPU) axis from 0 to the
    largest third component; the memory axis from 0 to the largest second
    component, none of them padded.  On the samples of the specification
    that makes the CPU axis [0,150], the memory axis [0,20] and the time
    axis [0,2]. *)
Theorem resource_axes :
  (forall brewer results palette kw p,
      result_of (plot_resources brewer results palette kw) = Ok p ->
      exists left right third second,
        is_min left (map (fun r => fst (fst r)) results) /\
        is_max right (map (fun r => fst (fst r)) results) /\
        is_max third (map (fun r => snd r) results) /\
        is_max second (map (fun r => snd (fst r)) results) /\
        x_range p = (0, right - left) /\
        y_range p = Interval 0 third /\
        extra_y_ranges p = [("memory"%string, (0, second))]) /\
  (forall brewer palette kw p,
      result_of (plot_resources brewer spec_samples palette kw) = Ok p ->
      exists m,
        range_is (y_range p) 0 150 /\
        extra_y_ranges p = [("memory"%string, m)] /\
        same_range m (0, 20) /\
        same_range (x_range p) (0, 2)).
Proof.
  split.
  - intros brewer results palette kw p H.
    apply plot_resources_inv in H
      as (left & right & cpu & mem & c0 & c2 & Hmin & Hmax & Hcpu & Hmem & Hx & Hy & He & _).
    exists left, right, cpu, mem.
    repeat split; try assumption;
      first [ now apply (min_inv _ Hmin) | now apply (max_inv _ Hmax)
            | now apply (max_inv _ Hcpu) | now apply (max_inv _ Hmem) ].
  - intros brewer palette kw p H.
    apply plot_resources_inv in H
      as (left & right & cpu & mem & c0 & c2 & Hmin & Hmax & Hcpu & Hmem & Hx & Hy & He & _).
    injection Hmin as <-. injection Hmax as <-. injection Hcpu as <-. injection Hmem as <-.
    exists (0, 20). rewrite Hy, Hx, He.
    repeat split; reflexivity.
Qed.

Lemma resource_axes_witness :
  exists p,
    result_of (plot_resources sample_brewer spec_samples "GnBu" no_kwargs) = Ok p /\
    (exists left right third second,
        is_min left (map (fun r => fst (fst r)) spec_samples) /\
        is_max right (map (fun r => fst (fst r)) spec_samples) /\
        is_max third (map (fun r => snd r) spec_samples) /\
        is_max second (map (fun r => snd (fst r)) spec_samples) /\
        x_range p = (0, right - left) /\
        y_range p = Interval 0 third /\
        extra_y_ranges p = [("memory"%string, (0, second))]) /\
    (exists m,
        range_is (y_range p) 0 150 /\
        extra_y_ranges p = [("memory"%string, m)] /\
        same_range m (0, 20) /\
        same_range (x_range p) (0, 2)).
Proof.
  eexists. split; [vm_compute; reflexivity|]. split.
  - apply (proj1 resource_axes sample_brewer spec_samples "GnBu"%string no_kwargs).
    vm_compute. reflexivity.
  - apply (proj2 resource_axes sample_brewer "GnBu"%string no_kwargs).
    vm_compute. reflexivity.
Defined.

(** C5, as the claim has it, fails: on the samples of the specification
    the CPU axis does not end at 20 with the memory axis ending at 150. *)
Lemma resource_axes_not_cpu_then_memory :
  ~ axes_cpu_then_memory sample_brewer spec_samples "GnBu" no_kwargs 20 150.
Proof.
  intros (p & m & Hp & Hy & _).
  vm_compute in Hp. injection Hp as <-.
  destruct Hy as [_ Hy]. vm_compute in Hy. discriminate.
Qed.

(** C8, as the code has it: the samples are not sorted.  The lines of the
    chart follow the samples in the order given; what does not depend on
    that order is the three axis ranges. *)
Theorem resource_axes_permutation brewer palette kw results results' p p' :
  Permutation results results' ->
  result_of (plot_resources brewer results palette kw) = Ok p ->
  result_of (plot_resources brewer results' palette kw) = Ok p' ->
  same_range (x_range p) (x_range p') /\
  same_axis (y_range p) (y_range p') /\
  (exists m m', extra_y_ranges p = [("memory"%string, m)] /\
                extra_y_ranges p' = [("memory"%string, m')] /\
                same_range m m') /\
  exists left,
    is_min left (map (fun r => fst (fst r)) results) /\
    chart_series p =
      [(map (fun r => fst (fst r) - left) results, map (fun r => snd r) results);
       (map (fun r => fst (fst r) - left) results, map (fun r => snd (fst r)) results)].
Proof.
  intros Hperm H H'.
  apply plot_resources_inv in H
    as (left & right & cpu & mem & c0 & c2 & Hmin & Hmax & Hcpu & Hmem & Hx & Hy & He & Hg).
  apply plot_resources_inv in H'
    as (left' & right' & cpu' & mem' & c0' & c2' & Hmin' & Hmax' & Hcpu' & Hmem'
        & Hx' & Hy' & He' & _).
  apply min_inv in Hmin, Hmin'. apply max_inv in Hmax, Hmax', Hcpu, Hcpu', Hmem, Hmem'.
  assert (El : left == left')
    by (eapply is_min_unique; [|exact Hmin|exact Hmin']; apply Permutation_map, Hperm).
  assert (Er : right == right')
    by (eapply is_max_unique; [|exact Hmax|exact Hmax']; apply Permutation_map, Hperm).
  assert (Ec : cpu == cpu')
    by (eapply is_max_unique; [|exact Hcpu|exact Hcpu']; apply Permutation_map, Hperm).
  assert (Em : mem == mem')
    by (eapply is_max_unique; [|exact Hmem|exact Hmem']; apply Permutation_map, Hperm).
  rewrite Hx, Hx', Hy, Hy', He, He'.
  split; [|split; [|split]].
  - split; cbn [fst snd]; [reflexivity|]. now rewrite El, Er.
  - split; [reflexivity|exact Ec].
  - exists (0, mem), (0, mem'). repeat split; cbn [fst snd]; try reflexivity; exact Em.
  - exists left. split; [exact Hmin|].
    unfold chart_series. rewrite Hg. reflexivity.
Qed.

Lemma resource_axes_permutation_witness :
  Permutation spec_samples shuffled_samples /\
  exists p p',
    result_of (plot_resources sample_brewer spec_samples "GnBu" no_kwargs) = Ok p /\
    result_of (plot_resources sample_brewer shuffled_samples "GnBu" no_kwargs) = Ok p' /\
    same_range (x_range p) (x_range p') /\
    same_axis (y_range p) (y_range p').
Proof.
  assert (Hperm : Permutation spec_samples shuffled_samples)
    by (unfold spec_samples, shuffled_samples; apply perm_skip, perm_swap).
  split; [exact Hperm|].
  do 2 eexists. split; [vm_compute; reflexivity|]. split; [vm_compute; reflexivity|].
  assert (Hp : result_of (plot_resources sample_brewer spec_samples "GnBu" no_kwargs) = Ok _)
    by (vm_compute; reflexivity).
  assert (Hp' : result_of (plot_resources sample_brewer shuffled_samples "GnBu" no_kwargs)
                = Ok _)
    by (vm_compute; reflexivity).
  destruct (resource_axes_permutation _ _ _ Hperm Hp Hp') as (Hx & Hy & _).
  split; assumption.
Defined.

(** C8, as the claim has it, fails: given the samples of times 0, 2, 1,
    the lines run through the abscissas 0, 2, 1, not 0, 1, 2 as they do
    for the sorted samples. *)
Lemma samples_not_sorted :
  ~ sample_order_irrelevant sample_brewer shuffled_samples "GnBu" no_kwargs.
Proof.
  intros H.
  specialize (H _ _ ltac:(vm_compute; reflexivity) ltac:(vm_compute; reflexivity)).
  vm_compute in H.
  inversion H as [|s s' l l' [Hx _] _]; subst.
  inversion Hx as [|a b la lb _ Hrest]; subst.
  inversion Hrest as [|a' b' la' lb' Hab _]; subst.
  discriminate Hab.
Qed.

(** ** Empty and single inputs *)

(** C7, as the code has it: with no records, or no samples, the
    unpacking of the columns raises [ValueError] before any call to the
    backend.  With a single sample and a palette that has a set of size 6
    with three colors or more, [plot_resources] returns a chart of two
    one-point lines; with a single record whose task [pprint_task]
    renders and a palette in order, [plot_tasks] returns a chart of one
    rectangle. *)
Theorem empty_and_single_input :
  (forall brewer dsk palette label_size kw,
      plot_tasks brewer [] dsk palette label_size kw = ([], Raise ValueError)) /\
  (forall brewer palette kw,
      plot_resources brewer [] palette kw = ([], Raise ValueError)) /\
  (forall (brewer : catalog) r dsk palette label_size kw (table : palette_table) text,
      Dict.get String.eqb brewer palette = Ok table ->
      palette_ok table ->
      pprint_task (task_of r) (map fst dsk) label_size = Ok text ->
      exists p source,
        result_of (plot_tasks brewer [r] dsk palette label_size kw) = Ok p /\
        glyphs p = [Rects source 1 "gray"] /\
        data_function source = [text] /\
        data_width source = [end_time r - start_time r]) /\
  (forall (brewer : catalog) s palette kw (table : palette_table) colors,
      Dict.get String.eqb brewer palette = Ok table ->
      Dict.get Nat.eqb table 6%nat = Ok colors ->
      (3 <= List.length colors)%nat ->
      exists p left,
        result_of (plot_resources brewer [s] palette kw) = Ok p /\
        chart_series p = [([fst (fst s) - left], [snd s]);
                          ([fst (fst s) - left], [snd (fst s)])]).
Proof.
  split; [reflexivity|]. split; [reflexivity|]. split.
  - intros brewer r dsk palette label_size kw table text Htable Hok Htext.
    destruct (@plot_tasks_ok brewer [r] dsk palette label_size kw table [text])
      as (p & Hp); try assumption; [discriminate| |].
    { cbn [map mapM]. rewrite Htext. reflexivity. }
    exists p. pose proof Hp as Hinv.
    apply plot_tasks_inv in Hinv
      as (left & right & y & funcs & color & _ & _ & _ & Hf & _ & _ & _ & Hg).
    cbn [map mapM] in Hf. rewrite Htext in Hf. injection Hf as <-.
    eexists. split; [exact Hp|]. split; [exact Hg|]. split; reflexivity.
  - intros brewer s palette kw table colors Htable Hcolors Hlen.
    destruct (@plot_resources_ok brewer [s] palette kw table colors)
      as (p & Hp); try assumption; [discriminate|].
    exists p. pose proof Hp as Hinv.
    apply plot_resources_inv in Hinv
      as (left & right & cpu & mem & c0 & c2 & _ & _ & _ & _ & _ & _ & _ & Hg).
    exists left. split; [exact Hp|]. unfold chart_series. rewrite Hg. reflexivity.
Qed.

Lemma empty_and_single_input_witness :
  Dict.get String.eqb sample_brewer "GnBu"%string = Ok GnBu /\
  palette_ok GnBu /\
  pprint_task (Call (Fn add) [Leaf (Str "a"); Leaf (Str "b")]) (map fst sample_dsk) 60
  = Ok "add(_, _)"%string /\
  Dict.get Nat.eqb GnBu 6%nat
  = Ok ["#0868ac"; "#43a2ca"; "#7bccc4"; "#a8ddb5"; "#ccebc5"; "#f0f9e8"]%string /\
  (3 <= 6)%nat /\
  (exists p source,
      result_of (plot_tasks sample_brewer
                   [record "c" (Call (Fn add) [Leaf (Str "a"); Leaf (Str "b")]) 0 10 1]
                   sample_dsk "GnBu" 60 no_kwargs) = Ok p /\
      glyphs p = [Rects source 1 "gray"] /\
      data_function source = ["add(_, _)"%string] /\
      data_width source = [10 - 0]) /\
  (exists p left,
      result_of (plot_resources sample_brewer [(0, 10, 100)] "GnBu" no_kwargs) = Ok p /\
      chart_series p = [([0 - left], [100]); ([0 - left], [10])]).
Proof.
  split; [reflexivity|]. split; [exact GnBu_ok|]. split; [reflexivity|].
  split; [reflexivity|]. split; [lia|]. split.
  - exact (proj1 (proj2 (proj2 empty_and_single_input))
             sample_brewer
             (record "c" (Call (Fn add) [Leaf (Str "a"); Leaf (Str "b")]) 0 10 1)
             sample_dsk "GnBu"%string 60%Z no_kwargs GnBu "add(_, _)"%string
             eq_refl GnBu_ok eq_refl).
  - exact (proj2 (proj2 (proj2 empty_and_single_input))
             sample_brewer (0, 10, 100) "GnBu"%string no_kwargs GnBu
             ["#0868ac"; "#43a2ca"; "#7bccc4"; "#a8ddb5"; "#ccebc5"; "#f0f9e8"]%string
             eq_refl eq_refl ltac:(cbn; lia)).
Defined.

(** C7, as the claim has it, fails: a single record whose task is a call
    without arguments makes [plot_tasks] raise. *)
Lemma single_record_may_fail :
  ~ single_record_succeeds sample_brewer sample_dsk "GnBu" 60 no_kwargs.
Proof.
  intros H. destruct (H no_args_record) as (p & Hp).
  vm_compute in Hp. discriminate.
Qed.

(** ** The examples of the documentation *)

Example pprint_task_c :
  pprint_task (Call (Fn add) [Leaf (Str "a"); Leaf (Str "b")]) sample_keys 60
  = Ok "add(_, _)"%string.
Proof. reflexivity. Qed.

Example pprint_task_d :
  pprint_task (Call (Fn add) [Call (Fn mul) [Leaf (Str "a"); Leaf (Str "b")];
                              Leaf (Str "c")]) sample_keys 60
  = Ok "add(mul(_, _), _)"%string.
Proof. reflexivity. Qed.

Example pprint_task_e :
  pprint_task (Call (Fn sum) [PyList [Leaf (Str "a"); Leaf (Str "b"); Leaf (Int 5)]])
              sample_keys 60
  = Ok "sum([_, _, *])"%string.
Proof. reflexivity. Qed.

Example pprint_task_fused :
  pprint_task (Call (Fused [add; mul; inc]) [Leaf (Str "a"); Leaf Unhashable])
              sample_keys 60
  = Ok "add(mul(inc(_, *)))"%string.
Proof. reflexivity. Qed.

Example pprint_task_small_budget :
  pprint_task (Call (Fn add) [Leaf (Str "a"); Leaf (Str "b")]) sample_keys 14
  = Ok "add(...)"%string.
Proof. reflexivity. Qed.

Example pprint_task_long_list :
  pprint_task (PyList [Leaf (Int 1); Leaf (Int 2); Leaf (Int 3); Leaf (Int 4)])
              sample_keys 60
  = Ok "[*, *, *, ...]"%string.
Proof. reflexivity. Qed.

Example two_records_columns :
  exists p source,
    two_records_run = ([bp_figure; bp_ColumnDataSource; p_rect; p_select], Ok p) /\
    glyphs p = [Rects source 1 "gray"] /\
    x_range p = (0, 15 - 0) /\
    y_range p = Categories ["0"; "1"]%string /\
    data_y source = [1; 2]%nat /\
    Forall2 Qeq (data_width source) [10; 10] /\
    Forall2 Qeq (data_x source) [5; 10].
Proof.
  do 2 eexists. split; [vm_compute; reflexivity|].
  repeat split; repeat constructor.
Qed.

(** * More of the summarizer *)









(** X3: a call with arguments whose budget, less the head and the tail,
    is below six characters for each argument is rendered with the
    arguments elided, whatever they are. *)
Theorem pprint_task_elides func args keys label_size :
  args <> [] ->
  (label_size - len (head_of func) - len (tail_of func)
   < 6 * Z.of_nat (List.length args))%Z ->
  pprint_task (Call func args) keys label_size
  = Ok (head_of func ++ "(" ++ "..." ++ tail_of func)%string.
Proof.
  intros Hne Hlt. rewrite pprint_task_call.
  set (k := Z.of_nat (List.length args)) in *.
  set (b := (label_size - len (head_of func) - len (tail_of func))%Z) in *.
  assert (Hk : (0 < k)%Z) by (unfold k; destruct args; [congruence|cbn [List.length]; lia]).
  assert (Hdiv : int_div b (List.length args) = Ok (Z.quot b k))
    by (unfold k; destruct args; [congruence|reflexivity]).
  assert (Hq : (Z.quot b k <= 5)%Z).
  { destruct (Z_lt_le_dec b 0) as [Hneg|Hpos].
    - assert (Z.quot b k <= 0)%Z by (apply Z.quot_le_upper_bound; lia || nia). lia.
    - assert (Z.quot b k < 6)%Z by (apply Z.quot_lt_upper_bound; lia). lia. }
  apply Z.ltb_ge in Hq. rewrite Hdiv. cbn [bind]. rewrite Hq. reflexivity.
Qed.

Lemma pprint_task_elides_witness :
  [Leaf (Str "a"); Leaf (Str "b")] <> [] /\
  (14 - len (head_of (Fn add)) - len (tail_of (Fn add)) < 6 * Z.of_nat 2)%Z /\
  pprint_task (Call (Fn add) [Leaf (Str "a"); Leaf (Str "b")]) sample_keys 14
  = Ok "add(...)"%string.
Proof.
  assert (H1 : [Leaf (Str "a"); Leaf (Str "b")] <> []) by discriminate.
  assert (H2 : (14 - len (head_of (Fn add)) - len (tail_of (Fn add)) < 6 * Z.of_nat 2)%Z)
    by (vm_compute; reflexivity).
  split; [exact H1|]. split; [exact H2|].
  exact (@pprint_task_elides (Fn add) [Leaf (Str "a"); Leaf (Str "b")] sample_keys 14 H1 H2).
Defined.

(** X4: of a list, [pprint_task] looks at the first three items and at
    whether there are more, never at what the further items are. *)
Theorem pprint_task_first_three a b c rest rest' keys label_size :
  rest <> [] -> rest' <> [] ->
  pprint_task (PyList (a :: b :: c :: rest)) keys label_size
  = pprint_task (PyList (a :: b :: c :: rest')) keys label_size.
Proof.
  intros Hr Hr'. rewrite !pprint_task_list. cbv zeta. cbn [firstn List.length].
  destruct rest; [congruence|]. destruct rest'; [congruence|]. reflexivity.
Qed.

Lemma pprint_task_first_three_witness :
  [Leaf (Int 4)] <> [] /\ [Call (Fn inc) []; PyList []] <> [] /\
  pprint_task (PyList [Leaf (Int 1); Leaf (Int 2); Leaf (Int 3); Leaf (Int 4)])
              sample_keys 60
  = pprint_task (PyList [Leaf (Int 1); Leaf (Int 2); Leaf (Int 3);
                         Call (Fn inc) []; PyList []]) sample_keys 60.
Proof.
  assert (H1 : [Leaf (Int 4)] <> []) by discriminate.
  assert (H2 : [Call (Fn inc) []; PyList []] <> []) by discriminate.
  split; [exact H1|]. split; [exact H2|].
  exact (@pprint_task_first_three (Leaf (Int 1)) (Leaf (Int 2)) (Leaf (Int 3))
           [Leaf (Int 4)] [Call (Fn inc) []; PyList []] sample_keys 60 H1 H2).
Defined.

(** * More of the color assignment *)

Section Missing.
Variables K V : Type.
Variable eqb : K -> K -> bool.
Hypothesis eqb_eq : forall a b, eqb a b = true <-> a = b.

Lemma get_missing (d : list (K * V)) k :
  ~ In k (map fst d) -> Dict.get eqb d k = Raise KeyError.
Proof.
  induction d as [|[k' v] d IH]; cbn [Dict.get map In fst]; [reflexivity|].
  intros H. destruct (eqb k k') eqn:E.
  - apply eqb_eq in E. subst. tauto.
  - apply IH. tauto.
Qed.

Lemma get_raises (d : list (K * V)) k e :
  Dict.get eqb d k = Raise e -> e = KeyError /\ ~ In k (map fst d).
Proof.
  induction d as [|[k' v] d IH]; cbn [Dict.get map In fst].
  - intros [= <-]. tauto.
  - destruct (eqb k k') eqn:E; [discriminate|].
    intros H. destruct (IH H) as [-> Hn]. split; [reflexivity|].
    intros [<-|Hin]; [|tauto].
    rewrite (eqb_refl eqb eqb_eq) in E. discriminate.
Qed.

Lemma get_set_same (d : list (K * V)) k v : Dict.get eqb (Dict.set eqb d k v) k = Ok v.
Proof.
  induction d as [|[k' v'] d IH]; cbn [Dict.set Dict.get].
  - now rewrite (eqb_refl eqb eqb_eq).
  - destruct (eqb k k') eqn:E; cbn [Dict.get]; rewrite E; [reflexivity|exact IH].
Qed.

Lemma get_set_other (d : list (K * V)) k k' v :
  k <> k' -> Dict.get eqb (Dict.set eqb d k v) k' = Dict.get eqb d k'.
Proof.
  intros Hne. induction d as [|[k0 v0] d IH]; cbn [Dict.set Dict.get].
  - destruct (eqb k' k) eqn:E; [|reflexivity]. apply eqb_eq in E. congruence.
  - destruct (eqb k k0) eqn:E; cbn [Dict.get].
    + apply eqb_eq in E. subst k0.
      destruct (eqb k' k) eqn:E'; [|reflexivity]. apply eqb_eq in E'. congruence.
    + destruct (eqb k' k0); [reflexivity|exact IH].
Qed.
End Missing.

(** X5: a palette name that is not in the catalog makes [get_colors]
    raise [KeyError], whatever the labels. *)
Theorem get_colors_unknown_palette (brewer : catalog) palette funcs :
  ~ In palette (map fst brewer) -> get_colors brewer palette funcs = Raise KeyError.
Proof.
  intros H. unfold get_colors.
  now rewrite (get_missing String.eqb String.eqb_eq brewer palette H).
Qed.

Lemma get_colors_unknown_palette_witness :
  ~ In "Blues"%string (map fst sample_brewer) /\
  get_colors sample_brewer "Blues" ["add"; "mul"]%string = Raise KeyError.
Proof.
  assert (H : ~ In "Blues"%string (map fst sample_brewer))
    by (cbn; intros [H|[]]; discriminate).
  split; [exact H|].
  exact (@get_colors_unknown_palette sample_brewer "Blues"%string
           ["add"; "mul"]%string H).
Defined.

Lemma strictly_sorted_ext : forall l l' : list string,
  StronglySorted (fun a b => String.ltb a b = true) l ->
  StronglySorted (fun a b => String.ltb a b = true) l' ->
  (forall a, In a l <-> In a l') -> l = l'.
Proof.
  induction l as [|x l IH]; intros [|y l'] Hs Hs' Hin.
  - reflexivity.
  - exfalso. apply (proj2 (Hin y)). now left.
  - exfalso. apply (proj1 (Hin x)). now left.
  - inversion Hs as [|? ? Hsl Hx]; subst. inversion Hs' as [|? ? Hsl' Hy]; subst.
    rewrite Forall_forall in Hx, Hy.
    assert (Exy : x = y).
    { destruct (proj1 (Hin x) (or_introl eq_refl)) as [E|Hxl']; [now symmetry|].
      destruct (proj2 (Hin y) (or_introl eq_refl)) as [E|Hyl]; [exact E|].
      apply Hy in Hxl'. apply Hx in Hyl. apply string_ltb_asym in Hxl'. congruence. }
    subst y. f_equal. apply IH; try assumption.
    intros a. split; intros Ha.
    + destruct (proj1 (Hin a) (or_intror Ha)) as [<-|H]; [|exact H].
      apply Hx in Ha. rewrite string_ltb_irrefl in Ha. discriminate.
    + destruct (proj2 (Hin a) (or_intror Ha)) as [<-|H]; [|exact H].
      apply Hy in Ha. rewrite string_ltb_irrefl in Ha. discriminate.
Qed.

Lemma sorted_labels_ext funcs funcs' :
  (forall a, In a funcs <-> In a funcs') -> sorted_labels funcs = sorted_labels funcs'.
Proof.
  intros H. apply strictly_sorted_ext; try apply sorted_labels_sorted.
  intros a. rewrite !sorted_labels_In. apply H.
Qed.

Lemma get_colors_shared_lookup (brewer : catalog) palette funcs funcs' colors colors' :
  sorted_labels funcs = sorted_labels funcs' ->
  get_colors brewer palette funcs = Ok colors ->
  get_colors brewer palette funcs' = Ok colors' ->
  exists color_lookup,
    mapM (fun n => Dict.get String.eqb color_lookup n) funcs = Ok colors /\
    mapM (fun n => Dict.get String.eqb color_lookup n) funcs' = Ok colors'.
Proof.
  intros E. unfold get_colors. fold (sorted_labels funcs). fold (sorted_labels funcs').
  rewrite <- E.
  destruct (Dict.get String.eqb brewer palette) as [table|]; [|discriminate].
  cbn [bind].
  destruct (Seq.min Nat.ltb (map fst table)) as [low|]; [|discriminate]. cbn [bind].
  destruct (Seq.max Nat.ltb (map fst table)) as [high|]; [|discriminate]. cbn [bind].
  match goal with |- (colors <- ?m ;; _) = _ -> _ => destruct m as [cs|] end;
    [|discriminate].
  cbn [bind]. intros H H'. eexists. split; [exact H|exact H'].
Qed.

(** X6: the color of a label depends on the set of labels only.  Two
    calls of [get_colors] with the same palette whose label sequences hold
    the same labels, in any order and with any repeats, give each label
    the same color. *)
Theorem get_colors_label_set (brewer : catalog) palette funcs funcs' colors colors' :
  (forall a, In a funcs <-> In a funcs') ->
  get_colors brewer palette funcs = Ok colors ->
  get_colors brewer palette funcs' = Ok colors' ->
  forall i j a,
    nth_error funcs i = Some a -> nth_error funcs' j = Some a ->
    nth_error colors i = nth_error colors' j.
Proof.
  intros Hset H H' i j a Hi Hj.
  destruct (get_colors_shared_lookup _ _ _ _ (sorted_labels_ext _ _ Hset) H H')
    as (lookup & Hl & Hl').
  destruct (mapM_Ok_nth _ _ i Hl Hi) as (c & Hc & Hget).
  destruct (mapM_Ok_nth _ _ j Hl' Hj) as (c' & Hc' & Hget').
  congruence.
Qed.

Lemma get_colors_label_set_witness :
  (forall a, In a ["mul"; "add"; "mul"]%string <-> In a ["add"; "mul"]%string) /\
  get_colors sample_brewer "GnBu" ["mul"; "add"; "mul"]%string
  = Ok ["#a8ddb5"; "#43a2ca"; "#a8ddb5"]%string /\
  get_colors sample_brewer "GnBu" ["add"; "mul"]%string
  = Ok ["#43a2ca"; "#a8ddb5"]%string /\
  nth_error ["#a8ddb5"; "#43a2ca"; "#a8ddb5"]%string 2
  = nth_error ["#43a2ca"; "#a8ddb5"]%string 1.
Proof.
  assert (Hset : forall a, In a ["mul"; "add"; "mul"]%string <-> In a ["add"; "mul"]%string)
    by (intros a; cbn [In]; tauto).
  split; [exact Hset|]. split; [reflexivity|]. split; [reflexivity|].
  exact (@get_colors_label_set sample_brewer "GnBu"%string
           ["mul"; "add"; "mul"]%string ["add"; "mul"]%string _ _
           Hset eq_refl eq_refl 2%nat 1%nat "mul"%string eq_refl eq_refl).
Defined.

(** * More of the task timeline *)

Lemma mapM_Ok_Forall2 (A B : Type) (f : A -> outcome B) :
  forall l l', mapM f l = Ok l' -> Forall2 (fun a b => f a = Ok b) l l'.
Proof.
  induction l as [|x l IH]; cbn [mapM]; intros l'.
  - intros [= <-]. constructor.
  - destruct (f x) as [y|] eqn:E; [|discriminate]. cbn [bind].
    destruct (mapM f l) as [ys|]; [|discriminate]. cbn [bind]. intros [= <-].
    constructor; [exact E|now apply IH].
Qed.

Lemma get_colors_length (brewer : catalog) palette funcs colors :
  get_colors brewer palette funcs = Ok colors -> List.length colors = List.length funcs.
Proof.
  intros H. apply get_colors_lookup in H as (lookup & H).
  now apply mapM_Ok_length in H.
Qed.

Lemma id_lk_length results :
  List.length (id_lk_of results) = List.length (workers_of results).
Proof.
  rewrite id_lk_of_spec, length_combine, length_seq, Nat.min_id.
  apply Permutation_length, ranking_perm.
Qed.

(** X7: in a chart that [plot_tasks] returns, the six columns of the data
    source all have one entry per record. *)
Theorem plot_tasks_columns brewer results dsk palette label_size kw p :
  result_of (plot_tasks brewer results dsk palette label_size kw) = Ok p ->
  exists source,
    glyphs p = [Rects source 1 "gray"] /\
    List.length (data_width source) = List.length results /\
    List.length (data_x source) = List.length results /\
    List.length (data_y source) = List.length results /\
    List.length (data_function source) = List.length results /\
    List.length (data_color source) = List.length results /\
    List.length (data_key source) = List.length results.
Proof.
  intros H.
  apply plot_tasks_inv in H
    as (left & right & y & funcs & color & _ & _ & Hy & Hf & Hc & _ & _ & Hg).
  eexists. split; [exact Hg|].
  cbn [data_width data_x data_y data_function data_color data_key].
  apply mapM_Ok_length in Hy, Hf. apply get_colors_length in Hc.
  rewrite length_map in Hy, Hf. rewrite !length_map.
  repeat split; congruence.
Qed.

Lemma plot_tasks_columns_witness :
  exists p, result_of two_records_run = Ok p /\
  exists source,
    glyphs p = [Rects source 1 "gray"] /\
    List.length (data_width source) = List.length two_records /\
    List.length (data_x source) = List.length two_records /\
    List.length (data_y source) = List.length two_records /\
    List.length (data_function source) = List.length two_records /\
    List.length (data_color source) = List.length two_records /\
    List.length (data_key source) = List.length two_records.
Proof.
  eexists. split.
  - vm_compute. reflexivity.
  - apply (@plot_tasks_columns sample_brewer two_records sample_dsk "GnBu"%string 60%Z
             no_kwargs).
    vm_compute. reflexivity.
Defined.

(** X8: when no task ends before it starts, every rectangle of the chart
    has a width that is not negative and its centre inside the
    horizontal range, which starts at 0.  Nothing is said of the edges
    x - width/2 and x + width/2: they meet the ends of the range in
    exact arithmetic only, while the place of the centre rests on the
    order of the times, which each rounded operation keeps. *)
Theorem rectangle_centres_in_range brewer results dsk palette label_size kw p :
  Forall (fun r => start_time r <= end_time r) results ->
  result_of (plot_tasks brewer results dsk palette label_size kw) = Ok p ->
  exists source,
    glyphs p = [Rects source 1 "gray"] /\
    fst (x_range p) == 0 /\
    Forall (fun w => 0 <= w) (data_width source) /\
    Forall (fun x => 0 <= x <= snd (x_range p)) (data_x source).
Proof.
  intros Hord H.
  apply plot_tasks_inv in H
    as (left & right & y & funcs & color & Hmin & Hmax & _ & _ & _ & Hx & _ & Hg).
  apply min_inv in Hmin. apply max_inv in Hmax.
  destruct Hmin as [_ Hmin]. destruct Hmax as [_ Hmax].
  rewrite Forall_forall in Hord.
  eexists. split; [exact Hg|]. rewrite Hx. cbn [fst snd data_width data_x].
  split; [reflexivity|].
  split; apply Forall_map, Forall_forall; intros r Hr.
  - specialize (Hord r Hr). lra.
  - specialize (Hord r Hr).
    assert (Hs : left <= start_time r) by (apply Hmin; now apply in_map).
    assert (He : end_time r <= right) by (apply Hmax; now apply in_map).
    split.
    + setoid_replace ((end_time r - start_time r) / 2 + start_time r - left)
        with ((end_time r - start_time r) / 2 + (start_time r - left)) by ring.
      assert (0 <= (end_time r - start_time r) / 2)
        by (apply Qle_shift_div_l; [reflexivity|lra]).
      lra.
    + assert ((end_time r - start_time r) / 2 <= end_time r - start_time r)
        by (apply Qle_shift_div_r; [reflexivity|lra]).
      lra.
Qed.

Lemma rectangle_centres_in_range_witness :
  Forall (fun r => start_time r <= end_time r) two_records /\
  exists p, result_of two_records_run = Ok p /\
  exists source,
    glyphs p = [Rects source 1 "gray"] /\
    fst (x_range p) == 0 /\
    Forall (fun w => 0 <= w) (data_width source) /\
    Forall (fun x => 0 <= x <= snd (x_range p)) (data_x source).
Proof.
  assert (Hord : Forall (fun r => start_time r <= end_time r) two_records)
    by (repeat constructor; discriminate).
  split; [exact Hord|].
  eexists. split.
  - vm_compute. reflexivity.
  - apply (@rectangle_centres_in_range sample_brewer two_records sample_dsk "GnBu"%string
             60%Z no_kwargs); [exact Hord|].
    vm_compute. reflexivity.
Defined.

Lemma ranks_in_range results : forall ws y,
  mapM (fun i => n <- Dict.get Z.eqb (id_lk_of results) i ;; Ok (n + 1)%nat) ws = Ok y ->
  Forall (fun y => (1 <= y <= List.length (workers_of results))%nat) y.
Proof.
  intros ws y Hy. apply mapM_Ok_Forall2 in Hy.
  induction Hy as [|w b ws bs Hb _ IH]; constructor; [|exact IH].
  destruct (Dict.get Z.eqb (id_lk_of results) w) as [rank|] eqn:E; [|discriminate].
  cbn [bind] in Hb. injection Hb as <-.
  apply rank_nth in E.
  assert (rank < List.length (ranking_of results))%nat
    by (apply nth_error_Some; congruence).
  rewrite (Permutation_length (ranking_perm results)) in H. lia.
Qed.

(** X9: the vertical range of the chart has one category per worker of
    the results, labelled "0", "1", ... in order, and the y of every
    rectangle is the number of one of them, counting from 1. *)
Theorem rectangles_on_categories brewer results dsk palette label_size kw p :
  result_of (plot_tasks brewer results dsk palette label_size kw) = Ok p ->
  exists source,
    glyphs p = [Rects source 1 "gray"] /\
    y_range p = Categories (map str_of_nat (seq 0 (List.length (workers_of results)))) /\
    Forall (fun y => (1 <= y <= List.length (workers_of results))%nat) (data_y source).
Proof.
  intros H.
  apply plot_tasks_inv in H
    as (left & right & y & funcs & color & _ & _ & Hy & _ & _ & _ & Hr & Hg).
  eexists. split; [exact Hg|]. rewrite Hr, id_lk_length. split; [reflexivity|].
  cbn [data_y]. exact (ranks_in_range _ _ Hy).
Qed.

Lemma rectangles_on_categories_witness :
  exists p, result_of two_records_run = Ok p /\
  exists source,
    glyphs p = [Rects source 1 "gray"] /\
    y_range p
    = Categories (map str_of_nat (seq 0 (List.length (workers_of two_records)))) /\
    Forall (fun y => (1 <= y <= List.length (workers_of two_records))%nat)
           (data_y source).
Proof.
  eexists. split.
  - vm_compute. reflexivity.
  - apply (@rectangles_on_categories sample_brewer two_records sample_dsk "GnBu"%string
             60%Z no_kwargs).
    vm_compute. reflexivity.
Defined.

Lemma rbind_ok (A B : Type) calls (a : A) (f : A -> run B) :
  rbind (calls, Ok a) f = (calls ++ calls_of (f a), result_of (f a)).
Proof.
  cbn. now destruct (f a).
Qed.

Lemma rbind_raise (A B : Type) calls e (f : A -> run B) :
  rbind (calls, Raise e) f = (calls, Raise e).
Proof. reflexivity. Qed.

Lemma rbind_lift_ok (A B : Type) (a : A) (f : A -> run B) : rbind (lift (Ok a)) f = f a.
Proof.
  cbn. now destruct (f a).
Qed.

Lemma rbind_call (A B : Type) c (a : A) (f : A -> run B) :
  rbind (call c a) f = (c :: calls_of (f a), result_of (f a)).
Proof.
  cbn. now destruct (f a).
Qed.



(** * More of the resource chart *)

Lemma Forall_map_iff (A B : Type) (f : A -> B) (P : B -> Prop) (l : list A) :
  Forall P (map f l) <-> Forall (fun a => P (f a)) l.
Proof.
  rewrite !Forall_forall. split.
  - intros H a Ha. apply H. now apply in_map.
  - intros H b Hb. apply in_map_iff in Hb as (a & <- & Ha). now apply H.
Qed.

(** X11: in a chart that [plot_resources] returns, the two lines have one
    point per sample and the same abscissas, all of them between 0 and the
    end of the time range; no point of the first line lies above the end
    of the primary range, none of the second above the end of the memory
    range. *)
Theorem resource_lines_in_range brewer results palette kw p :
  result_of (plot_resources brewer results palette kw) = Ok p ->
  exists xs ys ms hi m,
    chart_series p = [(xs, ys); (xs, ms)] /\
    List.length xs = List.length results /\
    List.length ys = List.length results /\
    List.length ms = List.length results /\
    Forall (fun x => 0 <= x <= snd (x_range p)) xs /\
    y_range p = Interval 0 hi /\ Forall (fun v => v <= hi) ys /\
    extra_y_ranges p = [("memory"%string, (0, m))] /\ Forall (fun v => v <= m) ms.
Proof.
  intros H.
  apply plot_resources_inv in H
    as (left & right & cpu & mem & c0 & c2 & Hmin & Hmax & Hcpu & Hmem & Hx & Hy & He & Hg).
  apply min_inv in Hmin. apply max_inv in Hmax, Hcpu, Hmem.
  destruct Hmin as [_ Hmin]. destruct Hmax as [_ Hmax].
  destruct Hcpu as [_ Hcpu]. destruct Hmem as [_ Hmem].
  do 3 eexists. exists cpu, mem.
  unfold chart_series. rewrite Hg. cbn [flat_map app line_x line_y].
  split; [reflexivity|]. rewrite !length_map.
  repeat split; try assumption.
  - apply Forall_map_iff, Forall_forall. intros r Hr. rewrite Hx. cbn [snd].
    assert (left <= fst (fst r))
      by (apply Hmin; now apply (in_map (fun r => fst (fst r)))).
    assert (fst (fst r) <= right)
      by (apply Hmax; now apply (in_map (fun r => fst (fst r)))).
    split; lra.
  - apply Forall_forall. intros v Hv. now apply Hcpu.
  - apply Forall_forall. intros v Hv. now apply Hmem.
Qed.

Lemma resource_lines_in_range_witness :
  exists p,
    result_of (plot_resources sample_brewer spec_samples "GnBu" no_kwargs) = Ok p /\
    exists xs ys ms hi m,
      chart_series p = [(xs, ys); (xs, ms)] /\
      List.length xs = List.length spec_samples /\
      List.length ys = List.length spec_samples /\
      List.length ms = List.length spec_samples /\
      Forall (fun x => 0 <= x <= snd (x_range p)) xs /\
      y_range p = Interval 0 hi /\ Forall (fun v => v <= hi) ys /\
      extra_y_ranges p = [("memory"%string, (0, m))] /\ Forall (fun v => v <= m) ms.
Proof.
  eexists. split.
  - vm_compute. reflexivity.
  - apply (@resource_lines_in_range sample_brewer spec_samples "GnBu"%string no_kwargs).
    vm_compute. reflexivity.
Defined.

(** X12: given samples, a palette that is not in the catalog, or that
    has no swatch set of size 6, makes [plot_resources] raise [KeyError]
    once the figure is made and before any line is drawn. *)
Theorem plot_resources_no_six (brewer : catalog) results palette kw :
  results <> [] ->
  (forall table : palette_table,
      Dict.get String.eqb brewer palette = Ok table -> ~ In 6%nat (map fst table)) ->
  plot_resources brewer results palette kw = ([bp_figure], Raise KeyError).
Proof.
  intros Hne Hsix.
  destruct results as [|r0 rs]; [congruence|].
  unfold plot_resources. cbn [unzip3]. rewrite rbind_lift_ok.
  cbn [map Seq.min Seq.max].
  rewrite !rbind_lift_ok, rbind_call.
  destruct (Dict.get String.eqb brewer palette) as [table|e] eqn:E; cbn [bind].
  - rewrite (get_missing Nat.eqb Nat.eqb_eq table 6%nat (Hsix table eq_refl)).
    reflexivity.
  - apply (get_raises String.eqb String.eqb_eq) in E as [-> _]. reflexivity.
Qed.

Lemma plot_resources_no_six_witness :
  spec_samples <> [] /\
  (forall table : palette_table,
      Dict.get String.eqb [("Pair"%string, [(3%nat, ["#a"; "#b"; "#c"]%string)])]
               "Pair"%string = Ok table ->
      ~ In 6%nat (map fst table)) /\
  plot_resources [("Pair"%string, [(3%nat, ["#a"; "#b"; "#c"]%string)])]
                 spec_samples "Pair" no_kwargs
  = ([bp_figure], Raise KeyError).
Proof.
  assert (H1 : spec_samples <> []) by discriminate.
  assert (H2 : forall table : palette_table,
             Dict.get String.eqb [("Pair"%string, [(3%nat, ["#a"; "#b"; "#c"]%string)])]
                      "Pair"%string = Ok table ->
             ~ In 6%nat (map fst table)).
  { intros table [= <-]. cbn. intros [H|[]]. discriminate. }
  split; [exact H1|]. split; [exact H2|].
  exact (@plot_resources_no_six _ spec_samples "Pair"%string no_kwargs H1 H2).
Defined.

(** * More of the stacking *)

Lemma rbind_ret (A B : Type) (a : A) (f : A -> run B) : rbind (ret a) f = f a.
Proof.
  cbn. now destruct (f a).
Qed.

Lemma visualize_opening (P : Type) (plot : P -> kwargs -> run Figure) notebook profilers
  file_path show save kw :
  visualize plot notebook (inr profilers) file_path show save kw =
  rbind (opening_calls notebook file_path, Ok (output_path notebook file_path))
    (fun file_path =>
       figs <~ rmapM (fun prof => plot prof kw) profilers ;;
       p <~ (if (List.length figs =? 1)%nat
             then f <~ lift (index figs 0) ;; ret (Single f)
             else top <~ lift (index figs 0) ;;
                  call bp_gridplot (Grid (map (fun f => [f]) (stack top figs)))) ;;
       _ <~ (if show then call bp_show tt else ret tt) ;;
       _ <~ (if truthy file_path && save then call bp_save tt else ret tt) ;;
       ret p).
Proof.
  unfold visualize, opening_calls, output_path.
  destruct notebook; cbn [negb]; [reflexivity|].
  destruct (truthy file_path); reflexivity.
Qed.

Lemma truthy_output_path notebook file_path :
  truthy (output_path notebook file_path) = negb notebook || truthy file_path.
Proof.
  unfold output_path. destruct notebook; [reflexivity|].
  cbn [negb orb]. destruct (truthy file_path) eqn:E; [exact E|reflexivity].
Qed.

Lemma stack_cons top first rest :
  stack top (first :: rest)
  = set_side_borders (set_stacked_above first)
    :: map (fun f => set_side_borders (set_stacked_below top f)) rest.
Proof.
  unfold stack. cbn [firstn skipn app map]. now rewrite map_map.
Qed.

(** X13: with a single profiler, given by itself or in a list of one,
    [visualize] returns the figure that the profiler plots, unchanged. *)
Theorem visualize_single (P : Type) (plot : P -> kwargs -> run Figure) notebook prof
  file_path show save kw calls f :
  plot prof kw = (calls, Ok f) ->
  result_of (visualize plot notebook (inl prof) file_path show save kw) = Ok (Single f) /\
  result_of (visualize plot notebook (inr [prof]) file_path show save kw) = Ok (Single f).
Proof.
  intros H.
  assert (E : visualize plot notebook (inl prof) file_path show save kw
              = visualize plot notebook (inr [prof]) file_path show save kw)
    by reflexivity.
  rewrite E. split; rewrite visualize_opening; rewrite result_rbind;
    cbn [result_of snd bind rmapM]; rewrite result_rbind, result_rbind, H;
    cbn [result_of snd bind ret]; repeat run_step;
    cbn [List.length Nat.eqb index nth_error]; repeat run_step;
    destruct show; repeat run_step;
    destruct (truthy _ && save); repeat run_step; reflexivity.
Qed.

Lemma visualize_single_witness :
  exists calls f,
    plot_resources sample_brewer spec_samples "GnBu" no_kwargs = (calls, Ok f) /\
    result_of (visualize (fun results kw => plot_resources sample_brewer results "GnBu" kw)
                 false (inl spec_samples) None true true no_kwargs) = Ok (Single f) /\
    result_of (visualize (fun results kw => plot_resources sample_brewer results "GnBu" kw)
                 false (inr [spec_samples]) None true true no_kwargs) = Ok (Single f).
Proof.
  do 2 eexists. split; [vm_compute; reflexivity|].
  eapply (@visualize_single _
            (fun results kw => plot_resources sample_brewer results "GnBu" kw)
            false spec_samples None true true no_kwargs).
  vm_compute. reflexivity.
Defined.

(** What [visualize] does once every profiler has plotted its figure. *)
Lemma visualize_ok (P : Type) (plot : P -> kwargs -> run Figure) notebook profilers
  file_path show save kw calls top rest :
  rmapM (fun prof => plot prof kw) profilers = (calls, Ok (top :: rest)) ->
  visualize plot notebook (inr profilers) file_path show save kw =
  (opening_calls notebook file_path ++ calls
   ++ (match rest with [] => [] | _ :: _ => [bp_gridplot] end)
   ++ (if show then [bp_show] else [])
   ++ (if (negb notebook || truthy file_path) && save then [bp_save] else []),
   Ok (match rest with
       | [] => Single top
       | _ :: _ => Grid (map (fun f => [f]) (stack top (top :: rest)))
       end)).
Proof.
  intros H. rewrite visualize_opening, rbind_ok, H, !rbind_ok.
  rewrite truthy_output_path.
  destruct rest as [|second rest], show, ((negb notebook || truthy file_path) && save);
    cbn -[stack]; rewrite ?app_nil_r; reflexivity.
Qed.

(** X14: with two profilers or more, [visualize] returns a grid of one
    chart per row, in the order of the profilers.  The first chart keeps
    its title and its horizontal range and loses its axis label; every
    later chart has the horizontal range of the first, no title and a top
    margin of 20; all have side margins of 75; what the charts draw is
    left as it was. *)
Theorem visualize_stacked (P : Type) (plot : P -> kwargs -> run Figure) notebook profilers
  file_path show save kw calls top second rest :
  rmapM (fun prof => plot prof kw) profilers = (calls, Ok (top :: second :: rest)) ->
  exists top' lower,
    result_of (visualize plot notebook (inr profilers) file_path show save kw)
    = Ok (Grid ([top'] :: map (fun f => [f]) lower)) /\
    List.length lower = S (List.length rest) /\
    title top' = title top /\ x_range top' = x_range top /\
    xaxis_label top' = None /\ min_border_bottom top' = Some 20%Z /\
    Forall (fun f => x_range f = x_range top /\ title f = None /\
                     min_border_top f = Some 20%Z) lower /\
    Forall (fun f => min_border_left f = Some 75%Z /\ min_border_right f = Some 75%Z)
           (top' :: lower) /\
    map glyphs (top' :: lower) = map glyphs (top :: second :: rest) /\
    map y_range (top' :: lower) = map y_range (top :: second :: rest).
Proof.
  intros H. rewrite (visualize_ok _ _ _ _ _ _ _ H). cbn [result_of snd].
  rewrite stack_cons. cbn [map].
  exists (set_side_borders (set_stacked_above top)),
         (map (fun f => set_side_borders (set_stacked_below top f)) (second :: rest)).
  split; [reflexivity|]. rewrite length_map. cbn [List.length].
  repeat split.
  - apply Forall_map_iff, Forall_forall. intros f _. repeat split.
  - constructor; [split; reflexivity|].
    apply Forall_map_iff, Forall_forall. intros f _. split; reflexivity.
  - cbn [map]. do 2 f_equal. rewrite map_map. reflexivity.
  - cbn [map]. do 2 f_equal. rewrite map_map. reflexivity.
Qed.

Lemma visualize_stacked_witness :
  exists calls top second,
    rmapM (fun prof => plot_resources sample_brewer prof "GnBu" no_kwargs)
          [spec_samples; shuffled_samples] = (calls, Ok [top; second]) /\
    exists top' lower,
      result_of (visualize (fun prof kw => plot_resources sample_brewer prof "GnBu" kw)
                   true (inr [spec_samples; shuffled_samples]) None false false no_kwargs)
      = Ok (Grid ([top'] :: map (fun f => [f]) lower)) /\
      List.length lower = S (List.length (@nil Figure)) /\
      title top' = title top /\ x_range top' = x_range top /\
      xaxis_label top' = None /\ min_border_bottom top' = Some 20%Z /\
      Forall (fun f => x_range f = x_range top /\ title f = None /\
                       min_border_top f = Some 20%Z) lower /\
      Forall (fun f => min_border_left f = Some 75%Z /\ min_border_right f = Some 75%Z)
             (top' :: lower) /\
      map glyphs (top' :: lower) = map glyphs [top; second] /\
      map y_range (top' :: lower) = map y_range [top; second].
Proof.
  do 3 eexists. split; [vm_compute; reflexivity|].
  eapply (@visualize_stacked _
            (fun prof kw => plot_resources sample_brewer prof "GnBu" kw)
            true [spec_samples; shuffled_samples] None false false no_kwargs)
    with (rest := []).
  vm_compute. reflexivity.
Defined.

(** X15: when every profiler has plotted its figure, the calls that
    [visualize] has made are, in this order: outside a notebook the
    opening of the output file, named "profile.html" when no name is
    given; the calls of the profilers; [gridplot] when there are two
    charts or more; [show] when asked for; [save] when asked for and
    either a file name is given or the code runs outside a notebook. *)
Theorem visualize_calls (P : Type) (plot : P -> kwargs -> run Figure) notebook profilers
  file_path show save kw calls figs :
  rmapM (fun prof => plot prof kw) profilers = (calls, Ok figs) ->
  figs <> [] ->
  calls_of (visualize plot notebook (inr profilers) file_path show save kw) =
  (if notebook then []
   else [bp_output_file (if truthy file_path then override EmptyString file_path
                         else "profile.html"%string)])
  ++ calls
  ++ (if (List.length figs =? 1)%nat then [] else [bp_gridplot])
  ++ (if show then [bp_show] else [])
  ++ (if (negb notebook || truthy file_path) && save then [bp_save] else []).
Proof.
  intros H Hne. destruct figs as [|top rest]; [congruence|].
  rewrite (visualize_ok _ _ _ _ _ _ _ H). cbn [calls_of fst].
  f_equal.
  - unfold opening_calls, output_path. destruct notebook; [reflexivity|].
    destruct (truthy file_path); reflexivity.
  - destruct rest; reflexivity.
Qed.

Lemma visualize_calls_witness :
  exists calls figs,
    rmapM (fun prof => plot_resources sample_brewer prof "GnBu" no_kwargs)
          [spec_samples; shuffled_samples] = (calls, Ok figs) /\
    figs <> [] /\
    calls_of (visualize (fun prof kw => plot_resources sample_brewer prof "GnBu" kw)
                false (inr [spec_samples; shuffled_samples]) None true true no_kwargs)
    = [bp_output_file "profile.html"] ++ calls ++ [bp_gridplot] ++ [bp_show] ++ [bp_save].
Proof.
  assert (H : exists calls top second,
             rmapM (fun prof => plot_resources sample_brewer prof "GnBu" no_kwargs)
                   [spec_samples; shuffled_samples] = (calls, Ok [top; second]))
    by (do 3 eexists; vm_compute; reflexivity).
  destruct H as (calls & top & second & H).
  assert (Hne : [top; second] <> []) by discriminate.
  exists calls, [top; second]. split; [exact H|]. split; [exact Hne|].
  exact (@visualize_calls _
           (fun prof kw => plot_resources sample_brewer prof "GnBu" kw)
           false [spec_samples; shuffled_samples] None true true no_kwargs
           calls [top; second] H Hne).
Defined.

(** X16: an empty list of profilers makes [visualize] raise [IndexError];
    nothing is shown or saved. *)
Theorem visualize_no_profilers (P : Type) (plot : P -> kwargs -> run Figure) notebook
  file_path show save kw :
  visualize plot notebook (inr []) file_path show save kw
  = (opening_calls notebook file_path, Raise IndexError).
Proof.
  rewrite visualize_opening, rbind_ok. cbn. now rewrite app_nil_r.
Qed.

(** X17: when a profiler fails to plot, [visualize] fails with the same
    exception; it has made the calls up to the failure and neither
    [gridplot], [show] nor [save]. *)
Theorem visualize_plot_fails (P : Type) (plot : P -> kwargs -> run Figure) notebook
  profilers file_path show save kw calls e :
  rmapM (fun prof => plot prof kw) profilers = (calls, Raise e) ->
  visualize plot notebook (inr profilers) file_path show save kw
  = (opening_calls notebook file_path ++ calls, Raise e).
Proof.
  intros H. rewrite visualize_opening, rbind_ok, H. reflexivity.
Qed.

Lemma visualize_plot_fails_witness :
  rmapM (fun prof => plot_resources sample_brewer prof "GnBu" no_kwargs) [spec_samples; []]
  = ([bp_figure; p_line "% CPU"; bp_Range1d; p_line "Memory"; bp_LinearAxis; p_add_layout],
     Raise ValueError) /\
  visualize (fun prof kw => plot_resources sample_brewer prof "GnBu" kw)
            true (inr [spec_samples; []]) None true true no_kwargs
  = ([bp_figure; p_line "% CPU"; bp_Range1d; p_line "Memory"; bp_LinearAxis; p_add_layout],
     Raise ValueError).
Proof.
  assert (H : rmapM (fun prof => plot_resources sample_brewer prof "GnBu" no_kwargs)
                    [spec_samples; []]
              = ([bp_figure; p_line "% CPU"; bp_Range1d; p_line "Memory";
                  bp_LinearAxis; p_add_layout], Raise ValueError))
    by (vm_compute; reflexivity).
  split; [exact H|].
  exact (@visualize_plot_fails _
           (fun prof kw => plot_resources sample_brewer prof "GnBu" kw)
           true [spec_samples; []] None true true no_kwargs _ _ H).
Defined.

(** * dask.utils: nested sequences *)

Lemma value_induction (A : Type) (P : Utils.value A -> Prop) :
  (forall a, P (Utils.Atom a)) ->
  (forall items, Forall P items -> P (Utils.PList items)) ->
  (forall items, Forall P items -> P (Utils.PTuple items)) ->
  (forall items, Forall P items -> P (Utils.PIter items)) ->
  forall v, P v.
Proof.
  intros Ha Hl Ht Hi. fix IH 1. intros [a|items|items|items].
  - apply Ha.
  - apply Hl. induction items as [|x items IHitems]; constructor; [apply IH|exact IHitems].
  - apply Ht. induction items as [|x items IHitems]; constructor; [apply IH|exact IHitems].
  - apply Hi. induction items as [|x items IHitems]; constructor; [apply IH|exact IHitems].
Qed.

Lemma map_ext_Forall (A B : Type) (f g : A -> B) (l : list A) :
  Forall (fun a => f a = g a) l -> map f l = map g l.
Proof.
  induction 1 as [|a l Ha _ IH]; cbn [map]; [reflexivity|]. now rewrite Ha, IH.
Qed.

(** X18: [concrete] is idempotent, and it keeps the atoms of the value,
    in their order. *)
Theorem concrete_idempotent (A : Type) (v : Utils.value A) :
  Utils.concrete (Utils.concrete v) = Utils.concrete v /\
  atoms_of (Utils.concrete v) = atoms_of v.
Proof.
  induction v as [a|items IH|items IH|items IH] using value_induction;
    cbn [Utils.concrete atoms_of]; (split; [try reflexivity|try reflexivity]).
  all: try (f_equal; rewrite map_map; apply map_ext_Forall;
            eapply Forall_impl; [|exact IH]; cbn; tauto).
  all: rewrite flat_map_concat_map, map_map, <- flat_map_concat_map;
       rewrite !flat_map_concat_map; f_equal; apply map_ext_Forall;
       eapply Forall_impl; [|exact IH]; cbn; tauto.
Qed.

(** X19: what [concrete] returns has lists for containers at every depth,
    no tuple and no iterator; and a value that is like this already is
    returned as it is. *)
Theorem concrete_only_lists (A : Type) (v : Utils.value A) :
  only_lists (Utils.concrete v) = true /\
  (only_lists v = true -> Utils.concrete v = v).
Proof.
  induction v as [a|items IH|items IH|items IH] using value_induction;
    cbn [Utils.concrete only_lists]; (split; [|try discriminate; try reflexivity]).
  all: try (rewrite forallb_forall; intros x Hx; apply in_map_iff in Hx as (y & <- & Hy);
            rewrite Forall_forall in IH; now apply IH).
  - reflexivity.
  - intros Hall. f_equal. rewrite <- (map_id items) at 2. apply map_ext_Forall.
    rewrite forallb_forall in Hall. rewrite Forall_forall in *.
    intros x Hx. apply IH; auto.
Qed.

Lemma concrete_only_lists_witness :
  only_lists (Utils.PList [Utils.Atom 1%Z; Utils.PList [Utils.Atom 2%Z]]) = true /\
  Utils.concrete (Utils.PList [Utils.Atom 1%Z; Utils.PList [Utils.Atom 2%Z]])
  = Utils.PList [Utils.Atom 1%Z; Utils.PList [Utils.Atom 2%Z]].
Proof.
  split; [reflexivity|].
  exact (proj2 (concrete_only_lists
                  (Utils.PList [Utils.Atom 1%Z; Utils.PList [Utils.Atom 2%Z]])) eq_refl).
Defined.

Lemma deepmap_from_list (A : Type) (func : list (Utils.value A) -> Utils.value A)
  items others :
  Utils.deepmap_from func (Utils.PList items) others =
  (rows <- mapM Utils.iterate others ;;
   rs <- Utils.deepmap_each func items rows ;;
   Ok (Utils.PList rs)).
Proof. reflexivity. Qed.

Lemma deepmap_from_iter (A : Type) (func : list (Utils.value A) -> Utils.value A)
  items others :
  Utils.deepmap_from func (Utils.PIter items) others =
  (rows <- mapM Utils.iterate others ;;
   rs <- Utils.deepmap_each func items rows ;;
   Ok (Utils.PList rs)).
Proof. reflexivity. Qed.

Lemma deepmap_from_leaf (A : Type) (func : list (Utils.value A) -> Utils.value A)
  first others :
  is_sequence first = false ->
  Utils.deepmap_from func first others = Ok (func (first :: others)).
Proof.
  destruct first; cbn [is_sequence]; try discriminate; reflexivity.
Qed.

Lemma deepmap_each_cons (A : Type) (func : list (Utils.value A) -> Utils.value A)
  item items rows :
  Utils.deepmap_each func (item :: items) rows =
  match Utils.next_all rows with
  | None => Ok []
  | Some (heads, tails) =>
      r <- Utils.deepmap_from func item heads ;;
      rs <- Utils.deepmap_each func items tails ;;
      Ok (r :: rs)
  end.
Proof. reflexivity. Qed.

Lemma deepmap_each_single (A : Type) (func : list (Utils.value A) -> Utils.value A)
  (g : Utils.value A -> Utils.value A) items :
  Forall (fun item => Utils.deepmap_from func item [] = Ok (g item)) items ->
  Utils.deepmap_each func items [] = Ok (map g items).
Proof.
  induction 1 as [|item items Hitem _ IH]; [reflexivity|].
  rewrite deepmap_each_cons. cbn [Utils.next_all]. rewrite Hitem, IH. reflexivity.
Qed.

Lemma deepmap_single (A : Type) (func : list (Utils.value A) -> Utils.value A) v :
  Utils.deepmap_from func v [] = Ok (map_inside (fun x => func [x]) v).
Proof.
  induction v as [a|items IH|items IH|items IH] using value_induction;
    try reflexivity.
  - rewrite deepmap_from_list. cbn [mapM bind map_inside].
    now rewrite (@deepmap_each_single A func _ items IH).
  - rewrite deepmap_from_iter. cbn [mapM bind map_inside].
    now rewrite (@deepmap_each_single A func _ items IH).
Qed.

Lemma map_inside_leaf (A : Type) (g : Utils.value A -> Utils.value A) v :
  is_sequence v = false -> map_inside g v = g v.
Proof.
  destruct v; cbn [is_sequence]; try discriminate; reflexivity.
Qed.

Lemma map_inside_compose (A : Type) (f g : Utils.value A -> Utils.value A) :
  (forall x, is_sequence (f x) = false) ->
  forall v, map_inside g (map_inside f v) = map_inside (fun x => g (f x)) v.
Proof.
  intros Hf. induction v as [a|items IH|items IH|items IH] using value_induction;
    cbn [map_inside]; try (now apply map_inside_leaf).
  all: f_equal; rewrite map_map; now apply map_ext_Forall.
Qed.

(** X20: given one sequence, [deepmap] never raises.  It goes into lists
    and iterators at any depth, which come out as lists of the same
    lengths, and applies the function to everything else, a tuple
    included, where it stands. *)
Theorem deepmap_one_sequence (A : Type) (func : list (Utils.value A) -> Utils.value A) v :
  Utils.deepmap func [v] = Ok (map_inside (fun x => func [x]) v).
Proof.
  apply deepmap_single.
Qed.

(** X21: two [deepmap]s over one sequence fuse: when the first function
    never returns a list or an iterator, mapping [g] over the result of
    mapping [f] is mapping their composition. *)
Theorem deepmap_compose (A : Type) (f g : list (Utils.value A) -> Utils.value A) v r :
  (forall x, is_sequence (f [x]) = false) ->
  Utils.deepmap f [v] = Ok r ->
  Utils.deepmap g [r] = Utils.deepmap (fun args => g [f args]) [v].
Proof.
  intros Hf H. cbn [Utils.deepmap] in *.
  rewrite deepmap_single in H. injection H as <-.
  rewrite !deepmap_single. f_equal.
  apply (@map_inside_compose A (fun x => f [x]) (fun x => g [x]) Hf).
Qed.

Lemma deepmap_compose_witness :
  let inc := fun args : list (Utils.value Z) =>
               match args with
               | [Utils.Atom z] => Utils.Atom (z + 1)%Z
               | _ => Utils.Atom 0%Z
               end in
  let data := Utils.PList [Utils.PList [Utils.Atom 1%Z; Utils.Atom 2%Z];
                           Utils.PIter [Utils.Atom 3%Z; Utils.Atom 4%Z]] in
  (forall x, is_sequence (inc [x]) = false) /\
  Utils.deepmap inc [data]
  = Ok (Utils.PList [Utils.PList [Utils.Atom 2%Z; Utils.Atom 3%Z];
                     Utils.PList [Utils.Atom 4%Z; Utils.Atom 5%Z]]) /\
  Utils.deepmap inc [Utils.PList [Utils.PList [Utils.Atom 2%Z; Utils.Atom 3%Z];
                                  Utils.PList [Utils.Atom 4%Z; Utils.Atom 5%Z]]]
  = Utils.deepmap (fun args => inc [inc args]) [data].
Proof.
  intros inc data.
  assert (H : forall x, is_sequence (inc [x]) = false) by (intros [|?|?|?]; reflexivity).
  split; [exact H|]. split; [reflexivity|].
  exact (@deepmap_compose Z inc inc data _ H eq_refl).
Defined.

Lemma deepmap_each_pairs (A : Type) (func : list (Utils.value A) -> Utils.value A) :
  forall xs ys : list A,
    Utils.deepmap_each func (map Utils.Atom xs) [map Utils.Atom ys]
    = Ok (map (fun p => func [Utils.Atom (fst p); Utils.Atom (snd p)]) (combine xs ys)).
Proof.
  induction xs as [|x xs IH]; intros [|y ys]; try reflexivity.
  cbn [map]. rewrite deepmap_each_cons. cbn [Utils.next_all].
  rewrite deepmap_from_leaf by reflexivity. cbn [bind].
  rewrite IH. reflexivity.
Qed.

(** X22: given two flat lists, [deepmap] applies the function to the
    items pair by pair, as far as the shorter list goes. *)
Theorem deepmap_two_lists (A : Type) (func : list (Utils.value A) -> Utils.value A)
  (xs ys : list A) :
  Utils.deepmap func [Utils.PList (map Utils.Atom xs); Utils.PList (map Utils.Atom ys)]
  = Ok (Utils.PList (map (fun p => func [Utils.Atom (fst p); Utils.Atom (snd p)])
                         (combine xs ys))).
Proof.
  cbn [Utils.deepmap]. rewrite deepmap_from_list. cbn [mapM Utils.iterate bind].
  now rewrite deepmap_each_pairs.
Qed.

Lemma iterate_all_raises (A : Type) (others : list (Utils.value A)) a :
  In (Utils.Atom a) others -> mapM Utils.iterate others = Raise TypeError.
Proof.
  induction others as [|v others IH]; intros H; [destruct H|].
  cbn [mapM]. destruct v as [b|items|items|items]; cbn [Utils.iterate bind];
    try reflexivity.
  all: destruct H as [H|H]; [discriminate|]; now rewrite (IH H).
Qed.

(** X23: when the first sequence is a list or an iterator and one of the
    others is not iterable, [deepmap] raises [TypeError], even if the
    first sequence is empty; with no sequence at all it raises
    [IndexError]. *)
Theorem deepmap_not_iterable (A : Type) (func : list (Utils.value A) -> Utils.value A)
  first others a :
  is_sequence first = true -> In (Utils.Atom a) others ->
  Utils.deepmap func (first :: others) = Raise TypeError /\
  Utils.deepmap func [] = Raise IndexError.
Proof.
  intros Hseq Hin. split; [|reflexivity].
  cbn [Utils.deepmap].
  destruct first; cbn [is_sequence] in Hseq; try discriminate.
  - rewrite deepmap_from_list. now rewrite (@iterate_all_raises A others a Hin).
  - rewrite deepmap_from_iter. now rewrite (@iterate_all_raises A others a Hin).
Qed.

Lemma deepmap_not_iterable_witness :
  is_sequence (Utils.PList (@nil (Utils.value Z))) = true /\
  In (Utils.Atom 5%Z) [Utils.PList []; Utils.Atom 5%Z] /\
  Utils.deepmap (fun _ => Utils.Atom 0%Z)
                [Utils.PList []; Utils.PList []; Utils.Atom 5%Z] = Raise TypeError.
Proof.
  assert (H1 : is_sequence (Utils.PList (@nil (Utils.value Z))) = true) by reflexivity.
  assert (H2 : In (Utils.Atom 5%Z) [Utils.PList []; Utils.Atom 5%Z])
    by (right; left; reflexivity).
  split; [exact H1|]. split; [exact H2|].
  exact (proj1 (@deepmap_not_iterable Z (fun _ => Utils.Atom 0%Z) _ _ 5%Z H1 H2)).
Defined.

(** * dask.utils: long lists *)

Lemma string_app_assoc (a b c : string) : ((a ++ b) ++ c = a ++ (b ++ c))%string.
Proof.
  induction a as [|ch a IH]; cbn [append]; [reflexivity|]. now rewrite IH.
Qed.

Lemma drop_last_snoc (s : string) (c : Ascii.ascii) :
  Utils.drop_last (s ++ String c EmptyString) = s.
Proof.
  induction s as [|ch s IH]; [reflexivity|].
  cbn [append Utils.drop_last]. rewrite IH.
  destruct s; reflexivity.
Qed.

(** X24: of a list of eight items or more, [repr_long_list] shows the
    first three items and the last two, with ", ..., " between them, and
    nothing of the items in between. *)
Theorem repr_long_list_long (A : Type) (repr : A -> string) a b c mid y z :
  (3 <= List.length mid)%nat ->
  Utils.repr_long_list repr (a :: b :: c :: mid ++ [y; z])
  = ("[" ++ repr a ++ ", " ++ repr b ++ ", " ++ repr c ++ ", ..., "
     ++ repr y ++ ", " ++ repr z ++ "]")%string.
Proof.
  intros Hmid. unfold Utils.repr_long_list.
  assert (Hlen : List.length (a :: b :: c :: mid ++ [y; z]) = (List.length mid + 5)%nat)
    by (cbn [List.length]; rewrite length_app; cbn [List.length]; lia).
  rewrite Hlen.
  destruct (Nat.ltb_spec (List.length mid + 5) 8) as [Hlt|_]; [lia|].
  replace (List.length mid + 5 - 2)%nat with (List.length (a :: b :: c :: mid))
    by (cbn [List.length]; lia).
  change (a :: b :: c :: mid ++ [y; z]) with ((a :: b :: c :: mid) ++ [y; z]) at 2.
  rewrite skipn_app, skipn_all, Nat.sub_diag. cbn [app skipn firstn].
  unfold Utils.repr_list. cbn [map String.concat].
  change ("[" ++ (repr a ++ ", " ++ repr b ++ ", " ++ repr c) ++ "]")%string
    with (("[" ++ (repr a ++ ", " ++ repr b ++ ", " ++ repr c)) ++ "]")%string.
  rewrite drop_last_snoc.
  change (Utils.drop_first ("[" ++ (repr y ++ ", " ++ repr z) ++ "]")%string)
    with ((repr y ++ ", " ++ repr z) ++ "]")%string.
  rewrite !string_app_assoc. reflexivity.
Qed.

Lemma repr_long_list_long_witness :
  (3 <= List.length (seq 3 95))%nat /\
  Utils.repr_long_list str_of_nat (seq 0 100) = "[0, 1, 2, ..., 98, 99]"%string.
Proof.
  assert (H : (3 <= List.length (seq 3 95))%nat) by (rewrite length_seq; lia).
  split; [exact H|].
  exact (@repr_long_list_long nat str_of_nat 0%nat 1%nat 2%nat (seq 3 95) 98%nat 99%nat H).
Defined.

(** * dask.utils: single dispatch *)

Lemma type_arg_induction (T : Type) (P : Utils.type_arg T -> Prop) :
  (forall t, P (Utils.Class t)) ->
  (forall ts, Forall P ts -> P (Utils.Classes ts)) ->
  forall type, P type.
Proof.
  intros Hc Hcs. fix IH 1. intros [t|ts].
  - apply Hc.
  - apply Hcs. induction ts as [|x ts IHts]; constructor; [apply IH|exact IHts].
Qed.

Section DispatchFacts.
Variables T V R : Type.
Variable eqb : T -> T -> bool.
Hypothesis eqb_eq : forall a b, eqb a b = true <-> a = b.
Variable getmro : T -> list T.
Variable type_of : V -> T.
Implicit Types (lookup : list (T * (V -> R))) (func : V -> R).

Lemma register_classes func : forall ts lookup,
  Utils.register eqb lookup (Utils.Classes ts) func
  = fold_left (fun lk t => Utils.register eqb lk t func) ts lookup.
Proof.
  induction ts as [|t ts IH]; intros lookup; [reflexivity|].
  cbn [fold_left]. rewrite <- IH. reflexivity.
Qed.

Lemma has_key_get lookup cls :
  Utils.has_key eqb lookup cls = true <-> exists func, Dict.get eqb lookup cls = Ok func.
Proof.
  induction lookup as [|[k f] lookup IH]; cbn [Utils.has_key existsb Dict.get fst].
  - split; [discriminate|]. intros (f & H). discriminate.
  - destruct (eqb cls k); cbn [orb]; [|exact IH].
    split; [now eexists|reflexivity].
Qed.

Lemma has_key_missing lookup cls :
  Utils.has_key eqb lookup cls = false -> Dict.get eqb lookup cls = Raise KeyError.
Proof.
  induction lookup as [|[k f] lookup IH]; cbn [Utils.has_key existsb Dict.get fst];
    [reflexivity|].
  destruct (eqb cls k); cbn [orb]; [discriminate|exact IH].
Qed.

Lemma register_get func t : forall type lookup,
  Dict.get eqb (Utils.register eqb lookup type func) t
  = if existsb (eqb t) (classes_of type) then Ok func else Dict.get eqb lookup t.
Proof.
  induction type as [c|ts IH] using type_arg_induction; intros lookup.
  - cbn [Utils.register classes_of existsb]. rewrite orb_false_r.
    destruct (eqb t c) eqn:E.
    + apply eqb_eq in E. subst. apply (get_set_same eqb eqb_eq).
    + apply (get_set_other eqb eqb_eq).
      intros ->. rewrite (eqb_refl eqb eqb_eq) in E. discriminate.
  - rewrite register_classes. cbn [classes_of]. revert lookup.
    induction IH as [|x ts Hx _ IHts]; intros lookup; [reflexivity|].
    cbn [fold_left flat_map]. rewrite existsb_app, IHts, Hx.
    destruct (existsb (eqb t) (classes_of x)), (existsb (eqb t) (flat_map classes_of ts));
      reflexivity.
Qed.

Lemma call_exact lookup arg func :
  Dict.get eqb lookup (type_of arg) = Ok func ->
  Utils.call eqb getmro type_of lookup arg = Ok (func arg).
Proof.
  intros H. unfold Utils.call.
  assert (Hk : Utils.has_key eqb lookup (type_of arg) = true)
    by (apply has_key_get; now exists func).
  now rewrite Hk, H.
Qed.
End DispatchFacts.

(** X25: once a function is registered for a type, or for a tuple of
    types, nested or not, that names the type, a call on a value of just
    this type goes to that function, whatever was registered before. *)
Theorem dispatch_registered (T V R : Type) (eqb : T -> T -> bool)
  (getmro : T -> list T) (type_of : V -> T) lookup type (func : V -> R) arg :
  (forall a b, eqb a b = true <-> a = b) ->
  In (type_of arg) (classes_of type) ->
  Utils.call eqb getmro type_of (Utils.register eqb lookup type func) arg = Ok (func arg).
Proof.
  intros eqb_eq Hin. apply call_exact.
  rewrite (register_get eqb eqb_eq).
  apply (existsb_eqb_In eqb eqb_eq) in Hin. now rewrite Hin.
Qed.

Lemma dispatch_registered_witness :
  (forall a b, String.eqb a b = true <-> a = b) /\
  In (sample_type_of ("int"%string, 7%Z))
     (classes_of (Utils.Classes [Utils.Class "float"%string;
                                 Utils.Classes [Utils.Class "int"%string]])) /\
  Utils.call String.eqb sample_mro sample_type_of
    (Utils.register String.eqb [("int"%string, fun _ : string * Z => "old"%string)]
       (Utils.Classes [Utils.Class "float"%string; Utils.Classes [Utils.Class "int"%string]])
       (fun _ => "number"%string))
    ("int"%string, 7%Z)
  = Ok "number"%string.
Proof.
  assert (H : In (sample_type_of ("int"%string, 7%Z))
                 (classes_of (Utils.Classes [Utils.Class "float"%string;
                                             Utils.Classes [Utils.Class "int"%string]])))
    by (right; left; reflexivity).
  split; [exact String.eqb_eq|]. split; [exact H|].
  exact (@dispatch_registered string (string * Z) string String.eqb sample_mro
           sample_type_of [("int"%string, fun _ => "old"%string)] _
           (fun _ => "number"%string) ("int"%string, 7%Z) String.eqb_eq H).
Defined.

(** X26: when nothing is registered for the type of the value itself,
    the call goes to the function of the first class, in the order of
    the MRO after the type, that has one. *)
Theorem dispatch_nearest_ancestor (T V R : Type) (eqb : T -> T -> bool)
  (getmro : T -> list T) (type_of : V -> T) (lookup : list (T * (V -> R)))
  arg before cls after func :
  Utils.has_key eqb lookup (type_of arg) = false ->
  tl (getmro (type_of arg)) = before ++ cls :: after ->
  (forall c, In c before -> Utils.has_key eqb lookup c = false) ->
  Dict.get eqb lookup cls = Ok func ->
  Utils.call eqb getmro type_of lookup arg = Ok (func arg).
Proof.
  intros Hown Hmro Hbefore Hget. unfold Utils.call. rewrite Hown, Hmro.
  clear Hmro. induction before as [|c before IH]; cbn [app].
  - assert (Hk : Utils.has_key eqb lookup cls = true)
      by (apply has_key_get; now exists func).
    now rewrite Hk, Hget.
  - rewrite (Hbefore c) by now left. apply IH. intros c' Hc'. apply Hbefore. now right.
Qed.

Lemma dispatch_nearest_ancestor_witness :
  Utils.has_key String.eqb
    [("object"%string, fun _ : string * Z => "any"%string);
     ("int"%string, fun _ => "integer"%string)] (sample_type_of ("bool"%string, 1%Z))
  = false /\
  tl (sample_mro (sample_type_of ("bool"%string, 1%Z))) = [] ++ "int"%string :: ["object"%string] /\
  Utils.call String.eqb sample_mro sample_type_of
    [("object"%string, fun _ : string * Z => "any"%string);
     ("int"%string, fun _ => "integer"%string)] ("bool"%string, 1%Z)
  = Ok "integer"%string.
Proof.
  split; [reflexivity|]. split; [reflexivity|].
  refine (@dispatch_nearest_ancestor string (string * Z) string String.eqb sample_mro
            sample_type_of
            [("object"%string, fun _ => "any"%string);
             ("int"%string, fun _ => "integer"%string)]
            ("bool"%string, 1%Z) [] "int"%string ["object"%string]
            (fun _ => "integer"%string) eq_refl eq_refl _ eq_refl).
  intros c [].
Defined.

(** X27: when neither the type of the value nor any class after it in
    its MRO has a function, the call raises [TypeError]. *)
Theorem dispatch_no_match (T V R : Type) (eqb : T -> T -> bool)
  (getmro : T -> list T) (type_of : V -> T) (lookup : list (T * (V -> R))) arg :
  (forall c, In c (type_of arg :: tl (getmro (type_of arg))) ->
             Utils.has_key eqb lookup c = false) ->
  Utils.call eqb getmro type_of lookup arg = Raise TypeError.
Proof.
  intros H. unfold Utils.call. rewrite (H (type_of arg)) by now left.
  assert (Hrest : forall c, In c (tl (getmro (type_of arg))) ->
                            Utils.has_key eqb lookup c = false)
    by (intros c Hc; apply H; now right).
  clear H. revert Hrest.
  generalize (tl (getmro (type_of arg))) as mro.
  induction mro as [|c mro IH]; intros Hrest; [reflexivity|].
  rewrite (Hrest c (or_introl eq_refl)). apply IH. intros c' Hc'. apply Hrest. now right.
Qed.

Lemma dispatch_no_match_witness :
  (forall c, In c (sample_type_of ("str"%string, 0%Z)
                   :: tl (sample_mro (sample_type_of ("str"%string, 0%Z)))) ->
             Utils.has_key String.eqb [("int"%string, fun _ : string * Z => "integer"%string)] c
             = false) /\
  Utils.call String.eqb sample_mro sample_type_of
    [("int"%string, fun _ : string * Z => "integer"%string)] ("str"%string, 0%Z)
  = Raise TypeError.
Proof.
  assert (H : forall c, In c (sample_type_of ("str"%string, 0%Z)
                              :: tl (sample_mro (sample_type_of ("str"%string, 0%Z)))) ->
                        Utils.has_key String.eqb
                          [("int"%string, fun _ : string * Z => "integer"%string)] c
                        = false)
    by (intros c [<-|[<-|[]]]; reflexivity).
  split; [exact H|].
  exact (@dispatch_no_match string (string * Z) string String.eqb sample_mro
           sample_type_of [("int"%string, fun _ => "integer"%string)]
           ("str"%string, 0%Z) H).
Defined.

(** * dask.utils: blocks of text *)

Lemma line_length_le l : (Utils.line_length l <= List.length l)%nat.
Proof.
  induction l as [|b l IH]; cbn [Utils.line_length List.length]; [lia|].
  destruct (Byte.eqb b Byte.x0a); lia.
Qed.

Lemma skipn_S (A : Type) (l : list A) p : skipn (S p) l = tl (skipn p l).
Proof.
  revert l. induction p as [|p IH]; intros [|a l]; try reflexivity.
  change (skipn (S (S p)) (a :: l)) with (skipn (S p) l).
  change (skipn (S p) (a :: l)) with (skipn p l). apply IH.
Qed.

Lemma line_end_step bytes p : (line_end bytes p <= line_end bytes (S p))%nat.
Proof.
  unfold line_end. rewrite skipn_S.
  destruct (skipn p bytes) as [|b rest]; cbn [tl Utils.line_length]; [lia|].
  destruct (Byte.eqb b Byte.x0a); lia.
Qed.

Lemma line_end_mono bytes p q : (p <= q)%nat -> (line_end bytes p <= line_end bytes q)%nat.
Proof.
  induction 1 as [|q _ IH]; [lia|].
  pose proof (line_end_step bytes q). lia.
Qed.

Lemma readline_length bytes p :
  List.length (firstn (Utils.line_length (skipn p bytes)) (skipn p bytes))
  = Utils.line_length (skipn p bytes).
Proof.
  apply firstn_length_le, line_length_le.
Qed.

Lemma block_start_le bytes start stop :
  (0 <= start <= stop)%Z -> (1 <= stop)%Z ->
  (block_start bytes start <= line_end bytes (Z.to_nat (stop - 1)))%nat.
Proof.
  intros Hs Hstop. unfold block_start.
  destruct (Z.eqb_spec start 0) as [->|Hne]; [lia|].
  apply line_end_mono. lia.
Qed.

Lemma block_of_stop bytes start stop :
  (0 <= start <= stop)%Z -> (1 <= stop)%Z ->
  Utils.block_of bytes start (Some stop)
  = Some (firstn (line_end bytes (Z.to_nat (stop - 1)) - block_start bytes start)
                 (skipn (block_start bytes start) bytes)).
Proof.
  intros Hs Hstop.
  pose proof (block_start_le bytes Hs Hstop) as Hle.
  unfold Utils.block_of, Utils.textblock.
  unfold Utils.io_bind at 1.
  assert (Hfirst : forall pos,
             (if (start =? 0)%Z then Utils.io_ret start
              else Utils.io_bind (Utils.seek (start - 1))
                     (fun _ => Utils.io_bind Utils.readline (fun _ => Utils.tell)))
               {| Utils.content := bytes; Utils.position := pos |}
             = Utils.Done (Z.of_nat (block_start bytes start))
                 {| Utils.content := bytes;
                    Utils.position := (if (start =? 0)%Z then pos
                                       else block_start bytes start) |}).
  { intros pos. unfold block_start.
    destruct (Z.eqb_spec start 0) as [->|Hne]; [reflexivity|].
    unfold Utils.io_bind, Utils.seek.
    destruct (Z.ltb_spec (start - 1) 0) as [Hneg|_]; [lia|].
    unfold Utils.readline, Utils.tell. cbn [Utils.content Utils.position].
    rewrite readline_length. reflexivity. }
  rewrite Hfirst.
  unfold Utils.io_bind, Utils.seek.
  destruct (Z.ltb_spec (stop - 1) 0) as [Hneg|_]; [lia|].
  unfold Utils.readline, Utils.tell. cbn [Utils.content Utils.position].
  rewrite readline_length. fold (line_end bytes (Z.to_nat (stop - 1))).
  destruct (Z.ltb_spec (Z.of_nat (block_start bytes start)) 0); [lia|].
  unfold Utils.read. cbn [Utils.content Utils.position].
  rewrite Nat2Z.id.
  destruct (Z.ltb_spec (Z.of_nat (line_end bytes (Z.to_nat (stop - 1)))
                        - Z.of_nat (block_start bytes start)) 0); [lia|].
  do 2 f_equal. lia.
Qed.

Lemma block_of_rest bytes start :
  (0 <= start)%Z ->
  Utils.block_of bytes start None = Some (skipn (block_start bytes start) bytes).
Proof.
  intros Hs. unfold Utils.block_of, Utils.textblock, block_start.
  unfold Utils.io_bind at 1.
  destruct (Z.eqb_spec start 0) as [->|Hne]; [reflexivity|].
  unfold Utils.io_bind, Utils.seek.
  destruct (Z.ltb_spec (start - 1) 0) as [Hneg|_]; [lia|].
  unfold Utils.readline, Utils.tell. cbn [Utils.content Utils.position].
  rewrite readline_length. fold (line_end bytes (Z.to_nat (start - 1))).
  destruct (Z.ltb_spec (Z.of_nat (line_end bytes (Z.to_nat (start - 1)))) 0); [lia|].
  unfold Utils.read. cbn [Utils.content Utils.position]. now rewrite Nat2Z.id.
Qed.

Lemma firstn_plus (A : Type) (l : list A) : forall a b,
  firstn (a + b) l = firstn a l ++ firstn b (skipn a l).
Proof.
  intros a. revert l. induction a as [|a IH]; intros l b; [reflexivity|].
  destruct l as [|x l]; cbn [Nat.add firstn skipn app].
  - now rewrite firstn_nil.
  - now rewrite IH.
Qed.

Lemma segments_join (A : Type) (l : list A) s m e :
  (s <= m)%nat -> (m <= e)%nat ->
  firstn (m - s) (skipn s l) ++ firstn (e - m) (skipn m l) = firstn (e - s) (skipn s l).
Proof.
  intros Hsm Hme.
  replace (e - s)%nat with ((m - s) + (e - m))%nat by lia.
  rewrite firstn_plus, skipn_skipn. do 3 f_equal. lia.
Qed.

(** X28: adjacent blocks join up.  For offsets 0 <= a <= b <= c with
    b >= 1, the block from a to b followed by the block from b to c is the
    block from a to c: no byte of the file is lost or read twice where
    two blocks meet. *)
Theorem textblock_adjacent bytes a b c :
  (0 <= a <= b)%Z -> (1 <= b <= c)%Z ->
  exists x y,
    Utils.block_of bytes a (Some b) = Some x /\
    Utils.block_of bytes b (Some c) = Some y /\
    Utils.block_of bytes a (Some c) = Some (x ++ y).
Proof.
  intros Hab Hbc.
  rewrite !block_of_stop by lia.
  do 2 eexists. split; [reflexivity|]. split; [reflexivity|]. f_equal.
  assert (Eb : block_start bytes b = line_end bytes (Z.to_nat (b - 1)))
    by (unfold block_start; destruct (Z.eqb_spec b 0); [lia|reflexivity]).
  rewrite Eb. symmetry. apply segments_join.
  - apply block_start_le; lia.
  - apply line_end_mono. lia.
Qed.

Lemma textblock_adjacent_witness :
  (0 <= 1 <= 6)%Z /\ (1 <= 6 <= 10)%Z /\
  exists x y,
    Utils.block_of sample_bytes 1 (Some 6%Z) = Some x /\
    Utils.block_of sample_bytes 6 (Some 10%Z) = Some y /\
    Utils.block_of sample_bytes 1 (Some 10%Z) = Some (x ++ y).
Proof.
  assert (H1 : (0 <= 1 <= 6)%Z) by lia.
  assert (H2 : (1 <= 6 <= 10)%Z) by lia.
  split; [exact H1|]. split; [exact H2|].
  exact (@textblock_adjacent sample_bytes 1%Z 6%Z 10%Z H1 H2).
Defined.

(** X29: without a stop the block runs to the end of the file.  The block
    from 0 is the whole file, and for 0 <= a <= b with b >= 1 the block
    from a to b followed by the block from b on is the block from a on:
    blocks cut at any offsets tile the file. *)
Theorem textblock_to_the_end bytes a b :
  (0 <= a <= b)%Z -> (1 <= b)%Z ->
  Utils.block_of bytes 0 None = Some bytes /\
  exists x y,
    Utils.block_of bytes a (Some b) = Some x /\
    Utils.block_of bytes b None = Some y /\
    Utils.block_of bytes a None = Some (x ++ y).
Proof.
  intros Hab Hb. split; [reflexivity|].
  rewrite block_of_stop, !block_of_rest by lia.
  do 2 eexists. split; [reflexivity|]. split; [reflexivity|]. f_equal.
  assert (Eb : block_start bytes b = line_end bytes (Z.to_nat (b - 1)))
    by (unfold block_start; destruct (Z.eqb_spec b 0); [lia|reflexivity]).
  pose proof (block_start_le bytes Hab Hb) as Hle.
  rewrite Eb.
  rewrite <- (firstn_skipn (line_end bytes (Z.to_nat (b - 1)) - block_start bytes a)
                (skipn (block_start bytes a) bytes)) at 1.
  rewrite skipn_skipn. do 2 f_equal. lia.
Qed.

Lemma textblock_to_the_end_witness :
  (0 <= 1 <= 6)%Z /\ (1 <= 6)%Z /\
  Utils.block_of sample_bytes 0 None = Some sample_bytes /\
  exists x y,
    Utils.block_of sample_bytes 1 (Some 6%Z) = Some x /\
    Utils.block_of sample_bytes 6 None = Some y /\
    Utils.block_of sample_bytes 1 None = Some (x ++ y).
Proof.
  assert (H1 : (0 <= 1 <= 6)%Z) by lia.
  assert (H2 : (1 <= 6)%Z) by lia.
  split; [exact H1|]. split; [exact H2|].
  exact (@textblock_to_the_end sample_bytes 1%Z 6%Z H1 H2).
Defined.

Lemma line_length_newline l :
  l <> [] ->
  (1 <= Utils.line_length l)%nat /\
  (nth_error l (Utils.line_length l - 1) = Some Byte.x0a \/
   Utils.line_length l = List.length l).
Proof.
  induction l as [|b l IH]; [congruence|]. intros _.
  cbn [Utils.line_length List.length].
  destruct (Byte.eqb b Byte.x0a) eqn:E.
  - split; [lia|]. left. cbn. f_equal. now apply Byte.byte_dec_bl.
  - destruct l as [|b' l].
    + split; [cbn; lia|]. right. reflexivity.
    + destruct IH as (Hpos & [Hnl|Hlen]); [discriminate|..].
      * split; [lia|]. left.
        replace (S (Utils.line_length (b' :: l)) - 1)%nat
          with (S (Utils.line_length (b' :: l) - 1)) by lia.
        exact Hnl.
      * split; [lia|]. right. now rewrite Hlen.
Qed.

Lemma line_end_newline bytes p :
  (p < List.length bytes)%nat ->
  (p < line_end bytes p)%nat /\
  (nth_error bytes (line_end bytes p - 1) = Some Byte.x0a \/
   line_end bytes p = List.length bytes).
Proof.
  intros Hp. unfold line_end.
  assert (Hne : skipn p bytes <> [])
    by (intros E; apply skipn_all_iff in E; lia).
  destruct (line_length_newline Hne) as (Hpos & [Hnl|Hlen]).
  - split; [lia|]. left. rewrite nth_error_skipn in Hnl.
    replace (p + Utils.line_length (skipn p bytes) - 1)%nat
      with (p + (Utils.line_length (skipn p bytes) - 1))%nat by lia.
    exact Hnl.
  - split; [lia|]. right. rewrite Hlen, length_skipn. lia.
Qed.

Lemma line_end_beyond bytes p : (List.length bytes <= p)%nat -> line_end bytes p = p.
Proof.
  intros Hp. unfold line_end. rewrite skipn_all2 by exact Hp. cbn. lia.
Qed.

(** X30: a block is made of whole lines.  For 0 <= a <= b with b >= 1, a
    block that is not empty is the bytes from an offset s up to an offset
    e, where s is 0 or comes just after a newline, and e comes just after
    a newline or lies at or beyond the end of the file. *)
Theorem textblock_whole_lines bytes a b x :
  (0 <= a <= b)%Z -> (1 <= b)%Z ->
  Utils.block_of bytes a (Some b) = Some x -> x <> [] ->
  exists s e,
    (s < e)%nat /\
    x = firstn (e - s) (skipn s bytes) /\
    (s = 0%nat \/ nth_error bytes (s - 1) = Some Byte.x0a) /\
    (List.length bytes <= e \/ nth_error bytes (e - 1) = Some Byte.x0a)%nat.
Proof.
  intros Hab Hb H Hx.
  rewrite block_of_stop in H by lia. injection H as H.
  set (s := block_start bytes a) in *.
  set (e := line_end bytes (Z.to_nat (b - 1))) in *.
  assert (Hse : (s < e)%nat).
  { destruct (Nat.lt_ge_cases s e) as [Hlt|Hge]; [exact Hlt|].
    exfalso. apply Hx. rewrite <- H.
    replace (e - s)%nat with 0%nat by lia. reflexivity. }
  assert (Hs : (s < List.length bytes)%nat).
  { destruct (Nat.lt_ge_cases s (List.length bytes)) as [Hlt|Hge]; [exact Hlt|].
    exfalso. apply Hx. rewrite <- H, skipn_all2 by exact Hge. apply firstn_nil. }
  exists s, e. split; [exact Hse|]. split; [now symmetry|]. split.
  - unfold s, block_start in *.
    destruct (Z.eqb_spec a 0) as [_|Hne]; [now left|]. right.
    destruct (Nat.lt_ge_cases (Z.to_nat (a - 1)) (List.length bytes)) as [Hlt|Hge].
    + destruct (line_end_newline bytes Hlt) as (_ & [Hnl|Hlen]); [exact Hnl|lia].
    + rewrite line_end_beyond in Hs by exact Hge. lia.
  - unfold e.
    destruct (Nat.lt_ge_cases (Z.to_nat (b - 1)) (List.length bytes)) as [Hlt|Hge].
    + destruct (line_end_newline bytes Hlt) as (_ & [Hnl|Hlen]); [now right|left; lia].
    + left. rewrite line_end_beyond by exact Hge. exact Hge.
Qed.

Lemma textblock_whole_lines_witness :
  (0 <= 1 <= 10)%Z /\ (1 <= 10)%Z /\
  Utils.block_of sample_bytes 1 (Some 10%Z)
  = Some [Byte.x34; Byte.x35; Byte.x36; Byte.x0a; Byte.x37; Byte.x38; Byte.x39; Byte.x0a] /\
  exists s e,
    (s < e)%nat /\
    [Byte.x34; Byte.x35; Byte.x36; Byte.x0a; Byte.x37; Byte.x38; Byte.x39; Byte.x0a]
    = firstn (e - s) (skipn s sample_bytes) /\
    (s = 0%nat \/ nth_error sample_bytes (s - 1) = Some Byte.x0a) /\
    (List.length sample_bytes <= e \/ nth_error sample_bytes (e - 1) = Some Byte.x0a)%nat.
Proof.
  assert (H1 : (0 <= 1 <= 10)%Z) by lia.
  assert (H2 : (1 <= 10)%Z) by lia.
  assert (H3 : [Byte.x34; Byte.x35; Byte.x36; Byte.x0a;
                Byte.x37; Byte.x38; Byte.x39; Byte.x0a] <> []) by discriminate.
  split; [exact H1|]. split; [exact H2|]. split; [reflexivity|].
  exact (@textblock_whole_lines sample_bytes 1%Z 10%Z _ H1 H2 eq_refl H3).
Defined.

(** The example of the docstring: offsets 1 and 10 of "123\n456\n789\nabc"
    give "456\n789\n". *)
Example textblock_docstring :
  Utils.block_of sample_bytes 1 (Some 10%Z)
  = Some [Byte.x34; Byte.x35; Byte.x36; Byte.x0a; Byte.x37; Byte.x38; Byte.x39; Byte.x0a].
Proof. reflexivity. Qed.

Example deepmap_docstring :
  Utils.deepmap (fun args : list (Utils.value Z) =>
                   match args with
                   | [Utils.Atom x; Utils.Atom y] => Utils.Atom (x + y)%Z
                   | _ => Utils.Atom 0%Z
                   end)
    [Utils.PList [Utils.PList [Utils.Atom 1; Utils.Atom 2];
                  Utils.PList [Utils.Atom 3; Utils.Atom 4]];
     Utils.PList [Utils.PList [Utils.Atom 10; Utils.Atom 20];
                  Utils.PList [Utils.Atom 30; Utils.Atom 40]]]%Z
  = Ok (Utils.PList [Utils.PList [Utils.Atom 11; Utils.Atom 22];
                     Utils.PList [Utils.Atom 33; Utils.Atom 44]])%Z.
Proof. reflexivity. Qed.

Example concrete_docstring :
  Utils.concrete (Utils.PIter [Utils.PIter [Utils.Atom 1; Utils.Atom 2];
                               Utils.PIter [Utils.Atom 3; Utils.Atom 4]])%Z
  = Utils.PList [Utils.PList [Utils.Atom 1; Utils.Atom 2];
                 Utils.PList [Utils.Atom 3; Utils.Atom 4]]%Z.
Proof. reflexivity. Qed.
